(** * 0g3lib slice: a growable, type-erased array (slice.c / slice.h)

    A shallow embedding of the C code of [slice.c] over an explicit model of
    the C heap, and the properties of the library proved on it.

    Conventions of the embedding.
    - [int] and [unsigned int] are 32 bits wide.  Values are kept in [Z];
      unsigned arithmetic wraps modulo [2^32] (written out in [uint_add] and
      [uint_mul]); signed arithmetic that leaves the range of [int] is
      undefined behaviour and ends the run with the outcome [Undefined].
    - The heap is a list of objects indexed by block number.  A block is
      never reused, so a dangling pointer is always detected.  Dereferencing
      [NULL], a freed block or an address outside a block is undefined
      behaviour as well.
    - [malloc], [calloc] and [realloc] may fail: the heap carries the list
      of the answers the allocator is going to give ([oracle]); once the
      list is used up every request succeeds.  A granted request of zero
      bytes yields an empty block.  [size_t] is taken to be at least as wide
      as [unsigned int]: the byte count of a request is the value of the
      argument expression, and the product that [calloc] forms is exact.
    - A [Slice] struct is one object of the heap, read and written as a
      whole; callbacks are functions of the same monad as the library.
    - Loops take a [fuel] argument; [OutOfFuel] is a third outcome, distinct
      from a normal return and from undefined behaviour. *)

From Stdlib Require Import ZArith Lia Init.Byte Strings.Byte.
From stdpp Require Import base tactics list.

Local Open Scope Z_scope.

(** ** Machine integers *)

Definition int_min : Z := -2147483648.
Definition int_max : Z := 2147483647.
Definition uint_max : Z := 4294967295.
Definition uint_modulus : Z := 4294967296.

Definition in_int (z : Z) : Prop := int_min <= z <= int_max.
Definition in_uint (z : Z) : Prop := 0 <= z <= uint_max.

Definition in_intb (z : Z) : bool := (int_min <=? z) && (z <=? int_max).

(** Conversion of an [int] to [unsigned int], and the two unsigned
    operations the code uses. *)
Definition to_uint (z : Z) : Z := z mod uint_modulus.
Definition uint_add (a b : Z) : Z := (a + b) mod uint_modulus.
Definition uint_mul (a b : Z) : Z := (a * b) mod uint_modulus.

(** ** The heap *)

Inductive memval : Type :=
| Undef
| MByte (b : byte).

Inductive pointer : Type :=
| NULL
| Ptr (b : nat) (ofs : Z).

(** [typedef struct { void *head; int len; int cap; unsigned int elSize; } Slice;] *)
Record Slice : Type := mkSlice {
  head : pointer;
  len : Z;
  cap : Z;
  elSize : Z
}.

Inductive object : Type :=
| Freed
| Raw (data : list memval)
| Fresh
| Struct (s : Slice).

Record heap : Type := mkHeap {
  objs : list object;
  oracle : list bool
}.

Definition is_null (p : pointer) : bool :=
  match p with NULL => true | Ptr _ _ => false end.

(** ** Outcomes and the monad of C computations *)

Inductive outcome (A : Type) : Type :=
| Ret (a : A) (h : heap)
| Undefined
| OutOfFuel.

Arguments Ret {A} a h.
Arguments Undefined {A}.
Arguments OutOfFuel {A}.

Definition M (A : Type) : Type := heap -> outcome A.

Definition pure {A} (a : A) : M A := fun h => Ret a h.

Definition bind {A B} (m : M A) (k : A -> M B) : M B :=
  fun h => match m h with
           | Ret a h' => k a h'
           | Undefined => Undefined
           | OutOfFuel => OutOfFuel
           end.

Definition undefined {A} : M A := fun _ => Undefined.
Definition out_of_fuel {A} : M A := fun _ => OutOfFuel.

Notation "'let*' x ':=' c 'in' k" := (bind c (fun x => k))
  (at level 10, x binder, c at level 100, k at level 200).

(** Signed arithmetic: overflow is undefined behaviour. *)
Definition checked (z : Z) : M Z :=
  if in_intb z then pure z else undefined.

Definition int_add (a b : Z) : M Z := checked (a + b).
Definition int_sub (a b : Z) : M Z := checked (a - b).
Definition int_mul (a b : Z) : M Z := checked (a * b).
Definition int_neg (a : Z) : M Z := checked (- a).

(** ** The allocator *)

Definition next_alloc : M bool := fun h =>
  match oracle h with
  | [] => Ret true h
  | ok :: o => Ret ok (mkHeap (objs h) o)
  end.

Definition alloc_obj (o : object) : M pointer := fun h =>
  Ret (Ptr (length (objs h)) 0) (mkHeap (objs h ++ [o]) (oracle h)).

(** [malloc(n)]: [n] bytes of indeterminate content. *)
Definition malloc (n : Z) : M pointer :=
  let* ok := next_alloc in
  if ok then alloc_obj (Raw (replicate (Z.to_nat n) Undef)) else pure NULL.

(** [malloc(sizeof(Slice))]: a struct whose fields are not yet assigned. *)
Definition malloc_Slice : M pointer :=
  let* ok := next_alloc in
  if ok then alloc_obj Fresh else pure NULL.

(** [calloc(nmemb, size)]: [nmemb * size] zero bytes. *)
Definition calloc (nmemb size : Z) : M pointer :=
  let* ok := next_alloc in
  if ok then alloc_obj (Raw (replicate (Z.to_nat (nmemb * size)) (MByte x00)))
  else pure NULL.

(** [free(p)]: [free(NULL)] does nothing; otherwise [p] must be the start of
    a live block. *)
Definition free (p : pointer) : M unit :=
  match p with
  | NULL => pure tt
  | Ptr b ofs => fun h =>
      if ofs =? 0 then
        match objs h !! b with
        | Some Freed | None => Undefined
        | Some _ => Ret tt (mkHeap (<[b:=Freed]> (objs h)) (oracle h))
        end
      else Undefined
  end.

Definition load_raw (p : pointer) : M (list memval) := fun h =>
  match p with
  | NULL => Undefined
  | Ptr b ofs =>
      if ofs =? 0 then
        match objs h !! b with
        | Some (Raw data) => Ret data h
        | _ => Undefined
        end
      else Undefined
  end.

(** [realloc(p, n)]: on success a new block holding the first [n] bytes of
    the old one (the rest indeterminate) and the old block is released; on
    failure [NULL], the old block untouched. *)
Definition realloc (p : pointer) (n : Z) : M pointer :=
  match p with
  | NULL => malloc n
  | Ptr _ _ =>
      let* data := load_raw p in
      let* ok := next_alloc in
      if ok then
        let* new := alloc_obj (Raw (resize (Z.to_nat n) Undef data)) in
        let* _ := free p in
        pure new
      else pure NULL
  end.

(** ** Access to raw bytes *)

Definition in_bounds (data : list memval) (ofs n : Z) : bool :=
  (0 <=? ofs) && (0 <=? n) && (ofs + n <=? Z.of_nat (length data)).

Definition load_bytes (p : pointer) (n : Z) : M (list memval) := fun h =>
  match p with
  | NULL => Undefined
  | Ptr b ofs =>
      match objs h !! b with
      | Some (Raw data) =>
          if in_bounds data ofs n
          then Ret (take (Z.to_nat n) (drop (Z.to_nat ofs) data)) h
          else Undefined
      | _ => Undefined
      end
  end.

(** [data] with the bytes from offset [o] on overwritten by [vs]. *)
Definition splice (data vs : list memval) (o : nat) : list memval :=
  take o data ++ vs ++ drop (o + length vs) data.

Definition store_bytes (p : pointer) (vs : list memval) : M unit := fun h =>
  match p with
  | NULL => Undefined
  | Ptr b ofs =>
      match objs h !! b with
      | Some (Raw data) =>
          if in_bounds data ofs (Z.of_nat (length vs))
          then Ret tt (mkHeap (<[b := Raw (splice data vs (Z.to_nat ofs))]> (objs h))
                              (oracle h))
          else Undefined
      | _ => Undefined
      end
  end.

(** The two regions of a [memcpy] must not overlap. *)
Definition overlap (dst src : pointer) (n : Z) : bool :=
  match dst, src with
  | Ptr b1 o1, Ptr b2 o2 =>
      (b1 =? b2)%nat && (0 <? n) && (o1 <? o2 + n) && (o2 <? o1 + n)
  | _, _ => false
  end.

Definition memcpy (dst src : pointer) (n : Z) : M unit :=
  let* vs := load_bytes src n in
  if overlap dst src n then undefined else store_bytes dst vs.

(** Pointer arithmetic on [void*] (counted in bytes). *)
Definition ptr_add (p : pointer) (off : Z) : M pointer :=
  match p with
  | NULL => undefined
  | Ptr b ofs => pure (Ptr b (ofs + off))
  end.

(** ** Access to [Slice] structs *)

Definition load_Slice (s : pointer) : M Slice := fun h =>
  match s with
  | NULL => Undefined
  | Ptr b ofs =>
      if ofs =? 0 then
        match objs h !! b with
        | Some (Struct st) => Ret st h
        | _ => Undefined
        end
      else Undefined
  end.

Definition store_Slice (s : pointer) (st : Slice) : M unit := fun h =>
  match s with
  | NULL => Undefined
  | Ptr b ofs =>
      if ofs =? 0 then
        match objs h !! b with
        | Some Fresh | Some (Struct _) =>
            Ret tt (mkHeap (<[b := Struct st]> (objs h)) (oracle h))
        | _ => Undefined
        end
      else Undefined
  end.

(** ** The library: slice.c *)

(** [Slice* NewSlice(unsigned int elSize, int cap)] *)
Definition NewSlice (elSize cap : Z) : M pointer :=
  let* s := malloc_Slice in
  if (cap <? 0) || is_null s then pure NULL
  else
    let* head := calloc (to_uint cap) elSize in
    if is_null head then
      let* _ := free s in
      pure NULL
    else
      let* _ := store_Slice s (mkSlice head 0 cap elSize) in
      pure s.

(** [void DeleteSlice(Slice* s)] *)
Definition DeleteSlice (s : pointer) : M unit :=
  let* st := load_Slice s in
  let* _ := free (head st) in
  free s.

(** [void* SliceGet(Slice* s, int i)] *)
Definition SliceGet (s : pointer) (i : Z) : M pointer :=
  let* st := load_Slice s in
  if 0 <=? i then
    if len st <=? i then pure NULL
    else ptr_add (head st) (uint_mul (to_uint i) (elSize st))
  else
    let* k := int_add (len st) i in
    if k <? 0 then pure NULL
    else ptr_add (head st) (uint_mul (to_uint k) (elSize st)).

(** [Slice* SliceAppend(Slice* s, void* dat)] *)
Definition SliceAppend (s dat : pointer) : M pointer :=
  let* st := load_Slice s in
  let* grown :=
    (if len st =? cap st then
       let* new := realloc (head st)
                     (uint_mul (uint_mul (uint_add (to_uint (cap st)) (elSize st))
                                         (elSize st)) 2) in
       if is_null new then pure None
       else
         let* c1 := int_add (cap st) 1 in
         let* c2 := int_mul c1 2 in
         let st' := mkSlice new (len st) c2 (elSize st) in
         let* _ := store_Slice s st' in
         pure (Some st')
     else pure (Some st)) in
  match grown with
  | None => pure NULL
  | Some st =>
      let* el := ptr_add (head st) (uint_mul (to_uint (len st)) (elSize st)) in
      let* _ := memcpy el dat (elSize st) in
      let* l := int_add (len st) 1 in
      let* _ := store_Slice s (mkSlice (head st) l (cap st) (elSize st)) in
      pure s
  end.

(** The two copy loops of [SliceSlice]:
    [for (i = i1; i < i2; i+=step)] and [for (i = i2-1; i >= i1; i+=step)]. *)
Fixpoint copy_up (fuel : nat) (s ret : pointer) (i i2 step : Z) : M pointer :=
  match fuel with
  | O => out_of_fuel
  | S fuel' =>
      if i <? i2 then
        let* dat := SliceGet s i in
        if is_null dat then
          let* _ := DeleteSlice ret in pure NULL
        else
          let* result := SliceAppend ret dat in
          if is_null result then
            let* _ := DeleteSlice ret in pure NULL
          else
            let* i' := int_add i step in
            copy_up fuel' s ret i' i2 step
      else pure ret
  end.

Fixpoint copy_down (fuel : nat) (s ret : pointer) (i i1 step : Z) : M pointer :=
  match fuel with
  | O => out_of_fuel
  | S fuel' =>
      if i1 <=? i then
        let* dat := SliceGet s i in
        if is_null dat then
          let* _ := DeleteSlice ret in pure NULL
        else
          let* result := SliceAppend ret dat in
          if is_null result then
            let* _ := DeleteSlice ret in pure NULL
          else
            let* i' := int_add i step in
            copy_down fuel' s ret i' i1 step
      else pure ret
  end.

(** [Slice* SliceSlice(Slice* s, int i1, int i2, int step)] *)
Definition SliceSlice (fuel : nat) (s : pointer) (i1 i2 step : Z) : M pointer :=
  let* st := load_Slice s in
  let* bad :=
    (if len st <=? i1 then pure true
     else
       let* nl := int_neg (len st) in
       pure ((i1 <? nl) || (len st <? i2) || (i2 <? nl) || (step =? 0))) in
  if bad : bool then pure NULL
  else
    let* i1 := (if i1 <? 0 then int_add (len st) i1 else pure i1) in
    let* i2 := (if i2 <? 0 then
                  let* t := int_add (len st) i2 in int_add t 1
                else pure i2) in
    if i2 <=? i1 then pure NULL
    else
      let* c := int_sub i2 i1 in
      let* ret := NewSlice (elSize st) c in
      if is_null ret then pure NULL
      else if 0 <? step then copy_up fuel s ret i1 i2 step
      else
        let* i0 := int_sub i2 1 in
        copy_down fuel s ret i0 i1 step.

(** [SliceMap(s, elSize, f)], where [f] takes a pointer to an element and
    returns a pointer to the mapped element.
    The result of [NewSlice] is used without a test. *)
Fixpoint map_loop (fuel : nat) (s ret : pointer) (f : pointer -> M pointer)
    (i : Z) : M pointer :=
  match fuel with
  | O => out_of_fuel
  | S fuel' =>
      let* st := load_Slice s in
      if i <? len st then
        let* p := SliceGet s i in
        let* q := f p in
        let* r := SliceAppend ret q in
        if is_null r then pure NULL
        else
          let* i' := int_add i 1 in
          map_loop fuel' s ret f i'
      else pure ret
  end.

Definition SliceMap (fuel : nat) (s : pointer) (elSize : Z)
    (f : pointer -> M pointer) : M pointer :=
  let* st := load_Slice s in
  let* ret := NewSlice elSize (len st) in
  map_loop fuel s ret f 0.

(** [SliceFilter(s, f)], where [f] takes a pointer to an element and returns
    an [int], non-zero to keep the element. *)
Fixpoint filter_loop (fuel : nat) (s ret : pointer) (f : pointer -> M Z)
    (i : Z) : M pointer :=
  match fuel with
  | O => out_of_fuel
  | S fuel' =>
      let* st := load_Slice s in
      if i <? len st then
        let* dat := SliceGet s i in
        let* keep := f dat in
        let* stop :=
          (if keep =? 0 then pure false
           else
             let* r := SliceAppend ret dat in
             if is_null r then
               let* _ := DeleteSlice ret in pure true
             else pure false) in
        if stop : bool then pure NULL
        else
          let* i' := int_add i 1 in
          filter_loop fuel' s ret f i'
      else pure ret
  end.

Definition SliceFilter (fuel : nat) (s : pointer) (f : pointer -> M Z)
    : M pointer :=
  let* st := load_Slice s in
  let* ret := NewSlice (elSize st) 0 in
  filter_loop fuel s ret f 0.

(** [SliceReduce(s, f)], where [f] takes the accumulator and a pointer to an
    element and returns the new accumulator. *)
Fixpoint reduce_loop (fuel : nat) (s : pointer)
    (f : pointer -> pointer -> M pointer) (i : Z) (ret : pointer) : M pointer :=
  match fuel with
  | O => out_of_fuel
  | S fuel' =>
      let* st := load_Slice s in
      if i <? len st then
        let* d := SliceGet s i in
        let* ret' := f ret d in
        let* i' := int_add i 1 in
        reduce_loop fuel' s f i' ret'
      else pure ret
  end.

Definition SliceReduce (fuel : nat) (s : pointer)
    (f : pointer -> pointer -> M pointer) : M pointer :=
  let* ret := SliceGet s 0 in
  reduce_loop fuel s f 1 ret.

(** [SliceForEach(s, f)], where [f] takes a pointer to an element. *)
Fixpoint foreach_loop (fuel : nat) (s : pointer) (f : pointer -> M unit)
    (i : Z) : M unit :=
  match fuel with
  | O => out_of_fuel
  | S fuel' =>
      let* st := load_Slice s in
      if i <? len st then
        let* p := SliceGet s i in
        let* _ := f p in
        let* i' := int_add i 1 in
        foreach_loop fuel' s f i'
      else pure tt
  end.

Definition SliceForEach (fuel : nat) (s : pointer) (f : pointer -> M unit)
    : M unit :=
  foreach_loop fuel s f 0.

(** [Slice* SliceAppendArray(Slice* s, void* a, unsigned int cnt)].
    [i < cnt] compares an [int] with an [unsigned int], so [i] is converted. *)
Fixpoint append_array_loop (fuel : nat) (s a : pointer) (cnt i : Z)
    : M pointer :=
  match fuel with
  | O => out_of_fuel
  | S fuel' =>
      if to_uint i <? cnt then
        let* st := load_Slice s in
        let* p := ptr_add a (uint_mul (elSize st) (to_uint i)) in
        let* r := SliceAppend s p in
        if is_null r then pure NULL
        else
          let* i' := int_add i 1 in
          append_array_loop fuel' s a cnt i'
      else pure s
  end.

Definition SliceAppendArray (fuel : nat) (s a : pointer) (cnt : Z)
    : M pointer :=
  append_array_loop fuel s a cnt 0.

(** [Slice* SliceExtend(Slice* s1, Slice* s2)] *)
Fixpoint extend_loop (fuel : nat) (s1 s2 : pointer) (i : Z) : M pointer :=
  match fuel with
  | O => out_of_fuel
  | S fuel' =>
      let* st2 := load_Slice s2 in
      if i <? len st2 then
        let* d := SliceGet s2 i in
        let* r := SliceAppend s1 d in
        if is_null r then pure NULL
        else
          let* i' := int_add i 1 in
          extend_loop fuel' s1 s2 i'
      else pure s1
  end.

Definition SliceExtend (fuel : nat) (s1 s2 : pointer) : M pointer :=
  extend_loop fuel s1 s2 0.

(** [Slice* SliceEmpty(Slice* s)] *)
Definition SliceEmpty (s : pointer) : M pointer :=
  let* st := load_Slice s in
  let* _ := free (head st) in
  let* head := malloc 0 in
  if is_null head then pure NULL
  else
    let* _ := store_Slice s (mkSlice head 0 0 (elSize st)) in
    pure s.

(** * Vocabulary of the specification *)

(** ** Slices in the heap *)

(** A pointer to a live struct. *)
Definition live_slice (h : heap) (s : pointer) (st : Slice) : Prop :=
  exists b, s = Ptr b 0 /\ objs h !! b = Some (Struct st).

(** The index a call [SliceGet(s, i)] addresses. *)
Definition resolve (st : Slice) (i : Z) : Z :=
  if 0 <=? i then i else len st + i.

(** The [n] bytes found at [p], when they can be read. *)
Definition read (h : heap) (p : pointer) (n : Z) : option (list memval) :=
  match load_bytes p n h with
  | Ret v _ => Some v
  | _ => None
  end.

(** Element [i] of the slice [s], as a caller sees it: the [elSize] bytes
    behind the pointer that [SliceGet(s, i)] returns. *)
Definition elem (h : heap) (s : pointer) (i : Z) : option (list memval) :=
  match SliceGet s i h, load_Slice s h with
  | Ret p _, Ret st _ => read h p (elSize st)
  | _, _ => None
  end.

(** The byte offset of element [i] in the buffer, as the code computes it:
    [i*s->elSize], evaluated in [unsigned int]. *)
Definition offset (st : Slice) (i : Z) : Z := uint_mul (to_uint i) (elSize st).

(** The data model of the slice: the struct is live, [0 <= len <= cap], the
    buffer is a live block of at least [cap * elSize] bytes, and every byte
    offset into it fits the [unsigned int] in which the code computes it. *)
Definition wf_slice (h : heap) (s : pointer) (st : Slice) : Prop :=
  live_slice h s st /\
  0 <= len st <= cap st /\ cap st <= int_max /\
  0 <= elSize st <= uint_max /\
  cap st * elSize st <= uint_max /\
  exists bb data, head st = Ptr bb 0 /\ objs h !! bb = Some (Raw data) /\
                  cap st * elSize st <= Z.of_nat (length data).


(** ** The answers of the allocator *)

(** The answer of the allocator to the next request, and the heap once the
    answer is given. *)
Definition answer (h : heap) : bool := hd true (oracle h).
Definition asked (h : heap) : heap := mkHeap (objs h) (tl (oracle h)).

(** The heap after a successful [NewSlice(elSize, c)]. *)
Definition with_new_slice (h : heap) (elSize c : Z) : heap :=
  mkHeap (objs h ++
          [Struct (mkSlice (Ptr (S (length (objs h))) 0) 0 c elSize);
           Raw (replicate (Z.to_nat (c * elSize)) (MByte x00))])
         (tl (tl (oracle h))).

(** The heap after a [NewSlice] whose [calloc] was refused. *)
Definition with_lost_struct (h : heap) : heap :=
  mkHeap (objs h ++ [Freed]) (tl (tl (oracle h))).

(** ** The two halves of [SliceAppend] *)

(** The byte count that [SliceAppend] passes to [realloc]:
    [(s->cap+s->elSize)*s->elSize*2], evaluated in [unsigned int]. *)
Definition grow_bytes (st : Slice) : Z :=
  uint_mul (uint_mul (uint_add (to_uint (cap st)) (elSize st)) (elSize st)) 2.

(** The struct after a growth into the buffer [new]. *)
Definition grown (st : Slice) (new : pointer) : Slice :=
  mkSlice new (len st) ((cap st + 1) * 2) (elSize st).

(** The second half of [SliceAppend], after the growth test: the copy of
    the element into the slot [len] and the increment of [len]. *)
Definition append_tail (s dat : pointer) (st : Slice) : M pointer :=
  let* el := ptr_add (head st) (uint_mul (to_uint (len st)) (elSize st)) in
  let* _ := memcpy el dat (elSize st) in
  let* l := int_add (len st) 1 in
  let* _ := store_Slice s (mkSlice (head st) l (cap st) (elSize st)) in
  pure s.

(** The struct with one element more. *)
Definition bump (st : Slice) : Slice :=
  mkSlice (head st) (len st + 1) (cap st) (elSize st).

(** ** Sub-ranges *)

(** The bounds of a sub-range after the normalization of negative indices:
    [start < 0] becomes [start + len], [end < 0] becomes [end + len + 1]. *)
Definition norm_start (st : Slice) (i1 : Z) : Z :=
  if i1 <? 0 then i1 + len st else i1.

Definition norm_end (st : Slice) (i2 : Z) : Z :=
  if i2 <? 0 then i2 + len st + 1 else i2.


Definition rejectedb (st : Slice) (i1 i2 step : Z) : bool :=
  (step =? 0) || negb ((- len st <=? i1) && (i1 <? len st)) ||
  negb ((- len st <=? i2) && (i2 <=? len st)) ||
  (norm_end st i2 <=? norm_start st i1).

(** The number of elements a call of [SliceSlice] copies, once the bounds
    are normalized to [n1 < n2]: the indices [n1, n1+|step|, ..] below [n2]
    are as many as the indices [n2-1, n2-1-|step|, ..] from [n1] on. *)
Definition copy_count (n1 n2 step : Z) : Z := (n2 - 1 - n1) / Z.abs step + 1.

(** The two copy loops differ in their test only. *)
Fixpoint copy_loop (test : Z -> bool) (fuel : nat) (s ret : pointer)
    (i step : Z) : M pointer :=
  match fuel with
  | O => out_of_fuel
  | S fuel' =>
      if test i then
        let* dat := SliceGet s i in
        if is_null dat then
          let* _ := DeleteSlice ret in pure NULL
        else
          let* result := SliceAppend ret dat in
          if is_null result then
            let* _ := DeleteSlice ret in pure NULL
          else
            let* i' := int_add i step in
            copy_loop test fuel' s ret i' step
      else pure ret
  end.

(** The state of a copy after [k] elements: the source [s] is intact and
    shows the elements [src]; the result [r] is a well-formed slice of
    capacity [c], apart from [s], holding [src (idx 0) .. src (idx (k-1))]. *)
Definition copying (src : Z -> option (list memval)) (idx : Z -> Z)
    (s r : pointer) (st : Slice) (c k : Z) (h : heap) : Prop :=
  wf_slice h s st /\
  (forall j, 0 <= j < len st -> elem h s j = src j) /\
  exists rst, wf_slice h r rst /\
    len rst = k /\ cap rst = c /\ elSize rst = elSize st /\
    r <> s /\ head rst <> head st /\
    (forall j, 0 <= j < k -> elem h r j = src (idx j)).

(** ** Folds *)

(** A left fold over the elements at [idxs], in the words of the
    specification: the accumulator becomes [f(accumulator, element)]. *)
Fixpoint left_fold (s : pointer) (f : pointer -> pointer -> M pointer)
    (idxs : list Z) (acc : pointer) : M pointer :=
  match idxs with
  | [] => pure acc
  | i :: rest =>
      let* d := SliceGet s i in
      let* acc' := f acc d in
      left_fold s f rest acc'
  end.

(** ** The invariant and the calls that must keep it *)










(** ** Observing a run *)

(** The heap a run ends in, the value it returns, and the size of the
    buffer of a slice. *)
Definition heap_of {A} (o : outcome A) : option heap :=
  match o with
  | Ret _ h => Some h
  | _ => None
  end.

Definition value_of {A} (o : outcome A) : option A :=
  match o with
  | Ret a _ => Some a
  | _ => None
  end.


(** ** Example heaps, slices and callbacks *)

(** A caller's heap holding one block of [n] bytes [x01]. *)
Definition caller_heap (n : Z) (answers : list bool) : heap :=
  mkHeap [Raw (replicate (Z.to_nat n) (MByte x01))] answers.

(** [s = NewSlice(elSize, 0); SliceAppend(s, dat);] followed by [after]. *)
Definition new_then_append {A} (elSize : Z) (dat : pointer)
    (after : pointer -> M A) : M A :=
  let* s := NewSlice elSize 0 in
  let* _ := SliceAppend s dat in
  after s.

(** [s = NewSlice(1, 2)] filled with the two bytes of the caller's block. *)
Definition two_bytes : M pointer :=
  let* s := NewSlice 1 2 in
  let* _ := SliceAppend s (Ptr 0 0) in
  let* _ := SliceAppend s (Ptr 0 1) in
  pure s.

(** A heap with the caller's bytes 7, 8, 9 in block 0 and a slice of
    one-byte elements (struct in block 1, buffer in block 2) that holds them,
    with room for one more. *)
Definition bytes789 : list memval := [MByte x07; MByte x08; MByte x09].

Definition ex_slice : Slice := mkSlice (Ptr 2 0) 3 4 1.

Definition ex_heap : heap :=
  mkHeap [Raw bytes789; Struct ex_slice; Raw (bytes789 ++ [Undef])] [].

(** The same slice with its buffer full. *)
Definition full_slice : Slice := mkSlice (Ptr 2 0) 3 3 1.

Definition full_heap : heap :=
  mkHeap [Raw bytes789; Struct full_slice; Raw bytes789] [].

(** An [int] in memory: four bytes, least significant first. *)
Definition byte_of_Z (z : Z) : byte :=
  match Byte.of_N (Z.to_N (z mod 256)) with
  | Some b => b
  | None => x00
  end.

Definition encode_int (z : Z) : list memval :=
  map (fun k => MByte (byte_of_Z (z / 256 ^ k))) [0; 1; 2; 3].

Fixpoint decode_uint (vs : list memval) : option Z :=
  match vs with
  | [] => Some 0
  | MByte b :: rest =>
      match decode_uint rest with
      | Some z => Some (Z.of_N (Byte.to_N b) + 256 * z)
      | None => None
      end
  | Undef :: _ => None
  end.

(** Reading and writing the [int] that [p] points to. *)
Definition load_int (p : pointer) : M Z :=
  let* vs := load_bytes p 4 in
  match decode_uint vs with
  | Some u => pure (if u <=? int_max then u else u - uint_modulus)
  | None => undefined
  end.

Definition store_int (p : pointer) (z : Z) : M unit :=
  store_bytes p (encode_int z).

(** A summation callback: it adds the [int] at [b] to the [int] at [a] and
    returns [a]. *)
Definition sum_ints (a b : pointer) : M pointer :=
  let* x := load_int a in
  let* y := load_int b in
  let* z := int_add x y in
  let* _ := store_int a z in
  pure a.

(** The caller's array [{1, 2, 3}] and the slice made of it. *)
Definition ints_heap : heap :=
  mkHeap [Raw (encode_int 1 ++ encode_int 2 ++ encode_int 3)] [].

Definition three_ints : M pointer :=
  let* s := NewSlice 4 3 in
  SliceAppendArray 5 s (Ptr 0 0) 3.

(** Slices whose buffers are larger than [unsigned int] can count. *)

(** A slice of [2^29] eight-byte elements in a buffer with room for ten
    more, all bytes zero, beside a caller's block of eight bytes [x01]. *)
Definition wide_slice : Slice := mkSlice (Ptr 2 0) 536870912 536870922 8.

Definition wide_heap : heap :=
  mkHeap [Raw (replicate 8 (MByte x01)); Struct wide_slice;
          Raw (replicate (Z.to_nat 4294967376) (MByte x00))] [].

(** A full slice of three elements of [E] bytes over the buffer [d], and the
    heap that holds it. *)
Definition tall_slice (E : Z) : Slice := mkSlice (Ptr 1 0) 3 3 E.

Definition tall_heap (E : Z) (d : list memval) : heap :=
  mkHeap [Struct (tall_slice E); Raw d] [].

(** The same heap while [SliceSlice] copies into its result: the result has
    [k] elements in the buffer [b]. *)
Definition copy_heap (E : Z) (d : list memval) (k : Z) (b : list memval)
    : heap :=
  mkHeap [Struct (tall_slice E); Raw d; Struct (mkSlice (Ptr 3 0) k 3 E); Raw b]
         [].

(** The buffer of a slice of three elements of [3 * 2^30] bytes, as three
    appends to the result of [NewSlice(3221225472, 3)] leave it when the
    first element is made of bytes [x01] and the two others of bytes [x02]:
    [2^31] bytes [x01], [2^32] bytes [x02], and zeros to the end. *)
Definition tall_bytes : list memval :=
  replicate (Z.to_nat 2147483648) (MByte x01) ++
  replicate (Z.to_nat 4294967296) (MByte x02) ++
  replicate (Z.to_nat 3221225472) (MByte x00).

(** ** The elements of a slice as a list, and further examples *)

(** The allocator grants every request to come. *)
Definition all_granted (h : heap) : Prop := Forall (eq true) (oracle h).

(** A slice of [n] elements of [E] bytes can grow without the byte count of
    [SliceAppend] wrapping and without the new capacity leaving [int]. *)
Definition growth_fits (E n : Z) : Prop :=
  (n + E) * E * 2 <= uint_max /\ n * 2 <= int_max.

(** The slice [s] satisfies the data model and holds the elements [vs]. *)
Definition holds (h : heap) (s : pointer) (st : Slice)
    (vs : list (list memval)) : Prop :=
  wf_slice h s st /\ len st = Z.of_nat (length vs) /\
  forall j v, vs !! j = Some v -> elem h s (Z.of_nat j) = Some v.

(** The heap [h] comes from [h0] by appends to the slice [s] (struct [st0]
    in [h0], [st] in [h]): the element size is the same, the objects of
    [h0] other than the struct and the first buffer of [s] are as they were,
    and the buffer is the first one or a block made since. *)
Definition grown_from (h0 : heap) (s : pointer) (st0 : Slice) (h : heap)
    (st : Slice) : Prop :=
  elSize st = elSize st0 /\
  (forall b, (b < length (objs h0))%nat -> s <> Ptr b 0 ->
     head st0 <> Ptr b 0 -> objs h !! b = objs h0 !! b) /\
  (forall b, head st = Ptr b 0 ->
     head st0 = Ptr b 0 \/ (length (objs h0) <= b)%nat) /\
  (length (objs h0) <= length (objs h))%nat.

(** The heap [h] with an allocator that refuses the next request. *)
Definition refusing (h : heap) : heap := mkHeap (objs h) [false].

(** A second slice, holding the bytes 8 and 9, beside the slice of
    [ex_heap]. *)
Definition pair_heap : heap :=
  mkHeap (objs ex_heap ++
          [Struct (mkSlice (Ptr 4 0) 2 2 1); Raw [MByte x08; MByte x09]]) [].

(** The calls [f(p)] for the pointers [ps], one after the other. *)
Fixpoint visit (f : pointer -> M unit) (ps : list pointer) : M unit :=
  match ps with
  | [] => pure tt
  | p :: rest => let* _ := f p in visit f rest
  end.

(** A callback that sets the byte it is given to zero. *)
Definition clear_byte (p : pointer) : M unit := store_bytes p [MByte x00].

(** A predicate on one-byte elements, [0] on the byte 8 only, and the
    callback that computes it from the pointer to the element. *)
Definition not_eight (v : list memval) : Z :=
  match v with
  | [MByte x08] => 0
  | _ => 1
  end.

Definition skip_eight (p : pointer) : M Z :=
  let* v := load_bytes p 1 in pure (not_eight v).

(** * Properties *)

(** ** Reasoning about the monad *)

Lemma bind_Ret {A B} (m : M A) (k : A -> M B) h a h' :
  m h = Ret a h' -> bind m k h = k a h'.
Proof. intros E. unfold bind. now rewrite E. Qed.

Lemma bind_Ret_inv {A B} (m : M A) (k : A -> M B) h b h2 :
  bind m k h = Ret b h2 -> exists a h1, m h = Ret a h1 /\ k a h1 = Ret b h2.
Proof.
  unfold bind. destruct (m h) as [a h1| |]; intros E; try discriminate.
  now exists a, h1.
Qed.

Lemma bind_ext {A B} (m : M A) (k1 k2 : A -> M B) h :
  (forall a h', m h = Ret a h' -> k1 a h' = k2 a h') ->
  bind m k1 h = bind m k2 h.
Proof. intros H. unfold bind. destruct (m h); auto. Qed.

Lemma checked_in z h : in_int z -> checked z h = Ret z h.
Proof.
  unfold in_int, checked, in_intb. intros [H1 H2].
  apply Z.leb_le in H1, H2. now rewrite H1, H2.
Qed.

Lemma checked_Ret z h r h' : checked z h = Ret r h' -> r = z /\ h' = h /\ in_int z.
Proof.
  unfold checked, in_int, in_intb.
  destruct (int_min <=? z) eqn:E1; destruct (z <=? int_max) eqn:E2;
    simpl; intros E; try discriminate.
  inversion E; subst. apply Z.leb_le in E1, E2. auto.
Qed.

Lemma load_Slice_live h s st :
  live_slice h s st -> load_Slice s h = Ret st h.
Proof. intros (b & -> & E). unfold load_Slice. simpl. now rewrite E. Qed.

Lemma load_Slice_Ret h s st h' :
  load_Slice s h = Ret st h' -> h' = h /\ live_slice h s st.
Proof.
  unfold load_Slice, live_slice. destruct s as [|b ofs]; try discriminate.
  destruct (ofs =? 0) eqn:Eo; try discriminate.
  apply Z.eqb_eq in Eo. subst ofs.
  destruct (objs h !! b) as [[| | |st']|] eqn:E; try discriminate.
  intros H. inversion H; subst. eauto.
Qed.

Lemma next_alloc_eq h : next_alloc h = Ret (answer h) (asked h).
Proof.
  unfold next_alloc, answer, asked. destruct h as [o [|b r]]; reflexivity.
Qed.

(** ** Machine arithmetic *)

Lemma in_int_small z : -1000 <= z <= 1000 -> in_int z.
Proof. unfold in_int, int_min, int_max. lia. Qed.

Lemma to_uint_small z : 0 <= z <= uint_max -> to_uint z = z.
Proof. intros H. apply Z.mod_small. unfold uint_max, uint_modulus in *. lia. Qed.

Lemma uint_mul_small a b :
  0 <= a -> 0 <= b -> a * b <= uint_max -> uint_mul (to_uint a) b = a * b.
Proof.
  intros Ha Hb Hab. unfold uint_mul, to_uint, uint_modulus, uint_max in *.
  destruct (Z.eq_dec b 0) as [->|Hb0].
  - rewrite !Z.mul_0_r. reflexivity.
  - assert (a <= a * b) by nia.
    rewrite (Z.mod_small a) by lia. apply Z.mod_small. lia.
Qed.

Lemma grow_bytes_exact st :
  0 <= cap st -> 0 <= elSize st ->
  (cap st + elSize st) * elSize st * 2 <= uint_max ->
  grow_bytes st = (cap st + elSize st) * elSize st * 2.
Proof.
  intros Hc HE Hb. unfold grow_bytes, uint_mul, uint_add, to_uint.
  unfold uint_max, uint_modulus in *.
  destruct (Z.eq_dec (elSize st) 0) as [E0|E0].
  - rewrite E0, !Z.mul_0_r. reflexivity.
  - assert (cap st + elSize st <= (cap st + elSize st) * elSize st) by nia.
    rewrite (Z.mod_small (cap st)) by lia.
    rewrite (Z.mod_small (cap st + elSize st)) by lia.
    rewrite (Z.mod_small ((cap st + elSize st) * elSize st)) by lia.
    apply Z.mod_small. lia.
Qed.

(** While the byte count does not wrap, it covers the new capacity. *)
Lemma grow_bytes_enough st :
  0 <= cap st -> 0 <= elSize st ->
  (cap st + elSize st) * elSize st * 2 <= uint_max ->
  (cap st + 1) * 2 * elSize st <= grow_bytes st.
Proof.
  intros Hc HE Hb. rewrite grow_bytes_exact by auto. nia.
Qed.

(** ** Bytes in blocks *)

Lemma splice_length (d vs : list memval) (o : nat) :
  (o + length vs <= length d)%nat -> length (splice d vs o) = length d.
Proof.
  intros H. unfold splice. rewrite !length_app, length_take, length_drop. lia.
Qed.

Lemma splice_same (d vs : list memval) (o : nat) :
  (o + length vs <= length d)%nat ->
  take (length vs) (drop o (splice d vs o)) = vs.
Proof.
  intros H. unfold splice.
  rewrite drop_app_length' by (rewrite length_take; lia).
  now rewrite take_app_length.
Qed.

Lemma splice_before (d vs : list memval) (o o' m : nat) :
  (o' + m <= o)%nat -> (o + length vs <= length d)%nat ->
  take m (drop o' (splice d vs o)) = take m (drop o' d).
Proof.
  intros H1 H2. unfold splice.
  rewrite !take_drop_commute.
  rewrite take_app_le by (rewrite length_take; lia).
  rewrite take_take. now replace (min (o' + m) o)%nat with (o' + m)%nat by lia.
Qed.

Lemma splice_straddle (d vs : list memval) (o m : nat) :
  (o <= m <= o + length vs)%nat -> (o + length vs <= length d)%nat ->
  take m (splice d vs o) = take o d ++ take (m - o) vs.
Proof.
  intros Hm Hd. unfold splice.
  rewrite take_app, length_take, Nat.min_l by lia.
  rewrite (take_ge (take o d)) by (rewrite length_take; lia).
  now rewrite take_app_le by lia.
Qed.

Lemma resize_prefix (d : list memval) (n o m : nat) :
  (o + m <= n)%nat -> (o + m <= length d)%nat ->
  take m (drop o (resize n Undef d)) = take m (drop o d).
Proof.
  intros H1 H2. rewrite !take_drop_commute. f_equal.
  rewrite take_resize_le by lia. now rewrite resize_le by lia.
Qed.

Lemma in_bounds_true d o n :
  in_bounds d o n = true <-> 0 <= o /\ 0 <= n /\ o + n <= Z.of_nat (length d).
Proof. unfold in_bounds. rewrite !andb_true_iff, !Z.leb_le. tauto. Qed.

Lemma read_Ptr h b o n :
  read h (Ptr b o) n =
    match objs h !! b with
    | Some (Raw d) =>
        if in_bounds d o n
        then Some (take (Z.to_nat n) (drop (Z.to_nat o) d)) else None
    | _ => None
    end.
Proof.
  unfold read, load_bytes.
  destruct (objs h !! b) as [[| d | |]|]; try reflexivity.
  now destruct (in_bounds d o n).
Qed.

Lemma load_bytes_read h p n :
  load_bytes p n h = match read h p n with
                     | Some v => Ret v h
                     | None => Undefined
                     end.
Proof.
  unfold read, load_bytes. destruct p as [|b o]; [reflexivity|].
  destruct (objs h !! b) as [[| d | |]|]; try reflexivity.
  now destruct (in_bounds d o n).
Qed.

Lemma read_frame h h' b o n :
  objs h' !! b = objs h !! b -> read h' (Ptr b o) n = read h (Ptr b o) n.
Proof. intros E. rewrite !read_Ptr. now rewrite E. Qed.

Lemma read_length h p n v : read h p n = Some v -> Z.of_nat (length v) = n /\ 0 <= n.
Proof.
  destruct p as [|b o]; [discriminate|]. rewrite read_Ptr.
  destruct (objs h !! b) as [[| d | |]|]; try discriminate.
  destruct (in_bounds d o n) eqn:E; try discriminate.
  apply in_bounds_true in E. intros [= <-].
  rewrite length_take, length_drop. lia.
Qed.

Lemma read_Raw h b o n d :
  objs h !! b = Some (Raw d) -> 0 <= o -> 0 <= n -> o + n <= Z.of_nat (length d) ->
  read h (Ptr b o) n = Some (take (Z.to_nat n) (drop (Z.to_nat o) d)).
Proof.
  intros Hb Ho Hn Hon. rewrite read_Ptr, Hb.
  now rewrite (proj2 (in_bounds_true d o n)).
Qed.

(** ** The example slices are well formed *)

Lemma ex_live : live_slice ex_heap (Ptr 1 0) ex_slice.
Proof. exists 1%nat. split; reflexivity. Qed.

Lemma ex_wf : wf_slice ex_heap (Ptr 1 0) ex_slice.
Proof.
  split; [exact ex_live|]. unfold int_max, uint_max. simpl.
  repeat (split; [lia|]). eexists _, _. repeat split; simpl; lia.
Qed.


(** ** Indexed access: [SliceGet] *)

Lemma SliceGet_spec h s st i :
  live_slice h s st -> 0 <= len st <= int_max -> in_int i ->
  SliceGet s i h =
    if (0 <=? resolve st i) && (resolve st i <? len st)
    then ptr_add (head st) (uint_mul (to_uint (resolve st i)) (elSize st)) h
    else Ret NULL h.
Proof.
  intros L Hlen Hi. unfold SliceGet, resolve.
  rewrite (bind_Ret _ _ _ _ _ (load_Slice_live _ _ _ L)).
  unfold in_int, int_min, int_max in *.
  destruct (0 <=? i) eqn:E0.
  - apply Z.leb_le in E0. rewrite (proj2 (Z.leb_le 0 i)) by lia. simpl.
    destruct (len st <=? i) eqn:E1.
    + apply Z.leb_le in E1. rewrite (proj2 (Z.ltb_ge i (len st))) by lia.
      reflexivity.
    + apply Z.leb_gt in E1. rewrite (proj2 (Z.ltb_lt i (len st))) by lia.
      reflexivity.
  - apply Z.leb_gt in E0. unfold int_add.
    rewrite (bind_Ret _ _ _ _ _ (checked_in (len st + i) h ltac:(unfold in_int, int_min, int_max; lia))).
    rewrite (proj2 (Z.ltb_lt (len st + i) (len st))) by lia.
    destruct (len st + i <? 0) eqn:E1.
    + apply Z.ltb_lt in E1. rewrite (proj2 (Z.leb_gt 0 (len st + i))) by lia.
      reflexivity.
    + apply Z.ltb_ge in E1. rewrite (proj2 (Z.leb_le 0 (len st + i))) by lia.
      reflexivity.
Qed.

Lemma SliceGet_heap s i h p h' : SliceGet s i h = Ret p h' -> h' = h.
Proof.
  unfold SliceGet. intros Hrun.
  apply bind_Ret_inv in Hrun as (st & h1 & Hld & Hrun).
  apply load_Slice_Ret in Hld as [-> _].
  destruct (0 <=? i).
  - destruct (len st <=? i); [now injection Hrun|].
    destruct (head st); [discriminate|now injection Hrun].
  - apply bind_Ret_inv in Hrun as (k & h2 & Hk & Hrun).
    apply checked_Ret in Hk as (-> & -> & _).
    destruct (_ <? 0); [now injection Hrun|].
    destruct (head st); [discriminate|now injection Hrun].
Qed.



(** An element of a slice whose offsets do not wrap is read at [i * elSize]. *)
Lemma elem_eq h s st bb i :
  live_slice h s st -> head st = Ptr bb 0 -> 0 <= len st <= int_max ->
  0 <= i < len st -> 0 <= elSize st -> i * elSize st <= uint_max ->
  elem h s i = read h (Ptr bb (i * elSize st)) (elSize st).
Proof.
  intros L Hh Hlen Hi HE Hoff. unfold elem.
  rewrite (SliceGet_spec h s st i L Hlen)
    by (unfold in_int, int_min, int_max in *; lia).
  rewrite (load_Slice_live _ _ _ L). unfold resolve.
  rewrite (proj2 (Z.leb_le 0 i)) by lia. rewrite (proj2 (Z.leb_le 0 i)) by lia.
  rewrite (proj2 (Z.ltb_lt i (len st))) by lia. simpl.
  rewrite Hh. simpl. rewrite uint_mul_small by lia. reflexivity.
Qed.

Lemma SliceGet_at h s st bb i :
  live_slice h s st -> head st = Ptr bb 0 -> 0 <= len st <= int_max ->
  0 <= i < len st ->
  SliceGet s i h = Ret (Ptr bb (offset st i)) h.
Proof.
  intros L Hh Hlen Hi.
  rewrite (SliceGet_spec h s st i L Hlen)
    by (unfold in_int, int_min, int_max in *; lia).
  unfold resolve. rewrite (proj2 (Z.leb_le 0 i)) by lia.
  rewrite (proj2 (Z.leb_le 0 i)) by lia.
  rewrite (proj2 (Z.ltb_lt i (len st))) by lia.
  rewrite Hh. reflexivity.
Qed.

Lemma elem_at h s st bb i :
  live_slice h s st -> head st = Ptr bb 0 -> 0 <= len st <= int_max ->
  0 <= i < len st ->
  elem h s i = read h (Ptr bb (offset st i)) (elSize st).
Proof.
  intros L Hh Hlen Hi. unfold elem.
  rewrite (SliceGet_at h s st bb i L Hh Hlen Hi).
  now rewrite (load_Slice_live _ _ _ L).
Qed.

Lemma offset_range st i : 0 <= offset st i < uint_modulus.
Proof. unfold offset, uint_mul. apply Z.mod_pos_bound. reflexivity. Qed.

Lemma elem_frame h h' s st bb i :
  live_slice h s st -> live_slice h' s st -> head st = Ptr bb 0 ->
  objs h' !! bb = objs h !! bb ->
  elem h' s i = elem h s i.
Proof.
  intros L L' Hh Hb. unfold elem.
  rewrite (load_Slice_live _ _ _ L), (load_Slice_live _ _ _ L').
  unfold SliceGet.
  rewrite (bind_Ret _ _ _ _ _ (load_Slice_live _ _ _ L)).
  rewrite (bind_Ret _ _ _ _ _ (load_Slice_live _ _ _ L')).
  rewrite Hh. unfold int_add, checked, bind, pure, undefined. simpl.
  repeat match goal with
         | |- context [if ?c then _ else _] => destruct c
         end; try reflexivity; now apply read_frame.
Qed.

Lemma wf_elem h s st i :
  wf_slice h s st -> 0 <= i < len st -> exists v, elem h s i = Some v.
Proof.
  intros (L & Hlen & Hcap & HE & Hoff & bb & d & Hh & Hb & Hsz) Hi.
  assert (i * elSize st + elSize st <= cap st * elSize st) by nia.
  rewrite (elem_eq h s st bb i) by (auto; try lia; nia).
  rewrite (read_Raw _ _ _ _ d) by (auto; try lia; nia). eauto.
Qed.

(** ** Appending: [SliceAppend] *)

Lemma SliceAppend_unfold s dat :
  SliceAppend s dat =
  let* st := load_Slice s in
  let* grown :=
    (if len st =? cap st then
       let* new := realloc (head st)
                     (uint_mul (uint_mul (uint_add (to_uint (cap st)) (elSize st))
                                         (elSize st)) 2) in
       if is_null new then pure None
       else
         let* c1 := int_add (cap st) 1 in
         let* c2 := int_mul c1 2 in
         let st' := mkSlice new (len st) c2 (elSize st) in
         let* _ := store_Slice s st' in
         pure (Some st')
     else pure (Some st)) in
  match grown with
  | None => pure NULL
  | Some st => append_tail s dat st
  end.
Proof. reflexivity. Qed.

(** The second half of [SliceAppend] on a slice whose buffer is [d]. *)
Lemma append_tail_eq g sb bb st d dat :
  objs g !! sb = Some (Struct st) -> head st = Ptr bb 0 ->
  objs g !! bb = Some (Raw d) ->
  0 <= len st < int_max -> 0 <= elSize st -> len st * elSize st <= uint_max ->
  append_tail (Ptr sb 0) dat st g =
    match read g dat (elSize st) with
    | None => Undefined
    | Some v =>
        if overlap (Ptr bb (len st * elSize st)) dat (elSize st) then Undefined
        else if in_bounds d (len st * elSize st) (elSize st) then
          Ret (Ptr sb 0)
              (mkHeap (<[sb := Struct (bump st)]>
                         (<[bb := Raw (splice d v (Z.to_nat (len st * elSize st)))]>
                            (objs g)))
                      (oracle g))
        else Undefined
    end.
Proof.
  intros Hs Hh Hb Hlen HE Hoff. unfold append_tail.
  rewrite Hh, uint_mul_small by lia. simpl ptr_add.
  unfold bind at 1. unfold pure at 1. unfold memcpy.
  unfold bind at 1. unfold bind at 1.
  rewrite load_bytes_read.
  destruct (read g dat (elSize st)) as [v|] eqn:Er; [|reflexivity].
  destruct (read_length _ _ _ _ Er) as [Hv _].
  destruct (overlap (Ptr bb (0 + len st * elSize st)) dat (elSize st)) eqn:Eo;
    rewrite Z.add_0_l in Eo; rewrite Eo; [reflexivity|].
  unfold store_bytes. rewrite Z.add_0_l, Hb, Hv.
  destruct (in_bounds d (len st * elSize st) (elSize st)) eqn:Eb; [|reflexivity].
  unfold int_add. unfold bind at 1.
  rewrite checked_in by (unfold in_int, int_min, int_max in *; lia).
  unfold bind, store_Slice, pure. simpl.
  assert (sb <> bb) by (intros ->; congruence).
  rewrite list_lookup_insert_ne by auto. rewrite Hs. unfold bump. rewrite Hh.
  reflexivity.
Qed.

Lemma SliceAppend_nogrow h sb st dat :
  objs h !! sb = Some (Struct st) -> len st <> cap st ->
  SliceAppend (Ptr sb 0) dat h = append_tail (Ptr sb 0) dat st h.
Proof.
  intros Hs Hne. rewrite SliceAppend_unfold.
  unfold bind at 1. unfold load_Slice. simpl. rewrite Hs.
  rewrite (proj2 (Z.eqb_neq _ _) Hne). reflexivity.
Qed.

Lemma SliceAppend_grow h sb bb st d dat :
  objs h !! sb = Some (Struct st) -> len st = cap st ->
  head st = Ptr bb 0 -> objs h !! bb = Some (Raw d) ->
  SliceAppend (Ptr sb 0) dat h =
    if answer h then
      if in_intb (cap st + 1) && in_intb ((cap st + 1) * 2) then
        append_tail (Ptr sb 0) dat (grown st (Ptr (length (objs h)) 0))
          (mkHeap (<[sb := Struct (grown st (Ptr (length (objs h)) 0))]>
                     (<[bb := Freed]>
                        (objs h ++ [Raw (resize (Z.to_nat (grow_bytes st)) Undef d)])))
                  (tl (oracle h)))
      else Undefined
    else Ret NULL (asked h).
Proof.
  intros Hs Hne Hh Hb. rewrite SliceAppend_unfold.
  assert (Hsb : (sb < length (objs h))%nat) by (eapply lookup_lt_Some; eauto).
  assert (Hbb : (bb < length (objs h))%nat) by (eapply lookup_lt_Some; eauto).
  assert (Hd : sb <> bb) by (intros ->; congruence).
  unfold bind at 1. unfold load_Slice. simpl. rewrite Hs.
  rewrite (proj2 (Z.eqb_eq _ _) Hne).
  unfold bind at 1. unfold bind at 1. rewrite Hh. unfold realloc.
  unfold bind at 1. unfold load_raw. simpl. rewrite Hb.
  unfold bind at 1. rewrite next_alloc_eq.
  destruct (answer h); [|reflexivity].
  unfold bind at 1. unfold alloc_obj. simpl.
  unfold bind at 1. unfold free. simpl.
  rewrite lookup_app_l, Hb by auto.
  unfold pure at 1. simpl.
  unfold int_add, int_mul, checked.
  unfold bind at 1.
  destruct (in_intb (cap st + 1)); [|reflexivity].
  unfold pure at 1. unfold bind at 1.
  destruct (in_intb ((cap st + 1) * 2)); [|reflexivity].
  unfold pure at 1. unfold bind at 1. unfold store_Slice. simpl.
  rewrite list_lookup_insert_ne, lookup_app_l, Hs by auto.
  unfold pure at 1. simpl. fold (grow_bytes st). reflexivity.
Qed.

(** The heap that the second half of [SliceAppend] leaves behind. *)
Lemma appended_elems g sb bb st d v :
  objs g !! sb = Some (Struct st) -> head st = Ptr bb 0 ->
  objs g !! bb = Some (Raw d) ->
  0 <= len st < int_max -> Z.of_nat (length v) = elSize st ->
  len st * elSize st + elSize st <= Z.of_nat (length d) ->
  len st * elSize st <= uint_max ->
  let g' := mkHeap (<[sb := Struct (bump st)]>
                      (<[bb := Raw (splice d v (Z.to_nat (len st * elSize st)))]>
                         (objs g)))
                   (oracle g) in
  live_slice g' (Ptr sb 0) (bump st) /\
  elem g' (Ptr sb 0) (len st) = Some v /\
  (forall j, 0 <= j < len st ->
     elem g' (Ptr sb 0) j =
     Some (take (Z.to_nat (elSize st)) (drop (Z.to_nat (j * elSize st)) d))).
Proof.
  intros Hs Hh Hb Hlen Hlv Hin Hoff g'.
  assert (HE : 0 <= elSize st) by lia.
  assert (Hsb : (sb < length (objs g))%nat) by (eapply lookup_lt_Some; eauto).
  assert (Hbb : (bb < length (objs g))%nat) by (eapply lookup_lt_Some; eauto).
  assert (Hd : sb <> bb) by (intros ->; congruence).
  set (d' := splice d v (Z.to_nat (len st * elSize st))) in *.
  assert (Hs' : objs g' !! sb = Some (Struct (bump st))).
  { unfold g'. simpl. apply list_lookup_insert_eq. now rewrite length_insert. }
  assert (Hb' : objs g' !! bb = Some (Raw d')).
  { unfold g'. simpl. rewrite list_lookup_insert_ne by auto.
    now apply list_lookup_insert_eq. }
  assert (Hld' : length d' = length d).
  { unfold d'. apply splice_length. nia. }
  assert (L' : live_slice g' (Ptr sb 0) (bump st)) by (exists sb; auto).
  assert (Hel : forall j, 0 <= j <= len st ->
            elem g' (Ptr sb 0) j =
            read g' (Ptr bb (j * elSize st)) (elSize st)).
  { intros j Hj. apply (elem_eq g' _ (bump st) bb); simpl; auto;
      unfold int_max in *; try lia; nia. }
  split; [exact L'|]. split.
  - rewrite Hel by lia.
    rewrite (read_Raw _ _ _ _ d') by (auto; try lia; nia).
    unfold d'. rewrite <- Hlv at 1. rewrite Nat2Z.id.
    apply f_equal, splice_same. nia.
  - intros j Hj. rewrite Hel by lia.
    rewrite (read_Raw _ _ _ _ d') by (auto; try lia; nia).
    unfold d'. apply f_equal, splice_before; nia.
Qed.

Lemma append_tail_Ret g sb bb st d dat v p g' :
  objs g !! sb = Some (Struct st) -> head st = Ptr bb 0 ->
  objs g !! bb = Some (Raw d) ->
  0 <= len st < int_max -> 0 <= elSize st -> len st * elSize st <= uint_max ->
  read g dat (elSize st) = Some v ->
  append_tail (Ptr sb 0) dat st g = Ret p g' ->
  p = Ptr sb 0 /\
  len st * elSize st + elSize st <= Z.of_nat (length d) /\
  live_slice g' (Ptr sb 0) (bump st) /\
  elem g' (Ptr sb 0) (len st) = Some v /\
  (forall j, 0 <= j < len st ->
     elem g' (Ptr sb 0) j =
     Some (take (Z.to_nat (elSize st)) (drop (Z.to_nat (j * elSize st)) d))).
Proof.
  intros Hs Hh Hb Hlen HE Hoff Hv.
  rewrite (append_tail_eq g sb bb st d dat Hs Hh Hb Hlen HE Hoff), Hv.
  destruct (overlap _ _ _); [discriminate|].
  destruct (in_bounds _ _ _) eqn:Eb; [|discriminate].
  apply in_bounds_true in Eb. intros [= <- <-]. split; [reflexivity|].
  split; [lia|].
  destruct (read_length _ _ _ _ Hv) as [Hlv _].
  apply appended_elems; auto; lia.
Qed.

(** [SliceAppend] on a slice that has room left. *)
Lemma SliceAppend_room h s st dat v :
  wf_slice h s st -> len st < cap st ->
  read h dat (elSize st) = Some v ->
  (forall b o, dat = Ptr b o -> head st <> Ptr b 0) ->
  exists h',
    SliceAppend s dat h = Ret s h' /\
    wf_slice h' s (bump st) /\
    elem h' s (len st) = Some v /\
    (forall j, 0 <= j < len st -> elem h' s j = elem h s j) /\
    (forall b, s <> Ptr b 0 -> head st <> Ptr b 0 -> objs h' !! b = objs h !! b) /\
    oracle h' = oracle h /\ length (objs h') = length (objs h).
Proof.
  intros (L & Hlen & Hcap & HE & Hoff & bb & d & Hh & Hb & Hsz) Hroom Hv Hdat.
  destruct L as (sb & -> & Hs).
  assert (Hsb : (sb < length (objs h))%nat) by (eapply lookup_lt_Some; eauto).
  assert (Hbb : (bb < length (objs h))%nat) by (eapply lookup_lt_Some; eauto).
  assert (Hd : sb <> bb) by (intros ->; congruence).
  assert (Hin : len st * elSize st + elSize st <= cap st * elSize st) by nia.
  destruct (read_length _ _ _ _ Hv) as [Hlv _].
  rewrite (SliceAppend_nogrow h sb st dat Hs) by lia.
  rewrite (append_tail_eq h sb bb st d dat Hs Hh Hb)
    by (unfold int_max in *; try lia; nia).
  rewrite Hv.
  assert (Eo : overlap (Ptr bb (len st * elSize st)) dat (elSize st) = false).
  { destruct dat as [|b o]; [reflexivity|]. simpl.
    destruct (Nat.eqb_spec bb b) as [->|]; [|reflexivity].
    exfalso. apply (Hdat b o); auto. }
  rewrite Eo, (proj2 (in_bounds_true _ _ _)) by (repeat split; try lia; nia).
  eexists. split; [reflexivity|].
  set (d' := splice d v (Z.to_nat (len st * elSize st))).
  set (h' := mkHeap _ _).
  assert (Hs' : objs h' !! sb = Some (Struct (bump st))).
  { unfold h'. simpl. apply list_lookup_insert_eq. now rewrite length_insert. }
  assert (Hb' : objs h' !! bb = Some (Raw d')).
  { unfold h'. simpl. rewrite list_lookup_insert_ne by auto.
    now apply list_lookup_insert_eq. }
  assert (Hld' : length d' = length d).
  { unfold d'. apply splice_length. nia. }
  assert (L' : live_slice h' (Ptr sb 0) (bump st)) by (exists sb; auto).
  assert (Hel : forall j, 0 <= j <= len st ->
            elem h' (Ptr sb 0) j =
            read h' (Ptr bb (j * elSize st)) (elSize st)).
  { intros j Hj. apply (elem_eq h' _ (bump st) bb); simpl; auto;
      unfold int_max in *; try lia; nia. }
  repeat split.
  - exact L'.
  - simpl; lia.
  - simpl; lia.
  - simpl; lia.
  - simpl; lia.
  - simpl; lia.
  - simpl; lia.
  - simpl. exists bb, d'. rewrite Hld'. auto.
  - rewrite Hel by lia.
    rewrite (read_Raw _ _ _ _ d') by (auto; try lia; nia).
    unfold d'. rewrite <- Hlv at 1. rewrite Nat2Z.id.
    apply f_equal, splice_same. nia.
  - intros j Hj. rewrite Hel by lia.
    rewrite (elem_eq h (Ptr sb 0) st bb j)
      by (try (exists sb; auto); auto; unfold int_max in *; try lia; nia).
    rewrite (read_Raw _ _ _ _ d') by (auto; try lia; nia).
    rewrite (read_Raw _ _ _ _ d) by (auto; try lia; nia).
    unfold d'. apply f_equal, splice_before; nia.
  - intros b Hn1 Hn2. unfold h'. simpl.
    rewrite !list_lookup_insert_ne; auto; congruence.
  - unfold h'. simpl. now rewrite !length_insert.
Qed.

(** [SliceAppend] touches the struct and the buffer of its slice only. *)
Lemma SliceAppend_frame h r rst dat p h' :
  wf_slice h r rst -> SliceAppend r dat h = Ret p h' ->
  forall b, (b < length (objs h))%nat -> r <> Ptr b 0 -> head rst <> Ptr b 0 ->
  objs h' !! b = objs h !! b.
Proof.
  intros (L & Hlen & Hcap & HE & Hoff & bb & d & Hh & Hb & Hsz) Hrun b Hb' Hn1 Hn2.
  destruct L as (sb & -> & Hs).
  assert (Hsb : b <> sb) by congruence.
  assert (Hbb : b <> bb) by congruence.
  destruct (Z.eq_dec (len rst) (cap rst)) as [Hfull|Hroom].
  - rewrite (SliceAppend_grow h sb bb rst d dat Hs Hfull Hh Hb) in Hrun.
    destruct (answer h); [|injection Hrun as <- <-; reflexivity].
    destruct (in_intb (cap rst + 1) && in_intb ((cap rst + 1) * 2)) eqn:Ei;
      [|discriminate].
    apply andb_true_iff in Ei as [Ei1 _].
    unfold in_intb in Ei1. apply andb_true_iff in Ei1 as [_ Ei1].
    apply Z.leb_le in Ei1.
    set (nb := length (objs h)) in *.
    set (d2 := resize (Z.to_nat (grow_bytes rst)) Undef d) in *.
    set (h2 := mkHeap _ _) in Hrun.
    assert (Hlsb : (sb < nb)%nat) by (eapply lookup_lt_Some; eauto).
    assert (Hs2 : objs h2 !! sb = Some (Struct (grown rst (Ptr nb 0)))).
    { unfold h2. simpl. apply list_lookup_insert_eq.
      rewrite length_insert, length_app. lia. }
    assert (Hb2 : objs h2 !! nb = Some (Raw d2)).
    { unfold h2. simpl. rewrite !list_lookup_insert_ne
        by (try lia; intros ->; apply lookup_lt_Some in Hb; lia).
      rewrite lookup_app_r by (unfold nb; lia).
      now replace (nb - length (objs h))%nat with 0%nat by (unfold nb; lia). }
    rewrite (append_tail_eq h2 sb nb _ d2 dat Hs2 eq_refl Hb2) in Hrun
      by (cbn [grown len cap elSize]; unfold int_max in *; try lia; nia).
    cbn [grown len cap elSize] in Hrun.
    destruct (read h2 dat (elSize rst)); [|discriminate].
    destruct (overlap _ _ _); [discriminate|].
    destruct (in_bounds _ _ _); [|discriminate].
    injection Hrun as <- <-. cbn [objs h2].
    rewrite !list_lookup_insert_ne by lia. now apply lookup_app_l.
  - rewrite (SliceAppend_nogrow h sb rst dat Hs Hroom) in Hrun.
    rewrite (append_tail_eq h sb bb rst d dat Hs Hh Hb) in Hrun
      by (unfold int_max in *; try lia; nia).
    destruct (read h dat (elSize rst)); [|discriminate].
    destruct (overlap _ _ _); [discriminate|].
    destruct (in_bounds _ _ _); [|discriminate].
    injection Hrun as <- <-. cbn [objs].
    now rewrite !list_lookup_insert_ne by lia.
Qed.

(** Inside the data model of [wf_slice], where every offset into the buffer
    fits an [unsigned int], a successful [SliceAppend(s, dat)] adds one to
    [len], makes [SliceGet(s, len-1)] (with the new [len]) address the bytes
    [v] that [dat] pointed to, and leaves every element stored before
    unchanged at its index. *)
Theorem SliceAppend_success h s st dat v p h' :
  wf_slice h s st ->
  read h dat (elSize st) = Some v ->
  SliceAppend s dat h = Ret p h' -> p <> NULL ->
  p = s /\
  exists st', live_slice h' s st' /\
    len st' = len st + 1 /\
    elem h' s (len st' - 1) = Some v /\
    (forall j, 0 <= j < len st ->
       exists x, elem h s j = Some x /\ elem h' s j = Some x).
Proof.
  intros W Hv Hrun Hp.
  pose proof W as (L & Hlen & Hcap & HE & Hoff & bb & d & Hh & Hb & Hsz).
  destruct L as (sb & -> & Hs).
  assert (Hold : forall j, 0 <= j < len st ->
            elem h (Ptr sb 0) j =
            Some (take (Z.to_nat (elSize st)) (drop (Z.to_nat (j * elSize st)) d))).
  { intros j Hj.
    rewrite (elem_eq h (Ptr sb 0) st bb j)
      by (try (exists sb; auto); auto; unfold int_max in *; try lia; nia).
    apply read_Raw; auto; try lia; nia. }
  destruct (Z.eq_dec (len st) (cap st)) as [Hfull|Hroom].
  - rewrite (SliceAppend_grow h sb bb st d dat Hs Hfull Hh Hb) in Hrun.
    destruct (answer h); [|inversion Hrun; congruence].
    destruct (in_intb (cap st + 1) && in_intb ((cap st + 1) * 2)) eqn:Ei;
      [|discriminate].
    apply andb_true_iff in Ei as [Ei1 Ei2].
    unfold in_intb in Ei1, Ei2. apply andb_true_iff in Ei1 as [_ Ei1].
    apply andb_true_iff in Ei2 as [_ Ei2]. apply Z.leb_le in Ei1, Ei2.
    assert (Hsb : (sb < length (objs h))%nat) by (eapply lookup_lt_Some; eauto).
    assert (Hbb : (bb < length (objs h))%nat) by (eapply lookup_lt_Some; eauto).
    assert (Hd : sb <> bb) by (intros ->; congruence).
    set (nb := length (objs h)) in *.
    set (d2 := resize (Z.to_nat (grow_bytes st)) Undef d) in *.
    set (h2 := mkHeap _ _) in Hrun.
    assert (Hs2 : objs h2 !! sb = Some (Struct (grown st (Ptr nb 0)))).
    { unfold h2. simpl. apply list_lookup_insert_eq.
      rewrite length_insert, length_app. lia. }
    assert (Hb2 : objs h2 !! nb = Some (Raw d2)).
    { unfold h2. simpl. rewrite !list_lookup_insert_ne by lia.
      rewrite lookup_app_r by (unfold nb; lia).
      now replace (nb - length (objs h))%nat with 0%nat by (unfold nb; lia). }
    assert (Hv2 : read h2 dat (elSize st) = Some v \/
                  read h2 dat (elSize st) = None).
    { destruct dat as [|b o]; [discriminate|].
      destruct (Nat.eq_dec b bb) as [->|Hne].
      - right. rewrite read_Ptr. unfold h2. simpl.
        rewrite list_lookup_insert_ne by auto.
        rewrite list_lookup_insert_eq by (rewrite length_app; lia). reflexivity.
      - left. rewrite <- Hv. apply read_frame.
        rewrite read_Ptr in Hv.
        destruct (objs h !! b) as [[| db | |]|] eqn:Eb; try discriminate.
        assert (b <> sb) by (intros ->; congruence).
        assert ((b < length (objs h))%nat) by (eapply lookup_lt_Some; eauto).
        unfold h2. simpl. rewrite !list_lookup_insert_ne by auto.
        now rewrite lookup_app_l. }
    destruct Hv2 as [Hv2|Hv2].
    + assert (Hld2 : length d2 = Z.to_nat (grow_bytes st))
        by (unfold d2; apply length_resize).
      destruct (append_tail_Ret h2 sb nb _ d2 dat v p h' Hs2 eq_refl Hb2)
        as (-> & Ebd & L' & Hnew & Hkeep); simpl; auto;
        try (unfold int_max in *; lia); try nia.
      split; [reflexivity|].
      exists (bump (grown st (Ptr nb 0))). simpl in *.
      split; [exact L'|]. split; [reflexivity|]. split.
      * now replace (len st + 1 - 1) with (len st) by lia.
      * intros j Hj. eexists. split; [apply Hold; lia|].
        rewrite Hkeep by lia. f_equal.
        unfold d2. apply resize_prefix; nia.
    + rewrite (append_tail_eq h2 sb nb _ d2 dat Hs2 eq_refl Hb2) in Hrun
        by (simpl; unfold int_max in *; try lia; nia).
      cbn [grown elSize] in Hrun. rewrite Hv2 in Hrun. discriminate.
  - rewrite (SliceAppend_nogrow h sb st dat Hs Hroom) in Hrun.
    destruct (append_tail_Ret h sb bb st d dat v p h' Hs Hh Hb)
      as (-> & _ & L' & Hnew & Hkeep); auto;
      try (unfold int_max in *; lia); try nia.
    split; [reflexivity|].
    exists (bump st). simpl.
    split; [exact L'|]. split; [reflexivity|]. split.
    + now replace (len st + 1 - 1) with (len st) by lia.
    + intros j Hj. eexists. split; [apply Hold; lia|]. apply Hkeep; lia.
Qed.

Lemma SliceAppend_success_witness :
  exists st', live_slice
      (mkHeap [Raw bytes789; Struct (mkSlice (Ptr 2 0) 4 4 1);
               Raw (bytes789 ++ [MByte x08])] [])
      (Ptr 1 0) st' /\ len st' = 4.
Proof.
  destruct (SliceAppend_success ex_heap (Ptr 1 0) ex_slice (Ptr 0 1)
              [MByte x08] (Ptr 1 0)
              (mkHeap [Raw bytes789; Struct (mkSlice (Ptr 2 0) 4 4 1);
                       Raw (bytes789 ++ [MByte x08])] []))
    as (_ & st' & L & Hl & _).
  - exact ex_wf.
  - reflexivity.
  - reflexivity.
  - discriminate.
  - exists st'. split; [exact L|]. exact Hl.
Defined.

(** ** Offsets beyond [unsigned int] *)

(** [SliceAppend] on a slice with room left, whatever the size of its
    buffer: the element goes to the offset that the code computes. *)
Lemma SliceAppend_at h sb bb st d dat v :
  objs h !! sb = Some (Struct st) -> head st = Ptr bb 0 ->
  objs h !! bb = Some (Raw d) ->
  0 <= len st < cap st -> cap st <= int_max ->
  read h dat (elSize st) = Some v ->
  overlap (Ptr bb (offset st (len st))) dat (elSize st) = false ->
  0 <= offset st (len st) ->
  offset st (len st) + elSize st <= Z.of_nat (length d) ->
  SliceAppend (Ptr sb 0) dat h =
    Ret (Ptr sb 0)
        (mkHeap (<[sb := Struct (bump st)]>
                   (<[bb := Raw (splice d v (Z.to_nat (offset st (len st))))]>
                      (objs h)))
                (oracle h)).
Proof.
  intros Hs Hh Hb Hlen Hcap Er Eo Ho Hsz.
  rewrite (SliceAppend_nogrow h sb st dat Hs) by lia.
  unfold append_tail. fold (offset st (len st)).
  rewrite Hh. simpl ptr_add.
  unfold bind at 1. unfold pure at 1. unfold memcpy.
  unfold bind at 1. unfold bind at 1.
  rewrite load_bytes_read, Er.
  destruct (read_length _ _ _ _ Er) as [Hv HE].
  rewrite Z.add_0_l, Eo.
  unfold store_bytes. rewrite Hb, Hv.
  rewrite (proj2 (in_bounds_true d _ _)) by lia.
  unfold int_add. unfold bind at 1.
  rewrite checked_in by (unfold in_int, int_min, int_max in *; lia).
  unfold bind, store_Slice, pure. simpl.
  assert (sb <> bb) by (intros ->; congruence).
  rewrite list_lookup_insert_ne by auto. rewrite Hs. unfold bump. rewrite Hh.
  reflexivity.
Qed.

(** When the offset of the free slot wraps onto the offset of a stored
    element [i], a successful append replaces that element. *)
Lemma SliceAppend_onto h sb bb st d dat v i :
  objs h !! sb = Some (Struct st) -> head st = Ptr bb 0 ->
  objs h !! bb = Some (Raw d) ->
  0 <= len st < cap st -> cap st <= int_max ->
  read h dat (elSize st) = Some v ->
  overlap (Ptr bb (offset st (len st))) dat (elSize st) = false ->
  0 <= offset st (len st) ->
  offset st (len st) + elSize st <= Z.of_nat (length d) ->
  0 <= i < len st -> offset st i = offset st (len st) ->
  exists h',
    SliceAppend (Ptr sb 0) dat h = Ret (Ptr sb 0) h' /\
    live_slice h' (Ptr sb 0) (bump st) /\
    elem h (Ptr sb 0) i
      = Some (take (Z.to_nat (elSize st)) (drop (Z.to_nat (offset st i)) d)) /\
    elem h' (Ptr sb 0) i = Some v /\
    elem h' (Ptr sb 0) (len st) = Some v.
Proof.
  intros Hs Hh Hb Hlen Hcap Er Eo Ho Hsz Hi Hoff.
  destruct (read_length _ _ _ _ Er) as [Hv HE].
  assert (Hsb : (sb < length (objs h))%nat) by (eapply lookup_lt_Some; eauto).
  assert (Hbb : (bb < length (objs h))%nat) by (eapply lookup_lt_Some; eauto).
  assert (Hd : sb <> bb) by (intros ->; congruence).
  eexists. split; [now apply (SliceAppend_at h sb bb st d dat v)|].
  set (o := offset st (len st)) in *.
  set (h' := mkHeap _ _).
  assert (Hs' : objs h' !! sb = Some (Struct (bump st))).
  { unfold h'. simpl. apply list_lookup_insert_eq. now rewrite length_insert. }
  assert (Hb' : objs h' !! bb = Some (Raw (splice d v (Z.to_nat o)))).
  { unfold h'. simpl. rewrite list_lookup_insert_ne by auto.
    now apply list_lookup_insert_eq. }
  assert (L : live_slice h (Ptr sb 0) st) by (exists sb; auto).
  assert (L' : live_slice h' (Ptr sb 0) (bump st)) by (exists sb; auto).
  assert (Hnew : read h' (Ptr bb o) (elSize st) = Some v).
  { rewrite (read_Raw h' bb o (elSize st) _ Hb'); try lia.
    - f_equal. rewrite <- Hv, Nat2Z.id. apply splice_same. lia.
    - rewrite splice_length by lia. lia. }
  split; [exact L'|]. split.
  { rewrite (elem_at h (Ptr sb 0) st bb i L Hh) by lia.
    rewrite Hoff. fold o. apply read_Raw; auto; lia. }
  split.
  { rewrite (elem_at h' (Ptr sb 0) (bump st) bb i L' Hh) by (simpl; lia).
    change (elSize (bump st)) with (elSize st).
    change (offset (bump st) i) with (offset st i). rewrite Hoff. exact Hnew. }
  rewrite (elem_at h' (Ptr sb 0) (bump st) bb (len st) L' Hh) by (simpl; lia).
  exact Hnew.
Qed.

Lemma wide_offsets :
  offset wide_slice 0 = 0 /\ offset wide_slice (len wide_slice) = 0.
Proof. split; reflexivity. Qed.

(** C7 fails on the code.  [NewSlice(8, 536870922)] makes a buffer of
    4294967376 bytes; once the slice holds [2^29] elements, the offset
    [s->len*s->elSize] of the free slot is [2^32] and wraps to [0] in
    [unsigned int]: the append returns [s] and has written over element [0],
    which held eight zero bytes before and holds the appended bytes after. *)
Theorem SliceAppend_overwrites_element :
  0 <= len wide_slice < cap wide_slice /\ cap wide_slice <= int_max /\
  (exists d, objs wide_heap !! 2%nat = Some (Raw d) /\
             Z.of_nat (length d) = cap wide_slice * elSize wide_slice) /\
  len wide_slice * elSize wide_slice = uint_max + 1 /\
  exists h',
    SliceAppend (Ptr 1 0) (Ptr 0 0) wide_heap = Ret (Ptr 1 0) h' /\
    live_slice h' (Ptr 1 0) (bump wide_slice) /\
    elem wide_heap (Ptr 1 0) 0 = Some (replicate 8 (MByte x00)) /\
    elem h' (Ptr 1 0) 0 = Some (replicate 8 (MByte x01)).
Proof.
  destruct wide_offsets as [O0 Ol].
  split; [unfold wide_slice; simpl; lia|].
  split; [unfold wide_slice, int_max; simpl; lia|].
  split.
  { eexists. split; [reflexivity|].
    rewrite length_replicate, Z2Nat.id by lia. reflexivity. }
  split; [reflexivity|].
  destruct (SliceAppend_onto wide_heap 1 2 wide_slice
              (replicate (Z.to_nat 4294967376) (MByte x00)) (Ptr 0 0)
              (replicate 8 (MByte x01)) 0)
    as (h' & Hrun & L' & Hold & Hnew & _).
  - reflexivity.
  - reflexivity.
  - reflexivity.
  - unfold wide_slice; simpl; lia.
  - unfold wide_slice, int_max; simpl; lia.
  - reflexivity.
  - reflexivity.
  - rewrite Ol. lia.
  - rewrite Ol, length_replicate, Z2Nat.id by lia.
    change (elSize wide_slice) with 8. lia.
  - unfold wide_slice; simpl; lia.
  - now rewrite O0, Ol.
  - exists h'. split; [exact Hrun|]. split; [exact L'|].
    split; [|exact Hnew].
    rewrite Hold, O0. change (elSize wide_slice) with 8.
    change (Z.to_nat 8) with 8%nat. change (Z.to_nat 0) with 0%nat.
    rewrite drop_0, take_replicate, Nat.min_l by lia. reflexivity.
Qed.

(** ** Growth of the buffer *)




(** C10 fails on the code: for a slice made by [NewSlice(46341, 0)] the
    growth asks for (0 + 46341) * 46341 * 2 - 2^32 = 9266 bytes, fewer than
    the 92682 bytes of the new capacity 2 and fewer than one element; the
    [memcpy] of [SliceAppend] then writes past the end of the buffer. *)
Theorem SliceAppend_underallocates :
  let h := caller_heap 46341 [] in
  let st := mkSlice (Ptr 2 0) 0 0 46341 in
  value_of ((let* s := NewSlice 46341 0 in load_Slice s) h) = Some st /\
  grow_bytes st = 9266 /\
  (cap st + 1) * 2 * elSize st = 92682 /\
  (fun v => Z.of_nat (length v)) <$> read h (Ptr 0 0) (elSize st) = Some 46341 /\
  new_then_append 46341 (Ptr 0 0) pure h = Undefined.
Proof.
  cbv zeta.
  split; [vm_compute; reflexivity|].
  split; [vm_compute; reflexivity|].
  split; [reflexivity|].
  split; vm_compute; reflexivity.
Qed.

(** ** Sub-ranges: [SliceSlice] *)

Lemma NewSlice_ok h E c :
  answer h = true -> answer (asked h) = true -> 0 <= c <= int_max ->
  NewSlice E c h = Ret (Ptr (length (objs h)) 0) (with_new_slice h E c).
Proof.
  intros A1 A2 Hc. unfold NewSlice, malloc_Slice.
  unfold bind at 1. unfold bind at 1. rewrite next_alloc_eq, A1.
  unfold alloc_obj at 1. cbn [objs asked oracle is_null].
  rewrite (proj2 (Z.ltb_ge c 0)) by lia. cbn [orb].
  unfold calloc. unfold bind at 1. unfold bind at 1.
  rewrite next_alloc_eq.
  change (answer _) with (answer (asked h)). rewrite A2.
  unfold alloc_obj. cbn [objs asked oracle is_null].
  unfold bind, store_Slice, pure. cbn [objs oracle].
  rewrite Z.eqb_refl.
  rewrite lookup_app_l by (rewrite length_app; simpl; lia).
  rewrite lookup_app_r by lia. rewrite Nat.sub_diag. cbn [lookup list_lookup].
  rewrite to_uint_small by (unfold int_max, uint_max in *; lia).
  unfold with_new_slice. f_equal. f_equal.
  rewrite <- (app_assoc (objs h) [Fresh]), length_app. cbn [length app].
  rewrite <- (Nat.add_0_r (length (objs h))) at 1.
  rewrite insert_app_r. cbn [insert list_insert]. repeat f_equal. lia.
Qed.

Lemma NewSlice_cases h E c :
  0 <= c <= int_max ->
  NewSlice E c h =
    if answer h then
      if answer (asked h)
      then Ret (Ptr (length (objs h)) 0) (with_new_slice h E c)
      else Ret NULL (with_lost_struct h)
    else Ret NULL (asked h).
Proof.
  intros Hc. destruct (answer h) eqn:A1.
  - destruct (answer (asked h)) eqn:A2; [now apply NewSlice_ok|].
    unfold NewSlice, malloc_Slice.
    unfold bind at 1. unfold bind at 1. rewrite next_alloc_eq, A1.
    unfold alloc_obj at 1. cbn [objs asked oracle is_null].
    rewrite (proj2 (Z.ltb_ge c 0)) by lia. cbn [orb].
    unfold calloc. unfold bind at 1. unfold bind at 1.
    rewrite next_alloc_eq.
    change (answer _) with (answer (asked h)). rewrite A2.
    unfold pure at 1. cbn [is_null].
    unfold bind, free, pure. cbn [objs asked oracle]. rewrite Z.eqb_refl.
    rewrite lookup_app_r by lia. rewrite Nat.sub_diag. cbn [lookup list_lookup].
    unfold with_lost_struct. do 2 f_equal.
    rewrite <- (Nat.add_0_r (length (objs h))) at 1.
    rewrite insert_app_r. reflexivity.
  - unfold NewSlice, malloc_Slice.
    unfold bind at 1. unfold bind at 1. rewrite next_alloc_eq, A1.
    unfold pure at 1. cbn [is_null]. rewrite orb_true_r. reflexivity.
Qed.


(** [SliceSlice] up to its copy loop. *)
Lemma SliceSlice_eq fuel h s st i1 i2 step :
  live_slice h s st -> 0 <= len st <= int_max ->
  in_int i1 -> in_int i2 ->
  SliceSlice fuel s i1 i2 step h =
    if rejectedb st i1 i2 step then Ret NULL h
    else
      (let* ret := NewSlice (elSize st) (norm_end st i2 - norm_start st i1) in
       if is_null ret then pure NULL
       else if 0 <? step
            then copy_up fuel s ret (norm_start st i1) (norm_end st i2) step
            else copy_down fuel s ret (norm_end st i2 - 1) (norm_start st i1) step) h.
Proof.
  intros L Hlen H1 H2. unfold SliceSlice.
  rewrite (bind_Ret _ _ _ _ _ (load_Slice_live _ _ _ L)).
  unfold in_int, int_min, int_max in *.
  unfold rejectedb, norm_start, norm_end.
  destruct (len st <=? i1) eqn:E1.
  { apply Z.leb_le in E1. unfold bind, pure.
    rewrite (proj2 (Z.ltb_ge i1 (len st))) by lia.
    rewrite andb_false_r. cbn [negb]. now rewrite orb_true_r. }
  apply Z.leb_gt in E1. rewrite (proj2 (Z.ltb_lt i1 (len st))) by lia.
  rewrite andb_true_r.
  unfold int_neg. unfold bind at 1. unfold bind at 1.
  rewrite checked_in by (unfold in_int, int_min, int_max; lia).
  unfold pure at 1.
  replace (i1 <? - len st) with (negb (- len st <=? i1))
    by (rewrite Z.leb_antisym, negb_involutive; reflexivity).
  replace (len st <? i2) with (negb (i2 <=? len st))
    by (rewrite Z.leb_antisym, negb_involutive; reflexivity).
  replace (i2 <? - len st) with (negb (- len st <=? i2))
    by (rewrite Z.leb_antisym, negb_involutive; reflexivity).
  destruct (- len st <=? i1) eqn:E2; cbn [negb orb];
    [|now rewrite orb_true_r].
  destruct (i2 <=? len st) eqn:E3; cbn [negb orb andb];
    [|now rewrite andb_false_r, orb_true_r].
  destruct (- len st <=? i2) eqn:E4; cbn [negb orb andb];
    [|now rewrite orb_true_r].
  destruct (step =? 0) eqn:E5; cbn [negb orb andb]; [reflexivity|].
  apply Z.leb_le in E2, E3, E4.
  assert (Hn1 : (if i1 <? 0 then int_add (len st) i1 else pure i1) h =
                Ret (if i1 <? 0 then i1 + len st else i1) h).
  { destruct (i1 <? 0) eqn:E; [|reflexivity].
    apply Z.ltb_lt in E. unfold int_add. rewrite Z.add_comm.
    apply checked_in. unfold in_int, int_min, int_max; lia. }
  rewrite (bind_Ret _ _ _ _ _ Hn1).
  assert (Hn2 : (if i2 <? 0
                 then let* t := int_add (len st) i2 in int_add t 1
                 else pure i2) h =
                Ret (if i2 <? 0 then i2 + len st + 1 else i2) h).
  { destruct (i2 <? 0) eqn:E; [|reflexivity].
    apply Z.ltb_lt in E. unfold int_add.
    rewrite (bind_Ret _ _ _ _ _ (checked_in (len st + i2) h
      ltac:(unfold in_int, int_min, int_max; lia))).
    replace (i2 + len st + 1) with (len st + i2 + 1) by lia.
    apply checked_in. unfold in_int, int_min, int_max; lia. }
  rewrite (bind_Ret _ _ _ _ _ Hn2).
  set (n1 := if i1 <? 0 then i1 + len st else i1).
  set (n2 := if i2 <? 0 then i2 + len st + 1 else i2).
  assert (0 <= n1 < len st) by (unfold n1; destruct (i1 <? 0) eqn:E;
    [apply Z.ltb_lt in E | apply Z.ltb_ge in E]; lia).
  assert (0 <= n2 <= len st) by (unfold n2; destruct (i2 <? 0) eqn:E;
    [apply Z.ltb_lt in E | apply Z.ltb_ge in E]; lia).
  destruct (n2 <=? n1) eqn:E6; [reflexivity|].
  unfold int_sub at 1.
  rewrite (bind_Ret _ _ _ _ _ (checked_in (n2 - n1) h
    ltac:(unfold in_int, int_min, int_max; lia))).
  unfold bind. destruct (NewSlice (elSize st) (n2 - n1) h) as [ret h1| |];
    try reflexivity.
  destruct (is_null ret); [reflexivity|].
  destruct (0 <? step); [reflexivity|].
  unfold int_sub. rewrite checked_in; [reflexivity|].
  unfold in_int, int_min, int_max; lia.
Qed.

Lemma copy_up_loop fuel s ret i i2 step h :
  copy_up fuel s ret i i2 step h =
  copy_loop (fun i => i <? i2) fuel s ret i step h.
Proof.
  revert i h. induction fuel as [|fuel IH]; intros i h; [reflexivity|].
  simpl. destruct (i <? i2); [|reflexivity].
  unfold bind. destruct (SliceGet s i h) as [dat h1| |]; try reflexivity.
  destruct (is_null dat); [reflexivity|].
  destruct (SliceAppend ret dat h1) as [res h2| |]; try reflexivity.
  destruct (is_null res); [reflexivity|].
  destruct (int_add i step h2) as [i' h3| |]; try reflexivity. apply IH.
Qed.

Lemma copy_down_loop fuel s ret i i1 step h :
  copy_down fuel s ret i i1 step h =
  copy_loop (fun i => i1 <=? i) fuel s ret i step h.
Proof.
  revert i h. induction fuel as [|fuel IH]; intros i h; [reflexivity|].
  simpl. destruct (i1 <=? i); [|reflexivity].
  unfold bind. destruct (SliceGet s i h) as [dat h1| |]; try reflexivity.
  destruct (is_null dat); [reflexivity|].
  destruct (SliceAppend ret dat h1) as [res h2| |]; try reflexivity.
  destruct (is_null res); [reflexivity|].
  destruct (int_add i step h2) as [i' h3| |]; try reflexivity. apply IH.
Qed.

(** One round of a copy loop. *)
Lemma copy_step src idx s r st c k h :
  copying src idx s r st c k h -> 0 <= k < c -> 0 <= idx k < len st ->
  exists dat h',
    SliceGet s (idx k) h = Ret dat h /\ is_null dat = false /\
    SliceAppend r dat h = Ret r h' /\ is_null r = false /\
    copying src idx s r st c (k + 1) h' /\
    oracle h' = oracle h /\ length (objs h') = length (objs h).
Proof.
  intros (Ws & Hsrc & rst & Wr & Hk & Hc & HE & Hrs & Hbuf & Hcopied) Hkc Hi.
  pose proof Ws as (Ls & Hlen & Hcap & HEs & Hoff & bb & ds & Hh & Hb & Hsz).
  pose proof Wr as (Lr & Hlenr & Hcapr & HEr & Hoffr & rbuf & dr & Hhr & Hbr & Hszr).
  destruct (wf_elem h s st (idx k) Ws Hi) as [v Hv].
  assert (Hofs : idx k * elSize st <= uint_max) by nia.
  pose proof Hv as Hrd.
  rewrite (elem_eq h s st bb (idx k)) in Hrd by (auto; lia).
  exists (Ptr bb (idx k * elSize st)).
  destruct (SliceAppend_room h r rst (Ptr bb (idx k * elSize st)) v)
    as (h' & Happ & Wr' & Hnew & Hkeep & Hframe & Hor & Hlenobjs); auto.
  { lia. }
  { now rewrite HE. }
  { intros b o [= <- <-]. congruence. }
  exists h'.
  destruct Ls as (sb & -> & Hs). destruct Lr as (rb & -> & Hr).
  assert (Hsb : objs h' !! sb = objs h !! sb).
  { apply Hframe; [congruence|]. rewrite Hhr. intros [= ->]. congruence. }
  assert (Hbb : objs h' !! bb = objs h !! bb).
  { apply Hframe; [intros [= ->]; congruence|]. congruence. }
  assert (Ls' : live_slice h' (Ptr sb 0) st) by (exists sb; rewrite Hsb; auto).
  split.
  { rewrite (SliceGet_spec h (Ptr sb 0) st (idx k))
      by (try (exists sb; auto); unfold in_int, int_min, int_max in *; lia).
    unfold resolve. rewrite !(proj2 (Z.leb_le 0 (idx k))) by lia.
    rewrite (proj2 (Z.ltb_lt (idx k) (len st))) by lia. simpl.
    rewrite Hh. simpl. rewrite uint_mul_small by lia. reflexivity. }
  split; [reflexivity|]. split; [exact Happ|]. split; [reflexivity|].
  split; [|auto].
  split.
  { split; [exact Ls'|]. repeat (split; [lia|]).
    exists bb, ds. rewrite Hbb. auto. }
  split.
  { intros j Hj. rewrite <- Hsrc by auto.
    apply (elem_frame h h' (Ptr sb 0) st bb); auto. exists sb; auto. }
  exists (bump rst). split; [exact Wr'|]. simpl.
  repeat (split; [first [lia | congruence]|]).
  intros j Hj. destruct (Z.eq_dec j k) as [->|Hne].
  - rewrite <- (Hsrc (idx k)) by lia. rewrite Hv, <- Hk. exact Hnew.
  - rewrite Hkeep by lia. apply Hcopied. lia.
Qed.

(** A copy loop that has [n] rounds to go runs out of fuel when it is given
    at most [n], and otherwise appends the [n] elements. *)
Lemma copy_loop_run test src start step s r st c (n : nat) :
  forall (fuel : nat) k h,
  copying src (fun j => start + j * step) s r st c k h ->
  0 <= k -> k + Z.of_nat n <= c ->
  (forall j, k <= j < k + Z.of_nat n ->
     test (start + j * step) = true /\ 0 <= start + j * step < len st) ->
  test (start + (k + Z.of_nat n) * step) = false ->
  (forall j, k < j <= k + Z.of_nat n -> in_int (start + j * step)) ->
  ((fuel <= n)%nat ->
     copy_loop test fuel s r (start + k * step) step h = OutOfFuel) /\
  ((n < fuel)%nat ->
     exists h',
       copy_loop test fuel s r (start + k * step) step h = Ret r h' /\
       copying src (fun j => start + j * step) s r st c (k + Z.of_nat n) h' /\
       oracle h' = oracle h /\ length (objs h') = length (objs h)).
Proof.
  induction n as [|n IH]; intros fuel k h Hinv Hk Hc Hin Hout Hint.
  - split; intros Hf.
    + assert (fuel = 0%nat) as -> by lia. reflexivity.
    + destruct fuel as [|fuel]; [lia|]. simpl.
      replace (k + Z.of_nat 0) with k in * by lia. rewrite Hout.
      exists h. auto.
  - destruct fuel as [|fuel]; [split; [reflexivity | lia]|].
    destruct (Hin k ltac:(lia)) as [Ht Hi].
    destruct (copy_step src _ s r st c k h Hinv ltac:(lia) Hi)
      as (dat & h1 & Hget & Hdat & Happ & Hr & Hinv1 & Hor & Hlo).
    assert (Hrun : copy_loop test (S fuel) s r (start + k * step) step h =
                   copy_loop test fuel s r (start + (k + 1) * step) step h1).
    { simpl. rewrite Ht. rewrite (bind_Ret _ _ _ _ _ Hget), Hdat.
      rewrite (bind_Ret _ _ _ _ _ Happ), Hr.
      unfold int_add. erewrite bind_Ret; [reflexivity|].
      replace (start + k * step + step) with (start + (k + 1) * step) by lia.
      apply checked_in, Hint. lia. }
    rewrite Hrun.
    destruct (IH fuel (k + 1) h1 Hinv1) as [IH1 IH2]; try lia.
    { intros j Hj. apply Hin. lia. }
    { now replace (k + 1 + Z.of_nat n) with (k + Z.of_nat (S n)) by lia. }
    { intros j Hj. apply Hint. lia. }
    split; intros Hf.
    + apply IH1. lia.
    + destruct (IH2 ltac:(lia)) as (h' & Hrun' & Hinv' & Hor' & Hlo').
      exists h'. replace (k + Z.of_nat (S n)) with (k + 1 + Z.of_nat n) by lia.
      split; [exact Hrun'|]. split; [exact Hinv'|]. split; congruence.
Qed.


Lemma copying_start h s st c idx :
  wf_slice h s st -> 0 <= c <= len st ->
  copying (elem h s) idx s (Ptr (length (objs h)) 0) st c 0
          (with_new_slice h (elSize st) c).
Proof.
  intros W Hc.
  pose proof W as (L & Hlen & Hcap & HE & Hoff & bb & d & Hh & Hb & Hsz).
  destruct L as (sb & -> & Hs).
  assert (Hsb : (sb < length (objs h))%nat) by (eapply lookup_lt_Some; eauto).
  assert (Hbb : (bb < length (objs h))%nat) by (eapply lookup_lt_Some; eauto).
  set (h1 := with_new_slice h (elSize st) c).
  assert (Hs1 : objs h1 !! sb = Some (Struct st)).
  { unfold h1, with_new_slice. simpl. now rewrite lookup_app_l. }
  assert (Hb1 : objs h1 !! bb = Some (Raw d)).
  { unfold h1, with_new_slice. simpl. now rewrite lookup_app_l. }
  assert (L1 : live_slice h1 (Ptr sb 0) st) by (exists sb; auto).
  split.
  { split; [exact L1|]. repeat (split; [lia|]). exists bb, d. auto. }
  split.
  { intros j Hj. apply (elem_frame h h1 (Ptr sb 0) st bb); auto.
    - exists sb; auto.
    - congruence. }
  exists (mkSlice (Ptr (S (length (objs h))) 0) 0 c (elSize st)).
  split.
  { split.
    { eexists. split; [reflexivity|]. unfold h1, with_new_slice. simpl.
      rewrite lookup_app_r by lia. now rewrite Nat.sub_diag. }
    simpl. split; [lia|]. split; [lia|]. split; [lia|]. split; [nia|].
    eexists _, _. split; [reflexivity|]. split.
    { unfold h1, with_new_slice. simpl.
      rewrite lookup_app_r by lia.
      replace (S (length (objs h)) - length (objs h))%nat with 1%nat by lia.
      reflexivity. }
    rewrite length_replicate. nia. }
  simpl. repeat (split; [first [lia | reflexivity]|]).
  split; [intros [= ?]; lia|]. split; [rewrite Hh; intros [= ?]; lia|].
  intros j Hj. lia.
Qed.

(** What a finished copy shows. *)
Lemma copying_result h s r st c idx n h' :
  copying (elem h s) idx s r st c n h' ->
  wf_slice h s st ->
  (forall j, 0 <= j < n -> 0 <= idx j < len st) ->
  exists rst,
    wf_slice h' r rst /\ len rst = n /\ r <> s /\ head rst <> head st /\
    wf_slice h' s st /\
    (forall j, 0 <= j < len st -> elem h' s j = elem h s j) /\
    (forall k, 0 <= k < n ->
       exists x, elem h s (idx k) = Some x /\ elem h' r k = Some x).
Proof.
  intros (Ws & Hsrc & rst & Wr & Hk & Hc & HE & Hrs & Hbuf & Hcopied) W Hidx.
  exists rst. repeat (split; [assumption|]).
  intros k Hk'. destruct (wf_elem h s st (idx k) W (Hidx k Hk')) as [x Hx].
  exists x. split; [exact Hx|]. rewrite Hcopied by lia. exact Hx.
Qed.

(** [SliceSlice] with a negative step, once its arguments are accepted and
    the allocator grants the struct and the buffer. *)
Lemma SliceSlice_down_run fuel h s st i1 i2 step :
  wf_slice h s st -> in_int i1 -> in_int i2 -> in_int step -> step < 0 ->
  rejectedb st i1 i2 step = false ->
  answer h = true -> answer (asked h) = true ->
  let n1 := norm_start st i1 in
  let n2 := norm_end st i2 in
  let r := Ptr (length (objs h)) 0 in
  ((Z.of_nat fuel <= copy_count n1 n2 step) ->
     SliceSlice fuel s i1 i2 step h = OutOfFuel) /\
  ((copy_count n1 n2 step < Z.of_nat fuel) ->
     exists h',
       SliceSlice fuel s i1 i2 step h = Ret r h' /\
       copying (elem h s) (fun j => n2 - 1 + j * step) s r st (n2 - n1)
               (copy_count n1 n2 step) h').
Proof.
  intros W H1 H2 H3 Hneg Hacc A1 A2 n1 n2 r.
  pose proof W as (L & Hlen & Hcap & HE & Hoff & _).
  rewrite (SliceSlice_eq fuel h s st i1 i2 step L) by (auto; lia).
  rewrite Hacc.
  assert (Hn : 0 <= n1 < n2 /\ n2 <= len st).
  { unfold rejectedb in Hacc. fold n1 n2 in Hacc.
    rewrite !orb_false_iff, !negb_false_iff, !andb_true_iff in Hacc.
    rewrite !Z.leb_le, Z.ltb_lt, Z.leb_gt in Hacc.
    unfold n1, n2, norm_start, norm_end in *.
    destruct (i1 <? 0) eqn:E1; destruct (i2 <? 0) eqn:E2;
      try apply Z.ltb_lt in E1; try apply Z.ltb_ge in E1;
      try apply Z.ltb_lt in E2; try apply Z.ltb_ge in E2; lia. }
  fold n1 n2.
  assert (Hnew : NewSlice (elSize st) (n2 - n1) h =
                 Ret r (with_new_slice h (elSize st) (n2 - n1))).
  { rewrite NewSlice_cases, A1, A2 by lia. reflexivity. }
  rewrite (bind_Ret _ _ _ _ _ Hnew).
  cbn [is_null r]. rewrite (proj2 (Z.ltb_ge 0 step)) by lia.
  set (m := - step).
  assert (Hm : 0 < m) by (unfold m; lia).
  set (q := (n2 - 1 - n1) / m).
  assert (Hq : m * q <= n2 - 1 - n1 < m * (q + 1)).
  { unfold q. split; [apply Z.mul_div_le; lia|].
    replace (m * ((n2 - 1 - n1) / m + 1)) with (m * Z.succ ((n2 - 1 - n1) / m)) by lia.
    apply Z.mul_succ_div_gt; lia. }
  assert (Hq0 : 0 <= q) by (unfold q; apply Z.div_pos; lia).
  assert (Hcc : copy_count n1 n2 step = q + 1).
  { unfold copy_count, q, m. now rewrite Z.abs_neq by lia. }
  rewrite Hcc.
  assert (Hrun := copy_loop_run (fun i => n1 <=? i) (elem h s) (n2 - 1) step
            s r st (n2 - n1) (Z.to_nat (q + 1)) fuel 0
            (with_new_slice h (elSize st) (n2 - n1))
            (copying_start h s st (n2 - n1) _ W ltac:(lia)) ltac:(lia)).
  rewrite Z2Nat.id in Hrun by lia.
  replace (n2 - 1 + 0 * step) with (n2 - 1) in Hrun by lia.
  destruct Hrun as [R1 R2].
  - nia.
  - intros j Hj. split; [apply Z.leb_le|]; nia.
  - apply Z.leb_gt. nia.
  - intros j Hj. unfold in_int, int_min, int_max in *. nia.
  - split; intros Hf.
    + rewrite copy_down_loop. apply R1. lia.
    + destruct R2 as (h' & Hr & Hc & _); [lia|].
      exists h'. rewrite copy_down_loop. split; [exact Hr|].
      now replace (q + 1) with (0 + (q + 1)) by lia.
Qed.

(** [SliceSlice] with a positive step whose last increment of [i] stays in
    the range of [int]. *)
Lemma SliceSlice_up_run fuel h s st i1 i2 step :
  wf_slice h s st -> in_int i1 -> in_int i2 -> 0 < step ->
  rejectedb st i1 i2 step = false ->
  answer h = true -> answer (asked h) = true ->
  let n1 := norm_start st i1 in
  let n2 := norm_end st i2 in
  let r := Ptr (length (objs h)) 0 in
  n1 + copy_count n1 n2 step * step <= int_max ->
  ((Z.of_nat fuel <= copy_count n1 n2 step) ->
     SliceSlice fuel s i1 i2 step h = OutOfFuel) /\
  ((copy_count n1 n2 step < Z.of_nat fuel) ->
     exists h',
       SliceSlice fuel s i1 i2 step h = Ret r h' /\
       copying (elem h s) (fun j => n1 + j * step) s r st (n2 - n1)
               (copy_count n1 n2 step) h').
Proof.
  intros W H1 H2 Hpos Hacc A1 A2 n1 n2 r Hfit.
  pose proof W as (L & Hlen & Hcap & HE & Hoff & _).
  rewrite (SliceSlice_eq fuel h s st i1 i2 step L) by (auto; lia).
  rewrite Hacc.
  assert (Hn : 0 <= n1 < n2 /\ n2 <= len st).
  { unfold rejectedb in Hacc. fold n1 n2 in Hacc.
    rewrite !orb_false_iff, !negb_false_iff, !andb_true_iff in Hacc.
    rewrite !Z.leb_le, Z.ltb_lt, Z.leb_gt in Hacc.
    unfold n1, n2, norm_start, norm_end in *.
    destruct (i1 <? 0) eqn:E1; destruct (i2 <? 0) eqn:E2;
      try apply Z.ltb_lt in E1; try apply Z.ltb_ge in E1;
      try apply Z.ltb_lt in E2; try apply Z.ltb_ge in E2; lia. }
  fold n1 n2.
  assert (Hnew : NewSlice (elSize st) (n2 - n1) h =
                 Ret r (with_new_slice h (elSize st) (n2 - n1))).
  { rewrite NewSlice_cases, A1, A2 by lia. reflexivity. }
  rewrite (bind_Ret _ _ _ _ _ Hnew).
  cbn [is_null r]. rewrite (proj2 (Z.ltb_lt 0 step)) by lia.
  set (q := (n2 - 1 - n1) / step).
  assert (Hq : step * q <= n2 - 1 - n1 < step * (q + 1)).
  { unfold q. split; [apply Z.mul_div_le; lia|].
    replace (step * ((n2 - 1 - n1) / step + 1))
      with (step * Z.succ ((n2 - 1 - n1) / step)) by lia.
    apply Z.mul_succ_div_gt; lia. }
  assert (Hq0 : 0 <= q) by (unfold q; apply Z.div_pos; lia).
  assert (Hcc : copy_count n1 n2 step = q + 1).
  { unfold copy_count, q. now rewrite Z.abs_eq by lia. }
  rewrite Hcc in *.
  assert (Hrun := copy_loop_run (fun i => i <? n2) (elem h s) n1 step
            s r st (n2 - n1) (Z.to_nat (q + 1)) fuel 0
            (with_new_slice h (elSize st) (n2 - n1))
            (copying_start h s st (n2 - n1) _ W ltac:(lia)) ltac:(lia)).
  rewrite Z2Nat.id in Hrun by lia.
  replace (n1 + 0 * step) with n1 in Hrun by lia.
  destruct Hrun as [R1 R2].
  - nia.
  - intros j Hj. split; [apply Z.ltb_lt|]; nia.
  - apply Z.ltb_ge. nia.
  - intros j Hj. unfold in_int, int_min, int_max in *. nia.
  - split; intros Hf.
    + rewrite copy_up_loop. apply R1. lia.
    + destruct R2 as (h' & Hr & Hc & _); [lia|].
      exists h'. rewrite copy_up_loop. split; [exact Hr|].
      now replace (q + 1) with (0 + (q + 1)) by lia.
Qed.

(** A normal return of [SliceSlice] with a pointer means that the arguments
    were accepted and that the allocator granted both requests. *)
Lemma SliceSlice_Ret_inv fuel h s st i1 i2 step p h' :
  live_slice h s st -> 0 <= len st <= int_max -> in_int i1 -> in_int i2 ->
  SliceSlice fuel s i1 i2 step h = Ret p h' -> p <> NULL ->
  rejectedb st i1 i2 step = false /\ answer h = true /\
  answer (asked h) = true.
Proof.
  intros L Hlen H1 H2 Hrun Hp.
  rewrite (SliceSlice_eq fuel h s st i1 i2 step L Hlen H1 H2) in Hrun.
  destruct (rejectedb st i1 i2 step) eqn:Hacc; [inversion Hrun; congruence|].
  split; [reflexivity|].
  assert (Hn : 0 <= norm_end st i2 - norm_start st i1 <= int_max).
  { unfold rejectedb in Hacc.
    rewrite !orb_false_iff, !negb_false_iff, !andb_true_iff in Hacc.
    rewrite !Z.leb_le, Z.ltb_lt, Z.leb_gt in Hacc.
    unfold norm_start, norm_end in *.
    destruct (i1 <? 0) eqn:E1; destruct (i2 <? 0) eqn:E2;
      try apply Z.ltb_lt in E1; try apply Z.ltb_ge in E1;
      try apply Z.ltb_lt in E2; try apply Z.ltb_ge in E2; lia. }
  unfold bind in Hrun. rewrite (NewSlice_cases h _ _ Hn) in Hrun.
  destruct (answer h); [|inversion Hrun; congruence].
  destruct (answer (asked h)); [|inversion Hrun; congruence].
  auto.
Qed.




(** Inside the data model of [wf_slice], where every offset into the buffer
    fits an [unsigned int], a call of [SliceSlice] with [step < 0] that
    returns a slice has copied the source elements at [n2-1], [n2-1-|step|], .. down to the least
    such index that is not below [n1] ([n1], [n2] the normalized bounds), in
    this order; and on a non-empty slice, [SliceSlice(s, 0, len, -1)] (which
    returns a slice when it has the fuel and the allocator grants its
    requests) yields the elements of [s] in reverse order. *)
Theorem SliceSlice_descending :
  (forall fuel h s st i1 i2 step p h',
     wf_slice h s st -> in_int i1 -> in_int i2 -> in_int step -> step < 0 ->
     SliceSlice fuel s i1 i2 step h = Ret p h' -> p <> NULL ->
     let n1 := norm_start st i1 in
     let n2 := norm_end st i2 in
     exists rst,
       live_slice h' p rst /\ 0 < len rst /\
       n2 - 1 - len rst * Z.abs step < n1 /\
       (forall k, 0 <= k < len rst ->
          n1 <= n2 - 1 - k * Z.abs step < n2 /\
          exists x, elem h s (n2 - 1 - k * Z.abs step) = Some x /\
                    elem h' p k = Some x)) /\
  (forall fuel h s st,
     wf_slice h s st -> 0 < len st ->
     answer h = true -> answer (asked h) = true ->
     len st < Z.of_nat fuel ->
     exists r h' rst,
       SliceSlice fuel s 0 (len st) (-1) h = Ret r h' /\ r <> NULL /\
       live_slice h' r rst /\ len rst = len st /\
       (forall k, 0 <= k < len st ->
          exists x, elem h s (len st - 1 - k) = Some x /\
                    elem h' r k = Some x)).
Proof.
  split.
  - intros fuel h s st i1 i2 step p h' W H1 H2 H3 Hneg Hrun Hp n1 n2.
    pose proof W as (L & Hlen & Hcap & _).
    destruct (SliceSlice_Ret_inv fuel h s st i1 i2 step p h' L
                ltac:(lia) H1 H2 Hrun Hp) as (Hacc & A1 & A2).
    destruct (SliceSlice_down_run fuel h s st i1 i2 step W H1 H2 H3 Hneg
                Hacc A1 A2) as [R1 R2].
    fold n1 n2 in R1, R2.
    destruct (Z_le_gt_dec (Z.of_nat fuel) (copy_count n1 n2 step)) as [Hf|Hf].
    { rewrite (R1 Hf) in Hrun. discriminate. }
    destruct (R2 ltac:(lia)) as (h1 & Hrun1 & Hcopy).
    rewrite Hrun1 in Hrun. injection Hrun as <- <-.
    assert (Hn : 0 <= n1 < n2 /\ n2 <= len st).
    { unfold rejectedb in Hacc. fold n1 n2 in Hacc.
      rewrite !orb_false_iff, !negb_false_iff, !andb_true_iff in Hacc.
      rewrite !Z.leb_le, Z.ltb_lt, Z.leb_gt in Hacc.
      unfold n1, n2, norm_start, norm_end in *.
      destruct (i1 <? 0) eqn:E1; destruct (i2 <? 0) eqn:E2;
        try apply Z.ltb_lt in E1; try apply Z.ltb_ge in E1;
        try apply Z.ltb_lt in E2; try apply Z.ltb_ge in E2; lia. }
    set (m := Z.abs step) in *.
    assert (Hm : m = - step) by (unfold m; lia).
    set (q := (n2 - 1 - n1) / m).
    assert (Hq : m * q <= n2 - 1 - n1 < m * (q + 1)).
    { unfold q. split; [apply Z.mul_div_le; lia|].
      replace (m * ((n2 - 1 - n1) / m + 1))
        with (m * Z.succ ((n2 - 1 - n1) / m)) by lia.
      apply Z.mul_succ_div_gt; lia. }
    assert (Hq0 : 0 <= q) by (unfold q; apply Z.div_pos; lia).
    assert (Hcc : copy_count n1 n2 step = q + 1) by reflexivity.
    rewrite Hcc in Hcopy.
    destruct (copying_result h s _ st _ _ _ h1 Hcopy W)
      as (rst & Wr & Hlr & _ & _ & _ & _ & Hel).
    { intros j Hj. nia. }
    exists rst. split; [apply Wr|]. rewrite Hlr.
    split; [lia|]. split; [nia|].
    intros k Hk. split; [nia|].
    destruct (Hel k Hk) as (x & Hx1 & Hx2). exists x.
    replace (n2 - 1 - k * m) with (n2 - 1 + k * step) by lia. auto.
  - intros fuel h s st W Hpos A1 A2 Hfuel.
    pose proof W as (L & Hlen & Hcap & _).
    assert (Hi0 : in_int 0) by (unfold in_int, int_min, int_max; lia).
    assert (Hil : in_int (len st)) by (unfold in_int, int_min, int_max in *; lia).
    assert (Him : in_int (-1)) by (unfold in_int, int_min, int_max; lia).
    assert (Hn1 : norm_start st 0 = 0) by reflexivity.
    assert (Hn2 : norm_end st (len st) = len st).
    { unfold norm_end. now rewrite (proj2 (Z.ltb_ge (len st) 0)) by lia. }
    assert (Hacc : rejectedb st 0 (len st) (-1) = false).
    { unfold rejectedb. rewrite Hn1, Hn2.
      rewrite !orb_false_iff, !negb_false_iff, !andb_true_iff.
      rewrite !Z.leb_le, Z.ltb_lt, Z.leb_gt. cbn. lia. }
    destruct (SliceSlice_down_run fuel h s st 0 (len st) (-1) W Hi0 Hil Him
                ltac:(lia) Hacc A1 A2) as [_ R2].
    rewrite Hn1, Hn2 in R2.
    assert (Hcc : copy_count 0 (len st) (-1) = len st).
    { unfold copy_count. cbn [Z.abs]. rewrite Z.div_1_r. lia. }
    rewrite Hcc in R2.
    destruct (R2 Hfuel) as (h' & Hrun & Hcopy).
    destruct (copying_result h s _ st _ _ _ h' Hcopy W)
      as (rst & Wr & Hlr & _ & _ & _ & _ & Hel).
    { intros j Hj. lia. }
    eexists _, h', rst. split; [exact Hrun|]. split; [discriminate|].
    split; [apply Wr|]. split; [exact Hlr|].
    intros k Hk. destruct (Hel k Hk) as (x & Hx1 & Hx2). exists x.
    replace (len st - 1 - k) with (len st - 1 + k * -1) by lia. auto.
Qed.

Lemma SliceSlice_descending_witness :
  exists r h' rst,
    SliceSlice 5 (Ptr 1 0) 0 (len ex_slice) (-1) ex_heap = Ret r h' /\
    r <> NULL /\ live_slice h' r rst /\ len rst = len ex_slice /\
    (forall k, 0 <= k < len ex_slice ->
       exists x, elem ex_heap (Ptr 1 0) (len ex_slice - 1 - k) = Some x /\
                 elem h' r k = Some x).
Proof.
  apply (proj2 SliceSlice_descending 5%nat ex_heap (Ptr 1 0) ex_slice).
  - exact ex_wf.
  - simpl. lia.
  - reflexivity.
  - reflexivity.
  - simpl. lia.
Defined.

(** One round of the descending loop of [SliceSlice], and its exit. *)
Lemma copy_down_step fuel s r i i1 step h dat h1 :
  i1 <= i -> SliceGet s i h = Ret dat h -> is_null dat = false ->
  SliceAppend r dat h = Ret r h1 -> is_null r = false -> in_int (i + step) ->
  copy_down (S fuel) s r i i1 step h = copy_down fuel s r (i + step) i1 step h1.
Proof.
  intros Hi Hget Hdat Happ Hr Hin. cbn [copy_down].
  rewrite (proj2 (Z.leb_le i1 i)) by exact Hi.
  rewrite (bind_Ret _ _ _ _ _ Hget), Hdat.
  rewrite (bind_Ret _ _ _ _ _ Happ), Hr.
  unfold int_add. now rewrite (bind_Ret _ _ _ _ _ (checked_in _ _ Hin)).
Qed.

Lemma copy_down_done fuel s r i i1 step h :
  i < i1 -> copy_down (S fuel) s r i i1 step h = Ret r h.
Proof.
  intros Hi. cbn [copy_down]. now rewrite (proj2 (Z.leb_gt i1 i)) by exact Hi.
Qed.

(** One round of the descending copy loop on [copy_heap]. *)
Lemma tall_copy_step E d k b i fuel :
  0 <= E <= uint_max -> Z.of_nat (length d) = 3 * E ->
  Z.of_nat (length b) = 3 * E -> 0 <= k < 3 -> 0 <= i < 3 ->
  offset (tall_slice E) i + E <= 3 * E ->
  offset (tall_slice E) k + E <= 3 * E ->
  copy_down (S fuel) (Ptr 0 0) (Ptr 2 0) i 0 (-1) (copy_heap E d k b) =
  copy_down fuel (Ptr 0 0) (Ptr 2 0) (i + -1) 0 (-1)
    (copy_heap E d (k + 1)
       (splice b (take (Z.to_nat E)
                       (drop (Z.to_nat (offset (tall_slice E) i)) d))
               (Z.to_nat (offset (tall_slice E) k)))).
Proof.
  intros HE Hd Hb Hk Hi Hoi Hok.
  pose proof (offset_range (tall_slice E) i) as Ri.
  pose proof (offset_range (tall_slice E) k) as Rk.
  set (h := copy_heap E d k b).
  assert (L : live_slice h (Ptr 0 0) (tall_slice E))
    by (exists 0%nat; split; reflexivity).
  apply (copy_down_step fuel (Ptr 0 0) (Ptr 2 0) i 0 (-1) h
           (Ptr 1 (offset (tall_slice E) i))).
  - lia.
  - apply (SliceGet_at h (Ptr 0 0) (tall_slice E) 1 i L); try reflexivity.
    + unfold int_max. simpl. lia.
    + simpl. lia.
  - reflexivity.
  - rewrite (SliceAppend_at h 2 3 (mkSlice (Ptr 3 0) k 3 E) b
               (Ptr 1 (offset (tall_slice E) i))
               (take (Z.to_nat E) (drop (Z.to_nat (offset (tall_slice E) i)) d)));
      try reflexivity.
    + simpl. lia.
    + unfold int_max. simpl. lia.
    + apply (read_Raw h 1 _ E d); [reflexivity|lia|lia|simpl; lia].
    + exact (proj1 Rk).
    + change (offset _ (len _)) with (offset (tall_slice E) k). simpl. lia.
  - reflexivity.
  - unfold in_int, int_min, int_max. lia.
Qed.

Lemma tall_offsets E :
  2147483648 < E <= uint_max ->
  offset (tall_slice E) 0 = 0 /\ offset (tall_slice E) 1 = E /\
  offset (tall_slice E) 2 = 2 * E - uint_modulus.
Proof.
  intros HE. unfold offset, uint_mul, to_uint, uint_max, uint_modulus in *.
  cbn [elSize tall_slice]. split; [reflexivity|].
  split.
  - change (1 mod 4294967296) with 1. rewrite Z.mul_1_l.
    apply Z.mod_small. lia.
  - change (2 mod 4294967296) with 2. symmetry.
    apply (Z.mod_unique _ _ 1); lia.
Qed.

(** The reverse copy of a slice of three elements of more than [2^31]
    bytes: the third append goes to the wrapped offset [2 * E - 2^32] of the
    result's buffer, into the first element copied. *)
Lemma tall_reverse E d :
  2147483648 < E <= uint_max -> Z.of_nat (length d) = 3 * E ->
  let w := Z.to_nat (2 * E - uint_modulus) in
  let n := Z.to_nat E in
  exists h',
    SliceSlice 4 (Ptr 0 0) 0 3 (-1) (tall_heap E d) = Ret (Ptr 2 0) h' /\
    elem (tall_heap E d) (Ptr 0 0) 2 = Some (take n (drop w d)) /\
    elem h' (Ptr 0 0) 2 = Some (take n (drop w d)) /\
    elem h' (Ptr 2 0) 0 = Some (take w (drop w d) ++ take (n - w) d).
Proof.
  intros HE Hd w n.
  destruct (tall_offsets E HE) as (O0 & O1 & O2).
  assert (Hm : uint_modulus = 4294967296) by reflexivity.
  assert (HU : uint_max = 4294967295) by reflexivity.
  set (h0 := tall_heap E d).
  assert (L0 : live_slice h0 (Ptr 0 0) (tall_slice E))
    by (exists 0%nat; split; reflexivity).
  set (zs := replicate (Z.to_nat (3 * E)) (MByte x00)).
  assert (Hzs : Z.of_nat (length zs) = 3 * E).
  { unfold zs. rewrite length_replicate. lia. }
  set (v0 := take n (drop w d)).
  set (v1 := take n (drop n d)).
  set (v2 := take n (drop 0%nat d)).
  set (b1 := splice zs v0 0%nat).
  set (b2 := splice b1 v1 n).
  set (b3 := splice b2 v2 w).
  assert (Hv0 : length v0 = n) by (unfold v0; rewrite length_take, length_drop; lia).
  assert (Hv1 : length v1 = n) by (unfold v1; rewrite length_take, length_drop; lia).
  assert (Hv2 : length v2 = n) by (unfold v2; rewrite length_take, length_drop; lia).
  assert (Hb1 : length b1 = length zs) by (unfold b1; apply splice_length; lia).
  assert (Hb2 : length b2 = length zs)
    by (unfold b2; rewrite splice_length; lia).
  assert (Hb3 : length b3 = length zs)
    by (unfold b3; rewrite splice_length; lia).
  assert (Hrun : SliceSlice 4 (Ptr 0 0) 0 3 (-1) h0
                 = Ret (Ptr 2 0) (copy_heap E d 3 b3)).
  { rewrite (SliceSlice_eq 4 h0 (Ptr 0 0) (tall_slice E) 0 3 (-1) L0);
      [|unfold int_max; simpl; lia|apply in_int_small; lia|apply in_int_small; lia].
    change (rejectedb (tall_slice E) 0 3 (-1)) with false. cbv iota.
    rewrite (bind_Ret _ _ h0 (Ptr 2 0) (copy_heap E d 0 zs)).
    2:{ rewrite NewSlice_ok; [reflexivity|reflexivity|reflexivity|].
        change (norm_end (tall_slice E) 3 - norm_start (tall_slice E) 0) with 3.
        unfold int_max. lia. }
    change (is_null (Ptr 2 0)) with false. cbv iota.
    change (0 <? -1) with false. cbv iota.
    change (norm_end (tall_slice E) 3 - 1) with 2.
    change (norm_start (tall_slice E) 0) with 0.
    assert (HE' : 0 <= E <= uint_max) by lia.
    pose proof (tall_copy_step E d 0 zs 2 3 HE' Hd Hzs) as S1.
    rewrite O0, O2 in S1. rewrite S1 by lia. clear S1.
    change (copy_down 3 (Ptr 0 0) (Ptr 2 0) (2 + -1) 0 (-1) (copy_heap E d (0 + 1) _))
      with (copy_down 3 (Ptr 0 0) (Ptr 2 0) 1 0 (-1) (copy_heap E d 1 b1)).
    pose proof (tall_copy_step E d 1 b1 1 2 HE' Hd) as S2.
    rewrite O1 in S2. rewrite S2 by lia. clear S2.
    change (copy_down 2 (Ptr 0 0) (Ptr 2 0) (1 + -1) 0 (-1) (copy_heap E d (1 + 1) _))
      with (copy_down 2 (Ptr 0 0) (Ptr 2 0) 0 0 (-1) (copy_heap E d 2 b2)).
    pose proof (tall_copy_step E d 2 b2 0 1 HE' Hd) as S3.
    rewrite O0, O2 in S3. rewrite S3 by lia. clear S3.
    change (copy_down 1 (Ptr 0 0) (Ptr 2 0) (0 + -1) 0 (-1) (copy_heap E d (2 + 1) _))
      with (copy_down 1 (Ptr 0 0) (Ptr 2 0) (-1) 0 (-1) (copy_heap E d 3 b3)).
    rewrite copy_down_done by lia. reflexivity. }
  exists (copy_heap E d 3 b3).
  split; [exact Hrun|].
  assert (Hs2 : forall h, live_slice h (Ptr 0 0) (tall_slice E) ->
                objs h !! 1%nat = Some (Raw d) ->
                elem h (Ptr 0 0) 2 = Some (take n (drop w d))).
  { intros h L Hb.
    rewrite (elem_at h (Ptr 0 0) (tall_slice E) 1 2 L);
      [|reflexivity|unfold int_max; simpl; lia|simpl; lia].
    rewrite O2. cbn [elSize tall_slice].
    apply read_Raw; [exact Hb|lia|lia|lia]. }
  split; [apply Hs2; [exact L0|reflexivity]|].
  split; [apply Hs2; [exists 0%nat; split; reflexivity|reflexivity]|].
  rewrite (elem_at (copy_heap E d 3 b3) (Ptr 2 0) (mkSlice (Ptr 3 0) 3 3 E) 3 0);
    [|exists 2%nat; split; reflexivity|reflexivity|unfold int_max; simpl; lia
     |simpl; lia].
  change (offset (mkSlice (Ptr 3 0) 3 3 E) 0) with (offset (tall_slice E) 0).
  rewrite O0. cbn [elSize].
  rewrite (read_Raw _ 3 0 E b3); [|reflexivity|lia|lia|lia].
  f_equal. change (Z.to_nat 0) with 0%nat. rewrite drop_0. fold n.
  unfold b3. rewrite splice_straddle by lia.
  unfold b2.
  pose proof (splice_before b1 v1 n 0 w) as Hbe.
  rewrite !drop_0 in Hbe. rewrite Hbe by lia.
  unfold b1. rewrite splice_straddle by lia.
  rewrite take_0, app_nil_l, Nat.sub_0_r.
  unfold v0, v2. rewrite take_take, drop_0, take_take.
  now rewrite !Nat.min_l by lia.
Qed.

Lemma tall_bytes_length : Z.of_nat (length tall_bytes) = 3 * 3221225472.
Proof. unfold tall_bytes. rewrite !length_app, !length_replicate. lia. Qed.

Lemma tall_bytes_low (i : nat) :
  (i < Z.to_nat 2147483648)%nat -> tall_bytes !! i = Some (MByte x01).
Proof.
  intros Hi. unfold tall_bytes.
  rewrite lookup_app_l by (rewrite length_replicate; exact Hi).
  now apply lookup_replicate_2.
Qed.

Lemma tall_bytes_high (i : nat) :
  (Z.to_nat 2147483648 <= i < Z.to_nat 6442450944)%nat ->
  tall_bytes !! i = Some (MByte x02).
Proof.
  intros Hi. unfold tall_bytes.
  rewrite lookup_app_r by (rewrite length_replicate; lia).
  rewrite lookup_app_l by (rewrite !length_replicate; lia).
  apply lookup_replicate_2. rewrite length_replicate. lia.
Qed.

(** C5 fails on the code.  On a slice of three elements of [3 * 2^30] bytes
    each, [SliceSlice(s, 0, 3, -1)] returns a slice [r], but the offset
    [2 * elSize] wraps to [2^31] in [unsigned int]: the third append lands
    inside the element copied first, and [r[0]] is not [s[2]].  (The slice
    obeys the data model of the specification: [len <= cap] and a buffer of
    [cap * elSize] bytes.) *)
Theorem SliceSlice_descending_wraps :
  len (tall_slice 3221225472) = 3 /\ cap (tall_slice 3221225472) = 3 /\
  Z.of_nat (length tall_bytes)
    = cap (tall_slice 3221225472) * elSize (tall_slice 3221225472) /\
  exists h' x y,
    SliceSlice 4 (Ptr 0 0) 0 3 (-1) (tall_heap 3221225472 tall_bytes)
      = Ret (Ptr 2 0) h' /\
    elem (tall_heap 3221225472 tall_bytes) (Ptr 0 0) 2 = Some x /\
    elem h' (Ptr 0 0) 2 = Some x /\
    elem h' (Ptr 2 0) 0 = Some y /\
    x <> y.
Proof.
  split; [reflexivity|]. split; [reflexivity|].
  split; [exact tall_bytes_length|].
  pose proof (tall_reverse 3221225472 tall_bytes) as H. cbv zeta in H.
  destruct H as (h' & Hrun & Hs & Hs' & Hr).
  { unfold uint_max. lia. }
  { exact tall_bytes_length. }
  replace (2 * 3221225472 - uint_modulus) with 2147483648 in * by reflexivity.
  set (w := Z.to_nat 2147483648) in *.
  set (n := Z.to_nat 3221225472) in *.
  assert (Hw : Z.of_nat w = 2147483648) by (unfold w; lia).
  assert (Hn : Z.of_nat n = 3221225472) by (unfold n; lia).
  pose proof tall_bytes_length as Hl.
  eexists h', _, _. split; [exact Hrun|]. split; [exact Hs|].
  split; [exact Hs'|]. split; [exact Hr|].
  intros Heq. apply (f_equal (fun l => l !! w)) in Heq.
  rewrite lookup_take_lt, lookup_drop in Heq by lia.
  rewrite tall_bytes_high in Heq by lia.
  rewrite lookup_app_r in Heq by (rewrite length_take, length_drop; lia).
  rewrite length_take, length_drop, Nat.min_l in Heq by lia.
  rewrite lookup_take_lt in Heq by lia.
  rewrite tall_bytes_low in Heq by lia.
  discriminate.
Qed.

(** C3, as the code has it.  On a non-empty, well-formed slice, with more
    fuel than elements and an allocator that grants the struct and the
    buffer, [SliceSlice(s, 0, len, 1)] returns a new slice, whose struct and
    buffer are apart from those of [s], with the length and the elements of
    [s]; [s] is left as it was, and whatever a later [SliceAppend] on the
    copy does, the struct and the elements of [s] stay the same. *)
Theorem SliceSlice_full_copy fuel h s st :
  wf_slice h s st -> 0 < len st ->
  answer h = true -> answer (asked h) = true ->
  len st < Z.of_nat fuel ->
  exists r h' rst,
    SliceSlice fuel s 0 (len st) 1 h = Ret r h' /\
    r <> NULL /\ r <> s /\ live_slice h' r rst /\
    head rst <> head st /\ len rst = len st /\
    live_slice h' s st /\
    (forall k, 0 <= k < len st ->
       exists x, elem h s k = Some x /\ elem h' r k = Some x /\
                 elem h' s k = Some x) /\
    (forall dat p h'', SliceAppend r dat h' = Ret p h'' ->
       live_slice h'' s st /\
       forall k, 0 <= k < len st -> elem h'' s k = elem h s k).
Proof.
  intros W Hpos A1 A2 Hfuel.
  pose proof W as (L & Hlen & Hcap & _).
  assert (Hi0 : in_int 0) by (unfold in_int, int_min, int_max; lia).
  assert (Hil : in_int (len st)) by (unfold in_int, int_min, int_max in *; lia).
  assert (Hn1 : norm_start st 0 = 0) by reflexivity.
  assert (Hn2 : norm_end st (len st) = len st).
  { unfold norm_end. now rewrite (proj2 (Z.ltb_ge (len st) 0)) by lia. }
  assert (Hacc : rejectedb st 0 (len st) 1 = false).
  { unfold rejectedb. rewrite Hn1, Hn2.
    rewrite !orb_false_iff, !negb_false_iff, !andb_true_iff.
    rewrite !Z.leb_le, Z.ltb_lt, Z.leb_gt. cbn. lia. }
  assert (Hcc : copy_count 0 (len st) 1 = len st).
  { unfold copy_count. cbn [Z.abs]. rewrite Z.div_1_r. lia. }
  destruct (SliceSlice_up_run fuel h s st 0 (len st) 1 W Hi0 Hil
              ltac:(lia) Hacc A1 A2) as [_ R2].
  { rewrite Hn1, Hn2, Hcc. lia. }
  rewrite Hn1, Hn2, Hcc in R2.
  destruct (R2 Hfuel) as (h' & Hrun & Hcopy).
  destruct (copying_result h s _ st _ _ _ h' Hcopy W)
    as (rst & Wr & Hlr & Hrs & Hbuf & Ws' & Hkeep & Hel).
  { intros j Hj. lia. }
  eexists _, h', rst. split; [exact Hrun|]. split; [discriminate|].
  split; [exact Hrs|]. split; [apply Wr|]. split; [exact Hbuf|].
  split; [exact Hlr|]. split; [apply Ws'|]. split.
  - intros k Hk. destruct (Hel k Hk) as (x & Hx1 & Hx2).
    replace (0 + k * 1) with k in Hx1 by lia.
    exists x. rewrite Hkeep by lia. auto.
  - intros dat p h'' Happ.
    pose proof Ws' as (Ls' & _ & _ & _ & _ & bb & d & Hh & Hb & _).
    destruct Ls' as (sb & -> & Hs).
    assert (Hsb : objs h'' !! sb = objs h' !! sb).
    { apply (SliceAppend_frame h' _ rst dat p h'' Wr Happ).
      - eapply lookup_lt_Some; eauto.
      - congruence.
      - destruct Wr as (_ & _ & _ & _ & _ & rb & dr & Hhr & Hbr & _).
        rewrite Hhr. intros [= ->]. congruence. }
    assert (Hbb : objs h'' !! bb = objs h' !! bb).
    { apply (SliceAppend_frame h' _ rst dat p h'' Wr Happ).
      - eapply lookup_lt_Some; eauto.
      - destruct Wr as ((rb & -> & Hr) & _). intros [= ->]. congruence.
      - congruence. }
    assert (Ls'' : live_slice h'' (Ptr sb 0) st) by (exists sb; rewrite Hsb; auto).
    split; [exact Ls''|].
    intros k Hk. rewrite <- Hkeep by lia.
    apply (elem_frame h' h'' (Ptr sb 0) st bb); auto. exists sb; auto.
Qed.

Lemma SliceSlice_full_copy_witness :
  exists r h', SliceSlice 5 (Ptr 1 0) 0 3 1 ex_heap = Ret r h' /\ r <> NULL.
Proof.
  destruct (SliceSlice_full_copy 5 ex_heap (Ptr 1 0) ex_slice)
    as (r & h' & rst & Hrun & Hr & _).
  - exact ex_wf.
  - simpl. lia.
  - reflexivity.
  - reflexivity.
  - simpl. lia.
  - exists r, h'. exact (conj Hrun Hr).
Defined.

(** C3 as stated fails on the empty slice: [SliceSlice(s, 0, 0, 1)] on the
    slice made by [NewSlice(1, 0)] returns [NULL]. *)
Lemma SliceSlice_empty_fails :
  let h := caller_heap 0 [] in
  value_of ((let* s := NewSlice 1 0 in load_Slice s) h)
    = Some (mkSlice (Ptr 2 0) 0 0 1) /\
  value_of ((let* s := NewSlice 1 0 in SliceSlice 5 s 0 0 1) h) = Some NULL.
Proof. split; reflexivity. Qed.

(** ** The combinators: [SliceMap], [SliceFilter], [SliceReduce] *)

(** [SliceAppend] on [NULL] dereferences it. *)
Lemma SliceAppend_NULL dat h : SliceAppend NULL dat h = Undefined.
Proof. reflexivity. Qed.

(** When the allocator refuses the struct or the buffer of the result,
    [SliceMap] on a non-empty slice does not return: it passes the [NULL] of
    [NewSlice] on to [SliceAppend]. *)
Lemma SliceMap_never_returns fuel h s st E f p h' :
  live_slice h s st -> 0 < len st <= int_max ->
  answer h = false \/ answer (asked h) = false ->
  SliceMap fuel s E f h <> Ret p h'.
Proof.
  intros L Hlen Hans Hrun. unfold SliceMap in Hrun.
  rewrite (bind_Ret _ _ _ _ _ (load_Slice_live _ _ _ L)) in Hrun.
  apply bind_Ret_inv in Hrun as (ret & h1 & Hnew & Hrun).
  rewrite NewSlice_cases in Hnew by lia.
  assert (Hret : ret = NULL /\ live_slice h1 s st).
  { destruct L as (b & -> & Hl).
    destruct (answer h); [destruct (answer (asked h))|].
    - destruct Hans; discriminate.
    - injection Hnew as <- <-. split; [reflexivity|].
      exists b. split; [reflexivity|]. simpl.
      rewrite lookup_app_l; [exact Hl|]. eapply lookup_lt_Some; eauto.
    - injection Hnew as <- <-. split; [reflexivity|]. exists b. auto. }
  destruct Hret as [-> L1].
  destruct fuel as [|fuel]; [discriminate|]. simpl in Hrun.
  rewrite (bind_Ret _ _ _ _ _ (load_Slice_live _ _ _ L1)) in Hrun.
  rewrite (proj2 (Z.ltb_lt 0 (len st))) in Hrun by lia.
  apply bind_Ret_inv in Hrun as (q & h2 & _ & Hrun).
  apply bind_Ret_inv in Hrun as (q' & h3 & _ & Hrun).
  apply bind_Ret_inv in Hrun as (r & h4 & Happ & _).
  rewrite SliceAppend_NULL in Happ. discriminate.
Qed.

(** C2 fails on the code.  On the two-element slice [two_bytes], with an
    allocator that refuses the next request, [SliceMap] (here with the
    identity as callback) and [SliceFilter] (keeping every element) run into
    undefined behaviour, where [SliceSlice], which tests the result of
    [NewSlice], returns [NULL]. *)
Theorem SliceMap_dereferences_NULL :
  let h := caller_heap 2 [true; true; false] in
  (let* s := two_bytes in SliceMap 5 s 1 pure) h = Undefined /\
  (let* s := two_bytes in SliceFilter 5 s (fun _ => pure 1)) h = Undefined /\
  value_of ((let* s := two_bytes in SliceSlice 5 s 0 2 1) h) = Some NULL.
Proof. cbv zeta. repeat split. Qed.

(** The loop of [SliceReduce] is a left fold over the remaining indices, as
    long as the callback leaves the struct of the slice alone. *)
Lemma reduce_loop_fold s st f (n : nat) :
  (forall a d g p g', f a d g = Ret p g' ->
     live_slice g s st -> live_slice g' s st) ->
  len st <= int_max ->
  forall (fuel : nat) i acc h,
  live_slice h s st -> 0 <= i -> i + Z.of_nat n = len st -> (n < fuel)%nat ->
  reduce_loop fuel s f i acc h = left_fold s f (seqZ i (Z.of_nat n)) acc h.
Proof.
  intros Hf Hmax. induction n as [|n IH]; intros fuel i acc h L Hi Hn Hfuel;
    (destruct fuel as [|fuel]; [lia|]); simpl.
  - rewrite (bind_Ret _ _ _ _ _ (load_Slice_live _ _ _ L)).
    now rewrite (proj2 (Z.ltb_ge i (len st))) by lia.
  - rewrite (bind_Ret _ _ _ _ _ (load_Slice_live _ _ _ L)).
    rewrite (proj2 (Z.ltb_lt i (len st))) by lia.
    rewrite seqZ_cons by lia. simpl.
    apply bind_ext. intros d h1 Hget.
    apply SliceGet_heap in Hget as ->.
    apply bind_ext. intros acc' h2 Hcall.
    unfold int_add.
    rewrite (bind_Ret _ _ _ _ _ (checked_in (i + 1) h2
               ltac:(unfold in_int, int_min, int_max in *; lia))).
    replace (Z.pred (Z.of_nat (S n))) with (Z.of_nat n) by lia.
    replace (Z.succ i) with (i + 1) by lia.
    apply IH; try lia. eapply Hf; eauto.
Qed.

(** C6.  [SliceReduce] on an empty slice returns [NULL]; on a non-empty one
    it is the left fold seeded with the element at index 0 over the indices
    [1 .. len-1], the accumulator becoming [f(accumulator, element)]; on a
    one-element slice it returns the pointer to that element and leaves the
    heap as it is; and over the [int] elements 1, 2, 3 a summation callback
    yields 6. *)
Theorem SliceReduce_left_fold :
  (forall fuel h s st f,
     live_slice h s st -> len st = 0 ->
     SliceReduce (S fuel) s f h = Ret NULL h) /\
  (forall fuel h s st f,
     live_slice h s st -> 0 < len st <= int_max ->
     (forall a d g p g', f a d g = Ret p g' ->
        live_slice g s st -> live_slice g' s st) ->
     len st <= Z.of_nat fuel ->
     SliceReduce fuel s f h =
       (let* seed := SliceGet s 0 in
        left_fold s f (seqZ 1 (len st - 1)) seed) h) /\
  (forall fuel h s st f,
     live_slice h s st -> len st = 1 -> head st <> NULL ->
     SliceGet s 0 h = Ret (head st) h /\
     SliceReduce (S fuel) s f h = Ret (head st) h) /\
  value_of ((let* s := three_ints in
             let* r := SliceReduce 5 s sum_ints in
             load_int r) ints_heap) = Some 6.
Proof.
  split; [|split; [|split]].
  - intros fuel h s st f L Hlen.
    assert (Hget : SliceGet s 0 h = Ret NULL h).
    { rewrite (SliceGet_spec h s st 0 L)
        by (unfold in_int, int_min, int_max; lia).
      unfold resolve. rewrite Hlen. reflexivity. }
    unfold SliceReduce. rewrite (bind_Ret _ _ _ _ _ Hget). simpl.
    rewrite (bind_Ret _ _ _ _ _ (load_Slice_live _ _ _ L)).
    rewrite Hlen. reflexivity.
  - intros fuel h s st f L Hlen Hf Hfuel. unfold SliceReduce.
    apply bind_ext. intros seed h1 Hget. apply SliceGet_heap in Hget as ->.
    replace (len st - 1) with (Z.of_nat (Z.to_nat (len st - 1))) by lia.
    apply reduce_loop_fold with (st := st); auto; lia.
  - intros fuel h s st f L Hlen Hhead.
    assert (Hget : SliceGet s 0 h = Ret (head st) h).
    { unfold SliceGet.
      rewrite (bind_Ret _ _ _ _ _ (load_Slice_live _ _ _ L)).
      rewrite Hlen. simpl.
      destruct (head st) as [|b o]; [congruence|]. simpl.
      unfold pure, uint_mul, to_uint.
      change (0 mod uint_modulus) with 0. rewrite Z.mul_0_l.
      change (0 mod uint_modulus) with 0. now rewrite Z.add_0_r. }
    split; [exact Hget|]. unfold SliceReduce.
    rewrite (bind_Ret _ _ _ _ _ Hget). simpl.
    rewrite (bind_Ret _ _ _ _ _ (load_Slice_live _ _ _ L)).
    rewrite Hlen. reflexivity.
  - vm_compute. reflexivity.
Qed.

Lemma SliceReduce_left_fold_witness :
  SliceReduce 5 (Ptr 1 0) (fun a _ => pure a) ex_heap =
    (let* seed := SliceGet (Ptr 1 0) 0 in
     left_fold (Ptr 1 0) (fun a _ => pure a) (seqZ 1 (len ex_slice - 1)) seed)
      ex_heap.
Proof.
  apply (proj1 (proj2 SliceReduce_left_fold) 5%nat ex_heap (Ptr 1 0) ex_slice).
  - exact ex_live.
  - unfold int_max. simpl. lia.
  - intros a d g p g' [= _ <-] L. exact L.
  - simpl. lia.
Defined.

(** ** The invariant [0 <= len <= cap] *)















































(** * Further properties of the library *)

(** ** Appending in bulk: [SliceAppendArray] and [SliceExtend] *)

Lemma all_granted_answer h : all_granted h -> answer h = true.
Proof.
  unfold all_granted, answer. destruct (oracle h) as [|b o]; [reflexivity|].
  intros H. inversion H; subst. reflexivity.
Qed.

Lemma all_granted_tl h objs' :
  all_granted h -> all_granted (mkHeap objs' (tl (oracle h))).
Proof.
  unfold all_granted. simpl. destruct (oracle h) as [|b o]; [auto|].
  intros H. now inversion H.
Qed.

Lemma all_granted_same h h' :
  oracle h' = oracle h -> all_granted h -> all_granted h'.
Proof. unfold all_granted. now intros ->. Qed.

(** [SliceAppend] on a full slice, when the allocator grants the growth and
    neither the byte count nor the new capacity overflows. *)
Lemma SliceAppend_full h s st dat v :
  wf_slice h s st -> len st = cap st -> answer h = true ->
  (cap st + elSize st) * elSize st * 2 <= uint_max ->
  (cap st + 1) * 2 <= int_max ->
  read h dat (elSize st) = Some v ->
  (forall b o, dat = Ptr b o -> head st <> Ptr b 0) ->
  let nb := length (objs h) in
  exists h',
    SliceAppend s dat h = Ret s h' /\
    wf_slice h' s (bump (grown st (Ptr nb 0))) /\
    elem h' s (len st) = Some v /\
    (forall j, 0 <= j < len st -> elem h' s j = elem h s j) /\
    (forall b, (b < nb)%nat -> s <> Ptr b 0 -> head st <> Ptr b 0 ->
       objs h' !! b = objs h !! b) /\
    head st <> Ptr nb 0 /\
    (forall b, head st = Ptr b 0 -> objs h' !! b = Some Freed) /\
    oracle h' = tl (oracle h) /\ length (objs h') = S nb.
Proof.
  intros W Hfull Hans Hfit Hcapfit Hv Hdat nb.
  pose proof W as (L & Hlen & Hcap & HE & Hoff & bb & d & Hh & Hb & Hsz).
  destruct L as (sb & -> & Hs).
  assert (Hsb : (sb < nb)%nat) by (eapply lookup_lt_Some; eauto).
  assert (Hbb : (bb < nb)%nat) by (eapply lookup_lt_Some; eauto).
  assert (Hd : sb <> bb) by (intros ->; congruence).
  assert (Hprod : len st * elSize st = cap st * elSize st) by now rewrite Hfull.
  rewrite (SliceAppend_grow h sb bb st d dat Hs Hfull Hh Hb), Hans.
  assert (Hi : in_intb (cap st + 1) && in_intb ((cap st + 1) * 2) = true).
  { unfold in_intb, int_min, int_max in *. apply andb_true_iff.
    split; apply andb_true_iff; split; apply Z.leb_le; lia. }
  rewrite Hi. fold nb.
  set (st2 := grown st (Ptr nb 0)).
  set (d2 := resize (Z.to_nat (grow_bytes st)) Undef d).
  set (h2 := mkHeap _ _).
  assert (Hgb : grow_bytes st = (cap st + elSize st) * elSize st * 2)
    by (apply grow_bytes_exact; lia).
  assert (Hgb' : (cap st + 1) * 2 * elSize st <= grow_bytes st)
    by (apply grow_bytes_enough; lia).
  assert (Hld2 : Z.of_nat (length d2) = grow_bytes st).
  { unfold d2. rewrite length_resize. apply Z2Nat.id. rewrite Hgb. nia. }
  assert (Hs2 : objs h2 !! sb = Some (Struct st2)).
  { unfold h2. simpl. apply list_lookup_insert_eq.
    rewrite length_insert, length_app. fold nb. lia. }
  assert (Hb2 : objs h2 !! nb = Some (Raw d2)).
  { unfold h2. simpl. rewrite !list_lookup_insert_ne by lia.
    rewrite lookup_app_r by (unfold nb; lia).
    now replace (nb - length (objs h))%nat with 0%nat by (unfold nb; lia). }
  assert (Hf2 : objs h2 !! bb = Some Freed).
  { unfold h2. simpl. rewrite list_lookup_insert_ne by auto.
    apply list_lookup_insert_eq. rewrite length_app. fold nb. lia. }
  assert (Hv2 : read h2 dat (elSize st) = Some v).
  { destruct dat as [|b o]; [discriminate|].
    assert (Hne : b <> bb) by (intros ->; apply (Hdat bb o); auto).
    rewrite <- Hv. apply read_frame. rewrite read_Ptr in Hv.
    destruct (objs h !! b) as [[| db | |]|] eqn:Eb; try discriminate.
    assert (b <> sb) by (intros ->; congruence).
    assert ((b < nb)%nat) by (eapply lookup_lt_Some; eauto).
    unfold h2. simpl. rewrite !list_lookup_insert_ne by auto.
    now rewrite lookup_app_l. }
  destruct (read_length _ _ _ _ Hv) as [Hlv _].
  assert (Hov : overlap (Ptr nb (len st * elSize st)) dat (elSize st) = false).
  { destruct dat as [|b o]; [reflexivity|]. simpl.
    destruct (Nat.eqb_spec nb b) as [<-|]; [|reflexivity].
    exfalso. rewrite read_Ptr in Hv.
    rewrite (proj2 (lookup_ge_None (objs h) nb)) in Hv by (unfold nb; lia).
    discriminate. }
  assert (Hin2 : len st * elSize st + elSize st <= Z.of_nat (length d2)) by nia.
  assert (A1 : 0 <= len st2 < int_max)
    by (unfold st2; cbn [grown len]; unfold int_max in *; lia).
  assert (A2 : 0 <= elSize st2) by (unfold st2; cbn [grown elSize]; lia).
  assert (A3 : len st2 * elSize st2 <= uint_max)
    by (unfold st2; cbn [grown len elSize]; lia).
  rewrite (append_tail_eq h2 sb nb st2 d2 dat Hs2 eq_refl Hb2 A1 A2 A3).
  change (len st2) with (len st). change (elSize st2) with (elSize st).
  rewrite Hv2, Hov.
  assert (Hnn : 0 <= len st * elSize st) by (apply Z.mul_nonneg_nonneg; lia).
  rewrite (proj2 (in_bounds_true _ _ _)) by (repeat split; lia).
  eexists. split; [reflexivity|].
  destruct (appended_elems h2 sb nb st2 d2 v Hs2 eq_refl Hb2 A1)
    as (L' & Hnew & Hkeep); [exact Hlv|exact Hin2|exact A3|].
  cbv zeta in L', Hnew, Hkeep.
  change (len st2) with (len st) in *. change (elSize st2) with (elSize st) in *.
  set (h' := mkHeap (<[sb:=Struct (bump st2)]> _) _) in *.
  assert (Hold : forall j, 0 <= j < len st ->
            elem h (Ptr sb 0) j =
            Some (take (Z.to_nat (elSize st)) (drop (Z.to_nat (j * elSize st)) d))).
  { intros j Hj.
    rewrite (elem_eq h (Ptr sb 0) st bb j)
      by (try (exists sb; auto); auto; unfold int_max in *; try lia; nia).
    apply read_Raw; auto; try lia; nia. }
  assert (Hb' : objs h' !! nb =
                Some (Raw (splice d2 v (Z.to_nat (len st * elSize st))))).
  { unfold h'. cbn [objs]. rewrite list_lookup_insert_ne by lia.
    apply list_lookup_insert_eq. unfold h2. cbn [objs].
    rewrite !length_insert, length_app. simpl. fold nb. lia. }
  split.
  { split; [exact L'|]. unfold st2. cbn [bump grown len cap elSize head].
    split; [lia|]. split; [lia|]. split; [lia|]. split; [nia|].
    eexists _, _. split; [reflexivity|]. split; [exact Hb'|].
    rewrite splice_length by lia. nia. }
  split; [exact Hnew|]. split.
  { intros j Hj. rewrite Hkeep, Hold by lia. f_equal.
    unfold d2. apply resize_prefix; nia. }
  split.
  { intros b Hbn Hn1 Hn2. unfold h', h2. cbn [objs].
    assert (b <> sb) by congruence. assert (b <> bb) by congruence.
    rewrite !list_lookup_insert_ne by lia. now apply lookup_app_l. }
  split; [rewrite Hh; intros [= ?]; lia|]. split.
  { intros b Hhb. rewrite Hh in Hhb. injection Hhb as <-.
    unfold h'. cbn [objs]. rewrite !list_lookup_insert_ne by lia. exact Hf2. }
  split; [reflexivity|].
  unfold h', h2. cbn [objs]. rewrite !length_insert, length_app. simpl. lia.
Qed.

(** One more append to a slice that has been appended to since [h0]: the
    element is read from a block of [h0] that is not the first buffer. *)
Lemma append_step h0 s st0 h st vs dat v :
  holds h s st vs -> grown_from h0 s st0 h st -> all_granted h ->
  read h0 dat (elSize st0) = Some v ->
  (forall b o, dat = Ptr b o -> s <> Ptr b 0 /\ head st0 <> Ptr b 0) ->
  (len st = cap st ->
     (cap st + elSize st0) * elSize st0 * 2 <= uint_max /\
     (cap st + 1) * 2 <= int_max) ->
  exists h' st',
    SliceAppend s dat h = Ret s h' /\
    holds h' s st' (vs ++ [v]) /\ grown_from h0 s st0 h' st' /\
    all_granted h' /\ (len st < cap st -> st' = bump st).
Proof.
  intros (W & Hl & Hel) (HE & Hfr & Hhd & Hlo) Hgr Hv0 Hdat Hfit.
  pose proof W as (L & Hlen & Hcap & HEr & Hoff & bb & d & Hh & Hb & Hsz).
  assert (Hbuf : forall b o, dat = Ptr b o ->
            (b < length (objs h0))%nat /\ head st <> Ptr b 0 /\
            objs h !! b = objs h0 !! b).
  { intros b o ->. destruct (Hdat b o eq_refl) as [Hn1 Hn2].
    assert (Hb0 : (b < length (objs h0))%nat).
    { rewrite read_Ptr in Hv0.
      destruct (objs h0 !! b) as [ob|] eqn:Eb; [|discriminate].
      eapply lookup_lt_Some; eauto. }
    split; [exact Hb0|]. split; [|now apply Hfr].
    intros Hhb. destruct (Hhd b Hhb) as [?|?]; [contradiction|lia]. }
  assert (Hv : read h dat (elSize st) = Some v).
  { rewrite HE, <- Hv0. destruct dat as [|b o]; [reflexivity|].
    apply read_frame. now apply (Hbuf b o). }
  assert (Hdat' : forall b o, dat = Ptr b o -> head st <> Ptr b 0).
  { intros b o Hd. now apply (Hbuf b o). }
  assert (Hframe : forall h' : heap,
            (forall b, (b < length (objs h))%nat -> s <> Ptr b 0 ->
               head st <> Ptr b 0 -> objs h' !! b = objs h !! b) ->
            forall b, (b < length (objs h0))%nat -> s <> Ptr b 0 ->
              head st0 <> Ptr b 0 -> objs h' !! b = objs h0 !! b).
  { intros h' Hf b Hb0 Hn1 Hn2. rewrite <- (Hfr b) by auto.
    apply Hf; [lia|auto|].
    intros Hhb. destruct (Hhd b Hhb) as [?|?]; [contradiction|lia]. }
  assert (Hholds : forall h' st',
            wf_slice h' s st' -> len st' = len st + 1 ->
            elem h' s (len st) = Some v ->
            (forall j, 0 <= j < len st -> elem h' s j = elem h s j) ->
            holds h' s st' (vs ++ [v])).
  { intros h' st' W' Hl' Hnew Hkeep. split; [exact W'|]. split.
    { rewrite length_app. simpl. lia. }
    intros j x Hj. apply lookup_app_Some in Hj as [Hj|[Hge Hj]].
    - rewrite Hkeep; [now apply Hel|].
      apply lookup_lt_Some in Hj. lia.
    - destruct (j - length vs)%nat eqn:Ej; [|discriminate].
      injection Hj as <-. replace (Z.of_nat j) with (len st) by lia.
      exact Hnew. }
  destruct (Z.eq_dec (len st) (cap st)) as [Hfull|Hroom].
  - destruct (SliceAppend_full h s st dat v W Hfull
                (all_granted_answer h Hgr))
      as (h' & Hrun & W' & Hnew & Hkeep & Hfr' & Hnb & Hfreed & Hor & Hlo'); auto.
    { rewrite HE. now apply Hfit. }
    { now apply Hfit. }
    exists h', (bump (grown st (Ptr (length (objs h)) 0))).
    split; [exact Hrun|]. split.
    { apply Hholds; auto. }
    split.
    { split; [exact HE|]. split; [now apply Hframe|].
      split; [|lia]. intros b [= <-]. right. lia. }
    split; [|lia].
    unfold all_granted. rewrite Hor. apply (all_granted_tl h (objs h) Hgr).
  - destruct (SliceAppend_room h s st dat v W ltac:(lia) Hv Hdat')
      as (h' & Hrun & W' & Hnew & Hkeep & Hfr' & Hor & Hlo').
    exists h', (bump st). split; [exact Hrun|]. split.
    { apply Hholds; auto. }
    split.
    { split; [exact HE|]. split.
      { apply Hframe. intros b _. apply Hfr'. }
      split; [exact Hhd|lia]. }
    split; [now apply (all_granted_same h h')|reflexivity].
Qed.

Lemma growth_fits_full E n (st : Slice) :
  growth_fits E n -> 0 <= E -> 0 <= cap st < n ->
  (cap st + E) * E * 2 <= uint_max /\ (cap st + 1) * 2 <= int_max.
Proof. intros [H1 H2] HE Hc. split; [nia|lia]. Qed.

(** Another slice of [h0], apart from [s], is not affected by the appends
    to [s]. *)
Lemma grown_from_other h0 s st0 h st s' st' vs' :
  grown_from h0 s st0 h st -> wf_slice h0 s st0 ->
  holds h0 s' st' vs' -> s' <> s -> head st' <> head st0 ->
  holds h s' st' vs'.
Proof.
  intros (HE & Hfr & Hhd & Hlo) W0 (W' & Hl' & Hel') Hne Hbuf.
  pose proof W0 as ((sb & -> & Hs) & _ & _ & _ & _ & bb & d & Hh & Hb & _).
  pose proof W' as ((sb' & -> & Hs') & Hlen & Hcap & HEr & Hoff & bb' & d' &
                    Hh' & Hb' & Hsz).
  assert (E1 : objs h !! sb' = objs h0 !! sb').
  { apply Hfr; [eapply lookup_lt_Some; eauto|congruence|].
    rewrite Hh. intros [= ->]. congruence. }
  assert (E2 : objs h !! bb' = objs h0 !! bb').
  { apply Hfr; [eapply lookup_lt_Some; eauto|intros [= ->]; congruence|].
    congruence. }
  assert (L : live_slice h (Ptr sb' 0) st') by (exists sb'; rewrite E1; auto).
  split.
  { split; [exact L|]. repeat (split; [lia|]).
    exists bb', d'. rewrite E2. auto. }
  split; [exact Hl'|].
  intros j v Hj. rewrite <- (Hel' j v Hj).
  apply (elem_frame h0 h (Ptr sb' 0) st' bb'); auto. exists sb'; auto.
Qed.

Lemma grown_from_refl h s st : grown_from h s st h st.
Proof. repeat split; auto. Qed.

Lemma SliceGet_in_range h s st bb i :
  wf_slice h s st -> head st = Ptr bb 0 -> 0 <= i < len st ->
  SliceGet s i h = Ret (Ptr bb (i * elSize st)) h.
Proof.
  intros (L & Hlen & Hcap & HE & Hoff & _) Hh Hi.
  rewrite (SliceGet_spec h s st i L)
    by (unfold in_int, int_min, int_max in *; lia).
  unfold resolve. rewrite !(proj2 (Z.leb_le 0 i)) by lia.
  rewrite (proj2 (Z.ltb_lt i (len st))) by lia. simpl.
  rewrite Hh. simpl. rewrite uint_mul_small by (try lia; nia). reflexivity.
Qed.

(** The element [j] of a slice that holds [vs] is read behind the pointer of
    [SliceGet]. *)
Lemma holds_read h s st vs bb (j : nat) v :
  holds h s st vs -> head st = Ptr bb 0 -> vs !! j = Some v ->
  0 <= Z.of_nat j < len st /\
  read h (Ptr bb (Z.of_nat j * elSize st)) (elSize st) = Some v.
Proof.
  intros (W & Hl & Hel) Hh Hj.
  assert (Hlt : 0 <= Z.of_nat j < len st)
    by (apply lookup_lt_Some in Hj; lia).
  split; [exact Hlt|]. rewrite <- (Hel j v Hj).
  destruct W as (L & Hlen & Hcap & HE & Hoff & _).
  symmetry. apply elem_eq; auto; try lia; nia.
Qed.

Lemma extend_loop_run h0 s1 st1 vs1 s2 st2 vs2 (n : nat) :
  wf_slice h0 s1 st1 -> holds h0 s2 st2 vs2 ->
  s2 <> s1 -> head st2 <> head st1 -> elSize st2 = elSize st1 ->
  growth_fits (elSize st1) (len st1 + len st2) ->
  forall (fuel k : nat) h st,
  holds h s1 st (vs1 ++ take k vs2) -> len st1 = Z.of_nat (length vs1) ->
  grown_from h0 s1 st1 h st -> all_granted h ->
  (k + n)%nat = length vs2 -> (n < fuel)%nat ->
  exists h' st',
    extend_loop fuel s1 s2 (Z.of_nat k) h = Ret s1 h' /\
    holds h' s1 st' (vs1 ++ vs2) /\ grown_from h0 s1 st1 h' st' /\
    all_granted h'.
Proof.
  intros W1 H2 Hne Hbuf HE Hfit.
  pose proof H2 as (W2 & Hl2 & _).
  pose proof W2 as (L2 & Hlen2 & Hcap2 & _ & _ & bb2 & d2 & Hh2 & Hb2 & _).
  induction n as [|n IH]; intros fuel k h st Hh Hl1 Hg Hgr Hk Hfuel;
    (destruct fuel as [|fuel]; [lia|]); simpl;
    pose proof (grown_from_other h0 s1 st1 h st s2 st2 vs2 Hg W1 H2 Hne Hbuf)
      as H2'; pose proof H2' as (W2' & _ & _); pose proof W2' as (L2' & _).
  - rewrite (bind_Ret _ _ _ _ _ (load_Slice_live _ _ _ L2')).
    rewrite (proj2 (Z.ltb_ge (Z.of_nat k) (len st2))) by lia.
    exists h, st. split; [reflexivity|]. split; [|auto].
    rewrite take_ge in Hh by lia. exact Hh.
  - rewrite (bind_Ret _ _ _ _ _ (load_Slice_live _ _ _ L2')).
    rewrite (proj2 (Z.ltb_lt (Z.of_nat k) (len st2))) by lia.
    destruct (lookup_lt_is_Some_2 vs2 k ltac:(lia)) as [v Hv].
    destruct (holds_read h0 s2 st2 vs2 bb2 k v H2 Hh2 Hv) as [Hkr Hrd].
    rewrite (bind_Ret _ _ _ _ _ (SliceGet_in_range h s2 st2 bb2 _ W2' Hh2 Hkr)).
    destruct (append_step h0 s1 st1 h st (vs1 ++ take k vs2)
                (Ptr bb2 (Z.of_nat k * elSize st2)) v Hh Hg Hgr)
      as (h' & st' & Hrun & Hh' & Hg' & Hgr' & _); auto.
    { now rewrite <- HE. }
    { intros b o [= <- <-]. split; [|congruence].
      destruct W1 as ((sb1 & -> & Hs1) & _). intros [= ->]. congruence. }
    { intros Hfull. apply (growth_fits_full _ (len st1 + len st2)); auto.
      - destruct W1 as (_ & _ & _ & ? & _). lia.
      - destruct Hh as ((_ & ? & _) & Hl & _).
        rewrite <- Hfull, Hl, length_app, length_take. lia. }
    rewrite (bind_Ret _ _ _ _ _ Hrun).
    destruct W1 as ((sb1 & -> & Hs1) & W1'). cbn [is_null].
    unfold int_add.
    rewrite (bind_Ret _ _ _ _ _ (checked_in (Z.of_nat k + 1) h'
               ltac:(unfold in_int, int_min, int_max in *; lia))).
    replace (Z.of_nat k + 1) with (Z.of_nat (S k)) by lia.
    apply (IH fuel (S k) h' st'); auto; try lia.
    rewrite (take_S_r vs2 k v Hv), app_assoc. exact Hh'.
Qed.

Lemma store_Slice_live s st h u h' :
  store_Slice s st h = Ret u h' -> live_slice h' s st.
Proof.
  unfold store_Slice. destruct s as [|b ofs]; [discriminate|].
  destruct (ofs =? 0) eqn:Eo; [|discriminate]. apply Z.eqb_eq in Eo as ->.
  destruct (objs h !! b) as [[| | |]|] eqn:Eb; try discriminate;
    intros [= _ <-]; exists b; (split; [reflexivity|]); simpl;
    apply list_lookup_insert_eq; eapply lookup_lt_Some; eauto.
Qed.

Lemma memcpy_live dst src n h u h' s st :
  memcpy dst src n h = Ret u h' -> live_slice h s st -> live_slice h' s st.
Proof.
  unfold memcpy. intros Hrun (b & -> & Hl).
  apply bind_Ret_inv in Hrun as (vs & h1 & Hld & Hrun).
  rewrite load_bytes_read in Hld.
  destruct (read h src n); [|discriminate]. injection Hld as _ <-.
  destruct (overlap dst src n); [discriminate|].
  unfold store_bytes in Hrun. destruct dst as [|bd od]; [discriminate|].
  destruct (objs h !! bd) as [[| d | |]|] eqn:Ed; try discriminate.
  destruct (in_bounds _ _ _); [|discriminate]. injection Hrun as _ <-.
  exists b. split; [reflexivity|]. simpl.
  rewrite list_lookup_insert_ne; [exact Hl|]. intros ->. congruence.
Qed.

Lemma realloc_NULL p n h h' :
  realloc p n h = Ret NULL h' -> objs h' = objs h.
Proof.
  assert (Hm : forall h h', malloc n h = Ret NULL h' -> objs h' = objs h).
  { intros g g'. unfold malloc. intros Hrun.
    apply bind_Ret_inv in Hrun as (ok & g1 & Hn & Hrun).
    rewrite next_alloc_eq in Hn. injection Hn as <- <-.
    destruct (answer g); [discriminate|]. now injection Hrun as <-. }
  destruct p as [|b ofs]; [apply Hm|]. unfold realloc. intros Hrun.
  apply bind_Ret_inv in Hrun as (d & h1 & Hld & Hrun).
  assert (h1 = h) as ->.
  { unfold load_raw in Hld. destruct (ofs =? 0); [|discriminate].
    destruct (objs h !! b) as [[| | |]|]; try discriminate.
    now injection Hld. }
  apply bind_Ret_inv in Hrun as (ok & h2 & Hn & Hrun).
  rewrite next_alloc_eq in Hn. injection Hn as <- <-.
  destruct (answer h); [|now injection Hrun as <-].
  apply bind_Ret_inv in Hrun as (new & h3 & Ha & Hrun).
  injection Ha as <- <-.
  apply bind_Ret_inv in Hrun as (u & h4 & _ & Hrun). discriminate.
Qed.

(** What a return of [SliceAppend] says about the struct, whatever the state
    of the buffer: [NULL] and the struct as it was, or [s] and one element
    more. *)
Lemma SliceAppend_Ret_len s dat h p h' st :
  SliceAppend s dat h = Ret p h' -> live_slice h s st ->
  (p = NULL /\ live_slice h' s st) \/
  (p = s /\ exists st', live_slice h' s st' /\ len st' = len st + 1 /\
                        elSize st' = elSize st).
Proof.
  intros Hrun L. unfold SliceAppend in Hrun.
  rewrite (bind_Ret _ _ _ _ _ (load_Slice_live _ _ _ L)) in Hrun.
  apply bind_Ret_inv in Hrun as (g & h2 & Hg & Hrun).
  assert (Htail : forall st1, live_slice h2 s st1 -> len st1 = len st ->
            elSize st1 = elSize st -> g = Some st1 ->
            p = s /\ exists st', live_slice h' s st' /\ len st' = len st + 1 /\
                                 elSize st' = elSize st).
  { intros st1 L1 Hl1 HE1 ->.
    apply bind_Ret_inv in Hrun as (el & h3 & Hel & Hrun).
    assert (h3 = h2) as ->.
    { unfold ptr_add in Hel. destruct (head st1); [discriminate|].
      now injection Hel. }
    apply bind_Ret_inv in Hrun as (u & h4 & Hcp & Hrun).
    apply bind_Ret_inv in Hrun as (l & h5 & Hl & Hrun).
    apply checked_Ret in Hl as (-> & -> & _).
    apply bind_Ret_inv in Hrun as (u' & h6 & Hst & Hrun).
    injection Hrun as <- <-. split; [reflexivity|].
    eexists. split; [eapply store_Slice_live; eauto|]. simpl. lia. }
  destruct (len st =? cap st).
  - apply bind_Ret_inv in Hg as (new & h3 & Hre & Hg).
    destruct new as [|nb no].
    + injection Hg as <- <-. injection Hrun as <- <-. left.
      split; [reflexivity|]. apply realloc_NULL in Hre.
      destruct L as (b & -> & Hl). exists b. now rewrite Hre.
    + cbn [is_null] in Hg.
      apply bind_Ret_inv in Hg as (c1 & h4 & Hc1 & Hg).
      apply checked_Ret in Hc1 as (-> & -> & _).
      apply bind_Ret_inv in Hg as (c2 & h5 & Hc2 & Hg).
      apply checked_Ret in Hc2 as (-> & -> & _).
      apply bind_Ret_inv in Hg as (u & h6 & Hst & Hg).
      injection Hg as <- <-. right.
      eapply Htail; [eapply store_Slice_live; eauto| | |]; reflexivity.
  - injection Hg as <- <-. right. now apply (Htail st).
Qed.

(** The loop of [SliceExtend] on one and the same slice never gets past its
    end. *)
Lemma extend_self_loop s (fuel : nat) :
  forall i h st p h',
  live_slice h s st -> 0 <= i < len st ->
  extend_loop fuel s s i h = Ret p h' -> p = NULL.
Proof.
  induction fuel as [|fuel IH]; intros i h st p h' L Hi Hrun; [discriminate|].
  simpl in Hrun.
  rewrite (bind_Ret _ _ _ _ _ (load_Slice_live _ _ _ L)) in Hrun.
  rewrite (proj2 (Z.ltb_lt i (len st))) in Hrun by lia.
  apply bind_Ret_inv in Hrun as (d & h1 & Hget & Hrun).
  apply SliceGet_heap in Hget as ->.
  apply bind_Ret_inv in Hrun as (r & h2 & Happ & Hrun).
  destruct (SliceAppend_Ret_len s d h r h2 st Happ L)
    as [[-> _]|(-> & st' & L' & Hl' & _)].
  - now injection Hrun as <-.
  - destruct L as (b & -> & _). cbn [is_null] in Hrun.
    apply bind_Ret_inv in Hrun as (i' & h3 & Hadd & Hrun).
    apply checked_Ret in Hadd as (-> & -> & _).
    apply (IH (i + 1) h2 st' p h' L'); [lia|exact Hrun].
Qed.

Lemma uint_mul_comm a b : uint_mul a b = uint_mul b a.
Proof. unfold uint_mul. now rewrite Z.mul_comm. Qed.

Lemma holds_nil_app h s st vs : holds h s st vs -> holds h s st ([] ++ vs).
Proof. auto. Qed.

Lemma append_array_loop_run h0 s st0 vs ab ao ws (n : nat) :
  wf_slice h0 s st0 -> len st0 = Z.of_nat (length vs) ->
  s <> Ptr ab 0 -> head st0 <> Ptr ab 0 ->
  (forall j w, ws !! j = Some w ->
     read h0 (Ptr ab (ao + Z.of_nat j * elSize st0)) (elSize st0) = Some w) ->
  growth_fits (elSize st0) (len st0 + Z.of_nat (length ws)) ->
  forall (fuel k : nat) h st,
  holds h s st (vs ++ take k ws) -> grown_from h0 s st0 h st ->
  all_granted h -> (k + n)%nat = length ws -> (n < fuel)%nat ->
  exists h' st',
    append_array_loop fuel s (Ptr ab ao) (Z.of_nat (length ws)) (Z.of_nat k) h
      = Ret s h' /\
    holds h' s st' (vs ++ ws) /\ grown_from h0 s st0 h' st' /\ all_granted h'.
Proof.
  intros W0 Hl0 Hn1 Hn2 Harr Hfit.
  pose proof W0 as (L0 & Hlen0 & Hcap0 & HE0 & _).
  pose proof Hfit as [Hf1 Hf2].
  assert (Hu : forall k : nat, (k <= length ws)%nat ->
            to_uint (Z.of_nat k) = Z.of_nat k).
  { intros k Hk. apply to_uint_small. unfold uint_max, int_max in *. lia. }
  induction n as [|n IH]; intros fuel k h st Hh Hg Hgr Hk Hfuel;
    (destruct fuel as [|fuel]; [lia|]); simpl; rewrite Hu by lia.
  - rewrite (proj2 (Z.ltb_ge _ _)) by lia.
    exists h, st. split; [reflexivity|]. split; [|auto].
    rewrite take_ge in Hh by lia. exact Hh.
  - rewrite (proj2 (Z.ltb_lt _ _)) by lia.
    pose proof Hh as (W & Hl & _). pose proof W as (L & Hlen & Hcap & _).
    pose proof Hg as (HE & _).
    rewrite (bind_Ret _ _ _ _ _ (load_Slice_live _ _ _ L)).
    destruct (lookup_lt_is_Some_2 ws k ltac:(lia)) as [w Hw].
    assert (Hoffs : uint_mul (elSize st) (Z.of_nat k) =
                    Z.of_nat k * elSize st0).
    { rewrite uint_mul_comm, HE.
      rewrite <- (uint_mul_small (Z.of_nat k) (elSize st0))
        by (try lia; unfold uint_max in *; nia).
      now rewrite Hu by lia. }
    cbn [ptr_add]. rewrite Hoffs.
    unfold bind at 1. unfold pure at 1.
    destruct (append_step h0 s st0 h st (vs ++ take k ws)
                (Ptr ab (ao + Z.of_nat k * elSize st0)) w Hh Hg Hgr)
      as (h' & st' & Hrun & Hh' & Hg' & Hgr' & _); auto.
    { intros b o [= <- _]. auto. }
    { intros Hfull.
      apply (growth_fits_full _ (len st0 + Z.of_nat (length ws))); auto;
        try lia.
      rewrite <- Hfull, Hl, length_app, length_take. lia. }
    rewrite (bind_Ret _ _ _ _ _ Hrun).
    destruct L as (sb & -> & Hs). cbn [is_null].
    unfold int_add.
    rewrite (bind_Ret _ _ _ _ _ (checked_in (Z.of_nat k + 1) h'
               ltac:(unfold in_int, int_min, int_max in *; lia))).
    replace (Z.of_nat k + 1) with (Z.of_nat (S k)) by lia.
    apply (IH fuel (S k) h' st'); auto; try lia.
    rewrite (take_S_r ws k w Hw), app_assoc. exact Hh'.
Qed.

(** X15.  [SliceExtend(s1, s2)] on two slices that are apart and have the same
    element size appends the elements of [s2], in order, to those of [s1]
    and leaves [s2] as it was, when the allocator grants every request, the
    growth arithmetic does not overflow and the fuel exceeds the length of
    [s2]. *)
Theorem SliceExtend_concat fuel h s1 st1 vs1 s2 st2 vs2 :
  holds h s1 st1 vs1 -> holds h s2 st2 vs2 ->
  s2 <> s1 -> head st2 <> head st1 -> elSize st2 = elSize st1 ->
  all_granted h -> growth_fits (elSize st1) (len st1 + len st2) ->
  (length vs2 < fuel)%nat ->
  exists h' st1',
    SliceExtend fuel s1 s2 h = Ret s1 h' /\
    holds h' s1 st1' (vs1 ++ vs2) /\ len st1' = len st1 + len st2 /\
    holds h' s2 st2 vs2.
Proof.
  intros H1 H2 Hne Hbuf HE Hgr Hfit Hfuel.
  pose proof H1 as (W1 & Hl1 & _). pose proof H2 as (_ & Hl2 & _).
  destruct (extend_loop_run h s1 st1 vs1 s2 st2 vs2 (length vs2) W1 H2 Hne
              Hbuf HE Hfit fuel 0%nat h st1)
    as (h' & st' & Hrun & Hh' & Hg' & _); auto.
  { rewrite take_0, app_nil_r. exact H1. }
  { apply grown_from_refl. }
  exists h', st'. split; [exact Hrun|]. split; [exact Hh'|]. split.
  { destruct Hh' as (_ & Hl' & _). rewrite Hl', length_app. lia. }
  now apply (grown_from_other h s1 st1 h' st').
Qed.

Lemma ex_holds : holds ex_heap (Ptr 1 0) ex_slice [[MByte x07]; [MByte x08]; [MByte x09]].
Proof.
  split; [exact ex_wf|]. split; [reflexivity|].
  intros [|[|[|j]]] v [= <-]; reflexivity.
Qed.

Lemma pair_holds1 :
  holds pair_heap (Ptr 1 0) ex_slice [[MByte x07]; [MByte x08]; [MByte x09]].
Proof.
  split.
  { split; [exists 1%nat; split; reflexivity|].
    unfold int_max, uint_max. simpl. repeat (split; [lia|]).
    eexists _, _. repeat split; simpl; lia. }
  split; [reflexivity|]. intros [|[|[|j]]] v [= <-]; reflexivity.
Qed.

Lemma pair_holds2 :
  holds pair_heap (Ptr 3 0) (mkSlice (Ptr 4 0) 2 2 1) [[MByte x08]; [MByte x09]].
Proof.
  split.
  { split; [exists 3%nat; split; reflexivity|].
    unfold int_max, uint_max. simpl. repeat (split; [lia|]).
    eexists _, _. repeat split; simpl; lia. }
  split; [reflexivity|]. intros [|[|j]] v [= <-]; reflexivity.
Qed.

Lemma growth_fits_small E n :
  0 <= E <= 1000 -> 0 <= n <= 1000 -> growth_fits E n.
Proof. intros HE Hn. unfold growth_fits, uint_max, int_max. nia. Qed.

Lemma SliceExtend_concat_witness :
  exists h' st1',
    SliceExtend 5 (Ptr 1 0) (Ptr 3 0) pair_heap = Ret (Ptr 1 0) h' /\
    holds h' (Ptr 1 0) st1'
      ([[MByte x07]; [MByte x08]; [MByte x09]] ++ [[MByte x08]; [MByte x09]]) /\
    len st1' = len ex_slice + 2 /\
    holds h' (Ptr 3 0) (mkSlice (Ptr 4 0) 2 2 1) [[MByte x08]; [MByte x09]].
Proof.
  apply (SliceExtend_concat 5 pair_heap (Ptr 1 0) ex_slice _ (Ptr 3 0)
           (mkSlice (Ptr 4 0) 2 2 1) _ pair_holds1 pair_holds2).
  - discriminate.
  - discriminate.
  - reflexivity.
  - apply Forall_nil_2.
  - apply growth_fits_small; simpl; lia.
  - simpl. lia.
Defined.

(** X16.  [SliceExtend(s, s)] on a non-empty slice never returns [s]: the bound
    of its loop is the length that the loop itself increases, so a return
    is the [NULL] of a refused growth. *)
Theorem SliceExtend_self_fails fuel h s st p h' :
  live_slice h s st -> 0 < len st ->
  SliceExtend fuel s s h = Ret p h' -> p = NULL.
Proof.
  intros L Hlen Hrun.
  apply (extend_self_loop s fuel 0 h st p h' L); [lia|exact Hrun].
Qed.

Lemma refusing_ex_live : live_slice (refusing ex_heap) (Ptr 1 0) ex_slice.
Proof. exists 1%nat. split; reflexivity. Qed.

Lemma SliceExtend_self_fails_witness :
  exists p h',
    SliceExtend 5 (Ptr 1 0) (Ptr 1 0) (refusing ex_heap) = Ret p h' /\
    p = NULL.
Proof.
  eexists _, _. split; [reflexivity|].
  eapply (SliceExtend_self_fails 5 (refusing ex_heap) (Ptr 1 0) ex_slice).
  - exact refusing_ex_live.
  - simpl. lia.
  - reflexivity.
Defined.

(** X14.  [SliceAppendArray(s, a, cnt)] appends the [cnt] consecutive elements
    found at [a], in order, when the array lies outside the slice, the
    allocator grants every request, the growth arithmetic does not overflow
    and the fuel exceeds [cnt]. *)
Theorem SliceAppendArray_appends fuel h s st vs ab ao ws :
  holds h s st vs -> s <> Ptr ab 0 -> head st <> Ptr ab 0 ->
  (forall j w, ws !! j = Some w ->
     read h (Ptr ab (ao + Z.of_nat j * elSize st)) (elSize st) = Some w) ->
  all_granted h ->
  growth_fits (elSize st) (len st + Z.of_nat (length ws)) ->
  (length ws < fuel)%nat ->
  exists h' st',
    SliceAppendArray fuel s (Ptr ab ao) (Z.of_nat (length ws)) h = Ret s h' /\
    holds h' s st' (vs ++ ws) /\
    len st' = len st + Z.of_nat (length ws).
Proof.
  intros Hh Hn1 Hn2 Harr Hgr Hfit Hfuel.
  pose proof Hh as (W & Hl & _).
  destruct (append_array_loop_run h s st vs ab ao ws (length ws) W Hl Hn1 Hn2
              Harr Hfit fuel 0%nat h st)
    as (h' & st' & Hrun & Hh' & _); auto.
  { rewrite take_0, app_nil_r. exact Hh. }
  { apply grown_from_refl. }
  exists h', st'. split; [exact Hrun|]. split; [exact Hh'|].
  destruct Hh' as (_ & Hl' & _). rewrite Hl', length_app. lia.
Qed.

Lemma SliceAppendArray_appends_witness :
  exists h' st',
    SliceAppendArray 5 (Ptr 1 0) (Ptr 0 0) 2 ex_heap = Ret (Ptr 1 0) h' /\
    holds h' (Ptr 1 0) st'
      ([[MByte x07]; [MByte x08]; [MByte x09]] ++ [[MByte x07]; [MByte x08]]) /\
    len st' = len ex_slice + 2.
Proof.
  apply (SliceAppendArray_appends 5 ex_heap (Ptr 1 0) ex_slice _ 0%nat 0
           [[MByte x07]; [MByte x08]] ex_holds).
  - discriminate.
  - discriminate.
  - intros [|[|j]] w [= <-]; reflexivity.
  - apply Forall_nil_2.
  - apply growth_fits_small; simpl; lia.
  - simpl. lia.
Defined.

(** X13.  On a full slice, [SliceAppend] of a pointer into the slice's own
    buffer (such as a result of [SliceGet]) never returns the slice: the
    growth releases the buffer before the element is copied, so the call
    returns the [NULL] of a refused growth or reads a released block. *)
Theorem SliceAppend_own_element h s st bb o p h' :
  wf_slice h s st -> len st = cap st -> head st = Ptr bb 0 ->
  SliceAppend s (Ptr bb o) h = Ret p h' -> p = NULL.
Proof.
  intros W Hfull Hh Hrun.
  pose proof W as (L & Hlen & Hcap & HE & Hoff & bb' & d & Hh' & Hb & Hsz).
  rewrite Hh in Hh'. injection Hh' as <-.
  destruct L as (sb & -> & Hs).
  rewrite (SliceAppend_grow h sb bb st d _ Hs Hfull Hh Hb) in Hrun.
  destruct (answer h); [|now injection Hrun as <-].
  destruct (in_intb (cap st + 1) && in_intb ((cap st + 1) * 2)) eqn:Ei;
    [|discriminate].
  apply andb_true_iff in Ei as [Ei1 _].
  unfold in_intb in Ei1. apply andb_true_iff in Ei1 as [_ Ei1].
  apply Z.leb_le in Ei1. exfalso.
  assert (Hsb : (sb < length (objs h))%nat) by (eapply lookup_lt_Some; eauto).
  assert (Hbb : (bb < length (objs h))%nat) by (eapply lookup_lt_Some; eauto).
  assert (Hd : sb <> bb) by (intros ->; congruence).
  set (nb := length (objs h)) in *.
  set (d2 := resize (Z.to_nat (grow_bytes st)) Undef d) in *.
  set (h2 := mkHeap _ _) in Hrun.
  assert (Hs2 : objs h2 !! sb = Some (Struct (grown st (Ptr nb 0)))).
  { unfold h2. simpl. apply list_lookup_insert_eq.
    rewrite length_insert, length_app. lia. }
  assert (Hb2 : objs h2 !! nb = Some (Raw d2)).
  { unfold h2. simpl. rewrite !list_lookup_insert_ne by lia.
    rewrite lookup_app_r by (unfold nb; lia).
    now replace (nb - length (objs h))%nat with 0%nat by (unfold nb; lia). }
  assert (Hf2 : read h2 (Ptr bb o) (elSize st) = None).
  { rewrite read_Ptr. unfold h2. simpl.
    rewrite list_lookup_insert_ne by auto.
    rewrite list_lookup_insert_eq by (rewrite length_app; lia). reflexivity. }
  assert (Hprod : len st * elSize st = cap st * elSize st) by now rewrite Hfull.
  rewrite (append_tail_eq h2 sb nb _ d2 _ Hs2 eq_refl Hb2) in Hrun
    by (cbn [grown len cap elSize]; unfold int_max in *; lia).
  cbn [grown len cap elSize] in Hrun. rewrite Hf2 in Hrun. discriminate.
Qed.

Lemma full_wf : wf_slice (refusing full_heap) (Ptr 1 0) full_slice.
Proof.
  split; [exists 1%nat; split; reflexivity|].
  unfold int_max, uint_max. simpl. repeat (split; [lia|]).
  eexists _, _. repeat split; simpl; lia.
Qed.

Lemma SliceAppend_own_element_witness :
  exists p h',
    (let* dat := SliceGet (Ptr 1 0) 1 in SliceAppend (Ptr 1 0) dat)
      (refusing full_heap) = Ret p h' /\ p = NULL.
Proof.
  eexists _, _. split; [reflexivity|].
  eapply (SliceAppend_own_element (refusing full_heap) (Ptr 1 0) full_slice
            2%nat 1).
  - exact full_wf.
  - reflexivity.
  - reflexivity.
  - reflexivity.
Defined.

(** ** Making and releasing slices: [NewSlice] and [DeleteSlice] *)

Lemma free_Ret p h u h' :
  free p h = Ret u h' ->
  oracle h' = oracle h /\
  (p = NULL /\ objs h' = objs h \/
   exists b, p = Ptr b 0 /\ (b < length (objs h))%nat /\
             objs h !! b <> Some Freed /\
             objs h' = <[b:=Freed]> (objs h)).
Proof.
  destruct p as [|b o]; simpl.
  - intros [= _ <-]. auto.
  - destruct (Z.eqb_spec o 0) as [->|]; [|discriminate].
    destruct (objs h !! b) as [[| | |]|] eqn:E; try discriminate;
      intros [= _ <-]; (split; [reflexivity|]); right; exists b;
      (split; [reflexivity|]); (split; [eapply lookup_lt_Some; eauto|]);
      (split; [congruence|reflexivity]).
Qed.

Lemma free_live h b o :
  objs h !! b = Some o -> o <> Freed ->
  free (Ptr b 0) h = Ret tt (mkHeap (<[b:=Freed]> (objs h)) (oracle h)).
Proof.
  intros E Ho. simpl. rewrite E. destruct o; congruence.
Qed.

Lemma load_Slice_Freed h b :
  objs h !! b = Some Freed -> load_Slice (Ptr b 0) h = Undefined.
Proof. intros E. simpl. now rewrite E. Qed.

Lemma wf_blocks h s st :
  wf_slice h s st ->
  exists sb bb d, s = Ptr sb 0 /\ head st = Ptr bb 0 /\ sb <> bb /\
    objs h !! sb = Some (Struct st) /\ objs h !! bb = Some (Raw d) /\
    (sb < length (objs h))%nat /\ (bb < length (objs h))%nat /\
    cap st * elSize st <= Z.of_nat (length d).
Proof.
  intros (L & Hlen & Hcap & HE & Hoff & bb & d & Hh & Hb & Hsz).
  destruct L as (sb & -> & Hs).
  exists sb, bb, d. repeat (split; [first [reflexivity|assumption]|]).
  split; [congruence|]. repeat (split; [assumption|]).
  split; [eapply lookup_lt_Some; eauto|].
  split; [eapply lookup_lt_Some; eauto|assumption].
Qed.

(** X2.  [NewSlice] with a negative capacity returns [NULL] whatever the
    allocator answers, and when the allocator granted the struct the block
    stays allocated: the test of [cap] comes after the [malloc] and its
    [return NULL] does not release the struct. *)
Theorem NewSlice_negative_cap h E c :
  c < 0 ->
  exists h',
    NewSlice E c h = Ret NULL h' /\
    objs h' = (if answer h then objs h ++ [Fresh] else objs h).
Proof.
  intros Hc. unfold NewSlice, malloc_Slice.
  unfold bind at 1. unfold bind at 1. rewrite next_alloc_eq.
  destruct (answer h).
  - unfold alloc_obj. rewrite (proj2 (Z.ltb_lt c 0)) by lia.
    cbn [orb]. eexists. split; reflexivity.
  - unfold pure at 1. cbn [is_null]. rewrite orb_true_r.
    eexists. split; reflexivity.
Qed.

Lemma NewSlice_negative_cap_witness :
  exists h',
    NewSlice 4 (-1) ex_heap = Ret NULL h' /\
    objs h' = (if answer ex_heap then objs ex_heap ++ [Fresh] else objs ex_heap).
Proof. apply (NewSlice_negative_cap ex_heap 4 (-1)). lia. Defined.

(** X3.  When [NewSlice] returns [NULL] for a capacity that is not negative,
    the allocator refused the struct or the buffer, and no block stays
    allocated: the objects of the caller are as before and the struct, if it
    was granted, is released again. *)
Theorem NewSlice_failure_releases h E c h' :
  0 <= c <= int_max -> NewSlice E c h = Ret NULL h' ->
  (answer h = false /\ objs h' = objs h) \/
  (answer h = true /\ answer (asked h) = false /\
   objs h' = objs h ++ [Freed]).
Proof.
  intros Hc. rewrite NewSlice_cases by exact Hc.
  destruct (answer h).
  - destruct (answer (asked h)); [discriminate|].
    intros [= <-]. right. auto.
  - intros [= <-]. left. auto.
Qed.

Lemma NewSlice_failure_releases_witness :
  let h := refusing ex_heap in
  let h' := mkHeap (objs ex_heap) [] in
  NewSlice 1 2 h = Ret NULL h' /\
  ((answer h = false /\ objs h' = objs h) \/
   (answer h = true /\ answer (asked h) = false /\
    objs h' = objs h ++ [Freed])).
Proof.
  cbv zeta. split; [reflexivity|].
  apply (NewSlice_failure_releases (refusing ex_heap) 1 2
           (mkHeap (objs ex_heap) [])).
  - unfold int_max. lia.
  - reflexivity.
Defined.

(** The slice that a successful [NewSlice] leaves in the heap. *)
Lemma with_new_slice_wf h E c :
  0 <= c <= int_max -> 0 <= E <= uint_max -> c * E <= uint_max ->
  wf_slice (with_new_slice h E c) (Ptr (length (objs h)) 0)
           (mkSlice (Ptr (S (length (objs h))) 0) 0 c E) /\
  objs (with_new_slice h E c) !! S (length (objs h))
    = Some (Raw (replicate (Z.to_nat (c * E)) (MByte x00))) /\
  (forall b, (b < length (objs h))%nat ->
     objs (with_new_slice h E c) !! b = objs h !! b).
Proof.
  intros Hc HE Hsz.
  set (nb := length (objs h)).
  set (h1 := with_new_slice h E c).
  assert (Hs1 : objs h1 !! nb = Some (Struct (mkSlice (Ptr (S nb) 0) 0 c E))).
  { unfold h1, with_new_slice. simpl. rewrite lookup_app_r by (unfold nb; lia).
    unfold nb. now rewrite Nat.sub_diag. }
  assert (Hb1 : objs h1 !! S nb
                = Some (Raw (replicate (Z.to_nat (c * E)) (MByte x00)))).
  { unfold h1, with_new_slice. simpl. rewrite lookup_app_r by (unfold nb; lia).
    replace (S nb - length (objs h))%nat with 1%nat by (unfold nb; lia).
    reflexivity. }
  split; [|split; [exact Hb1|]].
  - split; [exists nb; auto|]. simpl. repeat (split; [lia|]).
    eexists _, _. split; [reflexivity|]. split; [exact Hb1|].
    rewrite length_replicate. nia.
  - intros b Hb. unfold h1, with_new_slice. simpl. now rewrite lookup_app_l.
Qed.

(** X1.  A successful [NewSlice(elSize, cap)] returns a new slice that
    satisfies the data model, is empty ([SliceGet] returns [NULL] at every
    index), has the capacity and element size asked for and a buffer of
    [cap * elSize] zero bytes; the objects of the caller are untouched. *)
Theorem NewSlice_fresh h E c :
  answer h = true -> answer (asked h) = true ->
  0 <= c <= int_max -> 0 <= E <= uint_max -> c * E <= uint_max ->
  exists r h' rst,
    NewSlice E c h = Ret r h' /\ r <> NULL /\
    holds h' r rst [] /\ cap rst = c /\ elSize rst = E /\
    read h' (head rst) (c * E)
      = Some (replicate (Z.to_nat (c * E)) (MByte x00)) /\
    (forall i, in_int i -> SliceGet r i h' = Ret NULL h') /\
    (forall b, (b < length (objs h))%nat -> objs h' !! b = objs h !! b).
Proof.
  intros A1 A2 Hc HE Hsz.
  destruct (with_new_slice_wf h E c Hc HE Hsz) as (Wr & Hb1 & Hfr).
  set (nb := length (objs h)) in *.
  set (rst := mkSlice (Ptr (S nb) 0) 0 c E) in *.
  set (h1 := with_new_slice h E c) in *.
  pose proof Wr as (L1 & _).
  exists (Ptr nb 0), h1, rst.
  split; [now apply NewSlice_ok|]. split; [discriminate|].
  split.
  { split; [exact Wr|]. split; [reflexivity|].
    intros j v Hj. now rewrite lookup_nil in Hj. }
  split; [reflexivity|]. split; [reflexivity|].
  split.
  { assert (Hp : 0 <= c * E) by nia.
    pose proof (read_Raw h1 (S nb) 0 (c * E) _ Hb1) as Hr.
    rewrite length_replicate in Hr. simpl. rewrite Hr by lia.
    change (Z.to_nat 0) with 0%nat. rewrite drop_0, take_ge; [reflexivity|].
    rewrite length_replicate. lia. }
  split; [|exact Hfr].
  intros i Hi. rewrite (SliceGet_spec h1 (Ptr nb 0) rst i L1);
    [|simpl; unfold int_max; lia|exact Hi].
  assert (Hout : (0 <=? resolve rst i) && (resolve rst i <? len rst) = false).
  { apply andb_false_iff. rewrite Z.leb_gt, Z.ltb_ge. unfold resolve.
    cbn [len rst].
    destruct (0 <=? i) eqn:Ei; [right; apply Z.leb_le in Ei; lia|].
    left. apply Z.leb_gt in Ei. lia. }
  now rewrite Hout.
Qed.

Lemma NewSlice_fresh_witness :
  exists r h' rst,
    NewSlice 4 3 ex_heap = Ret r h' /\ r <> NULL /\
    holds h' r rst [] /\ cap rst = 3 /\ elSize rst = 4 /\
    read h' (head rst) (3 * 4)
      = Some (replicate (Z.to_nat (3 * 4)) (MByte x00)) /\
    (forall i, in_int i -> SliceGet r i h' = Ret NULL h') /\
    (forall b, (b < length (objs ex_heap))%nat ->
       objs h' !! b = objs ex_heap !! b).
Proof.
  apply (NewSlice_fresh ex_heap 4 3); try reflexivity;
    unfold int_max, uint_max; lia.
Defined.

(** X4.  [DeleteSlice] of a slice that satisfies the data model returns and
    releases exactly two blocks, the struct and the buffer; every other
    object and the allocator are as before. *)
Theorem DeleteSlice_releases h s st :
  wf_slice h s st ->
  exists h',
    DeleteSlice s h = Ret tt h' /\
    (forall b, s = Ptr b 0 \/ head st = Ptr b 0 -> objs h' !! b = Some Freed) /\
    (forall b, s <> Ptr b 0 -> head st <> Ptr b 0 ->
       objs h' !! b = objs h !! b) /\
    oracle h' = oracle h.
Proof.
  intros W.
  destruct (wf_blocks h s st W)
    as (sb & bb & d & -> & Hh & Hd & Hs & Hb & Hsb & Hbb & _).
  unfold DeleteSlice.
  rewrite (bind_Ret _ _ h st h) by (apply load_Slice_live; exists sb; auto).
  rewrite Hh.
  erewrite bind_Ret by (apply (free_live h bb (Raw d)); [exact Hb|discriminate]).
  erewrite free_live;
    [|simpl; rewrite list_lookup_insert_ne by auto; exact Hs|discriminate].
  eexists. split; [reflexivity|]. simpl.
  split.
  { intros b [[= <-]|[= <-]].
    - apply list_lookup_insert_eq. now rewrite length_insert.
    - rewrite list_lookup_insert_ne by auto.
      now apply list_lookup_insert_eq. }
  split; [|reflexivity].
  intros b H1 H2. rewrite !list_lookup_insert_ne; congruence.
Qed.

Lemma DeleteSlice_releases_witness :
  exists h',
    DeleteSlice (Ptr 1 0) ex_heap = Ret tt h' /\
    (forall b, Ptr 1 0 = Ptr b 0 \/ head ex_slice = Ptr b 0 ->
       objs h' !! b = Some Freed) /\
    (forall b, Ptr 1 0 <> Ptr b 0 -> head ex_slice <> Ptr b 0 ->
       objs h' !! b = objs ex_heap !! b) /\
    oracle h' = oracle ex_heap.
Proof. apply (DeleteSlice_releases ex_heap (Ptr 1 0) ex_slice ex_wf). Defined.

(** X5.  Once [DeleteSlice(s)] has returned, a further call of the library on
    [s] has undefined behaviour, as its first step reads the released
    struct; that includes a second [DeleteSlice(s)]. *)
Theorem DeleteSlice_then_undefined h s u h' :
  DeleteSlice s h = Ret u h' ->
  (forall i, SliceGet s i h' = Undefined) /\
  (forall dat, SliceAppend s dat h' = Undefined) /\
  (forall fuel i1 i2 step, SliceSlice fuel s i1 i2 step h' = Undefined) /\
  SliceEmpty s h' = Undefined /\
  DeleteSlice s h' = Undefined.
Proof.
  intros Hrun. unfold DeleteSlice in Hrun.
  apply bind_Ret_inv in Hrun as (st & h1 & Hl & Hrun).
  apply load_Slice_Ret in Hl as (-> & sb & -> & Hs).
  apply bind_Ret_inv in Hrun as ([] & h2 & Hf1 & Hf2).
  apply free_Ret in Hf2 as (_ & [[? _]|(b & [= <-] & Hb & _ & Ho)]);
    [discriminate|].
  assert (Hfreed : load_Slice (Ptr sb 0) h' = Undefined).
  { apply load_Slice_Freed. rewrite Ho. now apply list_lookup_insert_eq. }
  repeat split; intros;
    unfold SliceGet, SliceAppend, SliceSlice, SliceEmpty, DeleteSlice;
    unfold bind at 1; now rewrite Hfreed.
Qed.

Lemma DeleteSlice_then_undefined_witness :
  exists h',
    DeleteSlice (Ptr 1 0) ex_heap = Ret tt h' /\
    DeleteSlice (Ptr 1 0) h' = Undefined.
Proof.
  eexists. split; [reflexivity|].
  eapply (DeleteSlice_then_undefined ex_heap (Ptr 1 0) tt). reflexivity.
Defined.

(** ** Emptying a slice: [SliceEmpty] *)

Lemma free_Freed h b : objs h !! b = Some Freed -> free (Ptr b 0) h = Undefined.
Proof. intros E. simpl. now rewrite E. Qed.

Lemma load_raw_Freed h b :
  objs h !! b = Some Freed -> load_raw (Ptr b 0) h = Undefined.
Proof. intros E. simpl. now rewrite E. Qed.

Lemma store_bytes_Freed h b o vs :
  objs h !! b = Some Freed -> store_bytes (Ptr b o) vs h = Undefined.
Proof. intros E. simpl. now rewrite E. Qed.

(** [SliceEmpty] on a slice that satisfies the data model, by the answer of
    the allocator. *)
Lemma SliceEmpty_eq h s st :
  wf_slice h s st ->
  exists sb bb, s = Ptr sb 0 /\ head st = Ptr bb 0 /\ sb <> bb /\
    (sb < length (objs h))%nat /\ (bb < length (objs h))%nat /\
    SliceEmpty s h =
      if answer h then
        Ret s (mkHeap (<[sb := Struct (mkSlice (Ptr (length (objs h)) 0) 0 0
                                               (elSize st))]>
                         (<[bb := Freed]> (objs h) ++ [Raw []]))
                      (tl (oracle h)))
      else Ret NULL (mkHeap (<[bb := Freed]> (objs h)) (tl (oracle h))).
Proof.
  intros W.
  destruct (wf_blocks h s st W)
    as (sb & bb & d & -> & Hh & Hd & Hs & Hb & Hsb & Hbb & _).
  exists sb, bb. repeat (split; [first [reflexivity|assumption]|]).
  unfold SliceEmpty.
  rewrite (bind_Ret _ _ h st h) by (apply load_Slice_live; exists sb; auto).
  rewrite Hh.
  erewrite bind_Ret by (apply (free_live h bb (Raw d)); [exact Hb|discriminate]).
  unfold malloc. unfold bind at 1. unfold bind at 1.
  rewrite next_alloc_eq. change (answer (mkHeap _ (oracle h))) with (answer h).
  destruct (answer h); [|reflexivity].
  unfold alloc_obj. cbn [objs asked oracle is_null].
  unfold bind, store_Slice, pure. cbn [objs oracle].
  rewrite Z.eqb_refl, length_insert.
  rewrite lookup_app_l by (rewrite length_insert; lia).
  rewrite list_lookup_insert_ne by auto. rewrite Hs.
  reflexivity.
Qed.

(** X17.  When the allocator grants the request, [SliceEmpty(s)] returns [s]
    as an empty slice of capacity [0] with the element size it had, again
    inside the data model; the old buffer is released and the other objects
    of the heap are untouched. *)
Theorem SliceEmpty_resets h s st :
  wf_slice h s st -> answer h = true ->
  exists h' st',
    SliceEmpty s h = Ret s h' /\ holds h' s st' [] /\
    cap st' = 0 /\ elSize st' = elSize st /\
    (forall b, head st = Ptr b 0 -> objs h' !! b = Some Freed) /\
    (forall b, (b < length (objs h))%nat -> s <> Ptr b 0 ->
       head st <> Ptr b 0 -> objs h' !! b = objs h !! b).
Proof.
  intros W A.
  destruct (SliceEmpty_eq h s st W)
    as (sb & bb & -> & Hh & Hd & Hsb & Hbb & Hrun).
  rewrite A in Hrun.
  pose proof W as (_ & _ & _ & HE & _).
  eexists _, _. split; [exact Hrun|]. cbn [objs].
  assert (Hs' : (<[sb := Struct (mkSlice (Ptr (length (objs h)) 0) 0 0 (elSize st))]>
                   (<[bb := Freed]> (objs h) ++ [Raw []])) !! sb
                = Some (Struct (mkSlice (Ptr (length (objs h)) 0) 0 0 (elSize st)))).
  { apply list_lookup_insert_eq. rewrite length_app, length_insert. lia. }
  split.
  { split.
    - split; [exists sb; split; [reflexivity|exact Hs']|].
      cbn [len cap elSize head]. unfold int_max, uint_max in *.
      repeat (split; [lia|]).
      exists (length (objs h)), []. split; [reflexivity|]. split; [|simpl; lia].
      cbn [objs]. rewrite list_lookup_insert_ne by lia.
      rewrite lookup_app_r by (rewrite length_insert; lia).
      now rewrite length_insert, Nat.sub_diag.
    - split; [reflexivity|]. intros j v Hj. now rewrite lookup_nil in Hj. }
  split; [reflexivity|]. split; [reflexivity|].
  split.
  { intros b Hb. rewrite Hh in Hb. injection Hb as <-.
    rewrite list_lookup_insert_ne by auto.
    rewrite lookup_app_l by (rewrite length_insert; lia).
    now apply list_lookup_insert_eq. }
  intros b Hb H1 H2.
  rewrite list_lookup_insert_ne by congruence.
  rewrite lookup_app_l by (rewrite length_insert; lia).
  rewrite list_lookup_insert_ne by congruence. reflexivity.
Qed.

Lemma SliceEmpty_resets_witness :
  exists h' st',
    SliceEmpty (Ptr 1 0) ex_heap = Ret (Ptr 1 0) h' /\
    holds h' (Ptr 1 0) st' [] /\
    cap st' = 0 /\ elSize st' = elSize ex_slice /\
    (forall b, head ex_slice = Ptr b 0 -> objs h' !! b = Some Freed) /\
    (forall b, (b < length (objs ex_heap))%nat -> Ptr 1 0 <> Ptr b 0 ->
       head ex_slice <> Ptr b 0 -> objs h' !! b = objs ex_heap !! b).
Proof.
  apply (SliceEmpty_resets ex_heap (Ptr 1 0) ex_slice ex_wf). reflexivity.
Defined.

(** X18.  When the allocator refuses the request, [SliceEmpty(s)] returns
    [NULL] after it has released the buffer: the struct keeps its length,
    its capacity and the pointer to the released block, and a later
    [SliceAppend], [SliceEmpty] or [DeleteSlice] on [s] has undefined
    behaviour. *)
Theorem SliceEmpty_refused h s st :
  wf_slice h s st -> answer h = false ->
  exists h',
    SliceEmpty s h = Ret NULL h' /\ live_slice h' s st /\
    (forall b, head st = Ptr b 0 -> objs h' !! b = Some Freed) /\
    (forall dat, SliceAppend s dat h' = Undefined) /\
    SliceEmpty s h' = Undefined /\
    DeleteSlice s h' = Undefined.
Proof.
  intros W A.
  destruct (SliceEmpty_eq h s st W)
    as (sb & bb & -> & Hh & Hd & Hsb & Hbb & Hrun).
  rewrite A in Hrun.
  destruct (wf_blocks h _ st W)
    as (sb' & bb' & d & [= <-] & Hh' & _ & Hs & Hb & _).
  rewrite Hh in Hh'. injection Hh' as <-.
  eexists. split; [exact Hrun|].
  set (h' := mkHeap _ _).
  assert (Hs' : objs h' !! sb = Some (Struct st)).
  { unfold h'. cbn [objs]. now rewrite list_lookup_insert_ne by auto. }
  assert (Hb' : objs h' !! bb = Some Freed).
  { unfold h'. cbn [objs]. now apply list_lookup_insert_eq. }
  assert (L' : live_slice h' (Ptr sb 0) st) by (exists sb; auto).
  assert (Hfree : free (Ptr bb 0) h' = Undefined) by now apply free_Freed.
  split; [exact L'|]. split.
  { intros b Hb0. rewrite Hh in Hb0. now injection Hb0 as <-. }
  split.
  { intros dat. rewrite SliceAppend_unfold.
    rewrite (bind_Ret _ _ h' st h') by now apply load_Slice_live.
    destruct (len st =? cap st).
    - unfold bind at 1. unfold bind at 1. rewrite Hh. unfold realloc.
      unfold bind at 1. now rewrite (load_raw_Freed h' bb Hb').
    - unfold bind at 1. unfold pure at 1. unfold append_tail.
      rewrite Hh. simpl ptr_add. unfold bind at 1. unfold pure at 1.
      unfold memcpy. unfold bind at 1. unfold bind at 1.
      rewrite load_bytes_read.
      destruct (read h' dat (elSize st)); [|reflexivity].
      destruct (overlap _ _ _); [reflexivity|].
      now rewrite (store_bytes_Freed h' bb _ _ Hb'). }
  split.
  - unfold SliceEmpty.
    rewrite (bind_Ret _ _ h' st h') by now apply load_Slice_live.
    rewrite Hh. unfold bind at 1. now rewrite Hfree.
  - unfold DeleteSlice.
    rewrite (bind_Ret _ _ h' st h') by now apply load_Slice_live.
    rewrite Hh. unfold bind at 1. now rewrite Hfree.
Qed.

Lemma SliceEmpty_refused_witness :
  exists h',
    SliceEmpty (Ptr 1 0) (refusing ex_heap) = Ret NULL h' /\
    live_slice h' (Ptr 1 0) ex_slice /\
    (forall b, head ex_slice = Ptr b 0 -> objs h' !! b = Some Freed) /\
    (forall dat, SliceAppend (Ptr 1 0) dat h' = Undefined) /\
    SliceEmpty (Ptr 1 0) h' = Undefined /\
    DeleteSlice (Ptr 1 0) h' = Undefined.
Proof.
  apply (SliceEmpty_refused (refusing ex_heap) (Ptr 1 0) ex_slice).
  - split; [exists 1%nat; split; reflexivity|].
    unfold int_max, uint_max. simpl. repeat (split; [lia|]).
    eexists _, _. repeat split; simpl; lia.
  - reflexivity.
Defined.

(** ** A refused growth; negative bounds of a sub-range *)



Lemma norm_start_range st i1 :
  - len st <= i1 < len st -> 0 <= norm_start st i1 < len st.
Proof. unfold norm_start. destruct (Z.ltb_spec i1 0); lia. Qed.

Lemma norm_end_range st i2 :
  - len st <= i2 <= len st -> 0 <= norm_end st i2 <= len st.
Proof. unfold norm_end. destruct (Z.ltb_spec i2 0); lia. Qed.

(** X6.  Negative bounds are shorthands.  For a start in [[-len, len)] and an
    end in [[-len, len]], [SliceSlice(s, i1, i2, step)] behaves exactly as
    the call with the normalized bounds [i1 + len] (for [i1 < 0]) and
    [i2 + len + 1] (for [i2 < 0]): same result, same heap; so the end [-1]
    stands for [len] and includes the last element. *)
Theorem SliceSlice_normalized fuel h s st i1 i2 step :
  live_slice h s st -> 0 <= len st <= int_max ->
  - len st <= i1 < len st -> - len st <= i2 <= len st ->
  SliceSlice fuel s i1 i2 step h =
  SliceSlice fuel s (norm_start st i1) (norm_end st i2) step h.
Proof.
  intros L Hlen H1 H2.
  pose proof (norm_start_range st i1 H1) as R1.
  pose proof (norm_end_range st i2 H2) as R2.
  rewrite (SliceSlice_eq fuel h s st i1 i2 step L Hlen)
    by (unfold in_int, int_min, int_max in *; lia).
  rewrite (SliceSlice_eq fuel h s st _ _ step L Hlen)
    by (unfold in_int, int_min, int_max in *; lia).
  assert (N1 : norm_start st (norm_start st i1) = norm_start st i1).
  { unfold norm_start at 1. now rewrite (proj2 (Z.ltb_ge _ 0)) by lia. }
  assert (N2 : norm_end st (norm_end st i2) = norm_end st i2).
  { unfold norm_end at 1. now rewrite (proj2 (Z.ltb_ge _ 0)) by lia. }
  rewrite N1, N2.
  replace (rejectedb st (norm_start st i1) (norm_end st i2) step)
    with (rejectedb st i1 i2 step); [reflexivity|].
  unfold rejectedb. rewrite N1, N2.
  rewrite (proj2 (Z.leb_le (- len st) i1)) by lia.
  rewrite (proj2 (Z.ltb_lt i1 (len st))) by lia.
  rewrite (proj2 (Z.leb_le (- len st) i2)) by lia.
  rewrite (proj2 (Z.leb_le i2 (len st))) by lia.
  rewrite (proj2 (Z.leb_le (- len st) (norm_start st i1))) by lia.
  rewrite (proj2 (Z.ltb_lt (norm_start st i1) (len st))) by lia.
  rewrite (proj2 (Z.leb_le (- len st) (norm_end st i2))) by lia.
  rewrite (proj2 (Z.leb_le (norm_end st i2) (len st))) by lia.
  reflexivity.
Qed.

Lemma SliceSlice_normalized_witness :
  SliceSlice 5 (Ptr 1 0) (-3) (-1) 1 ex_heap =
  SliceSlice 5 (Ptr 1 0) (norm_start ex_slice (-3)) (norm_end ex_slice (-1)) 1
    ex_heap.
Proof.
  apply (SliceSlice_normalized 5 ex_heap (Ptr 1 0) ex_slice (-3) (-1) 1).
  - exact ex_live.
  - unfold int_max. simpl. lia.
  - simpl. lia.
  - simpl. lia.
Defined.

(** ** Ascending sub-ranges *)

Lemma accepted_bounds st i1 i2 step :
  rejectedb st i1 i2 step = false ->
  step <> 0 /\ 0 <= norm_start st i1 < norm_end st i2 /\
  norm_end st i2 <= len st.
Proof.
  intros Hacc. unfold rejectedb in Hacc.
  rewrite !orb_false_iff, !negb_false_iff, !andb_true_iff in Hacc.
  rewrite !Z.leb_le, Z.ltb_lt, Z.leb_gt, Z.eqb_neq in Hacc.
  split; [tauto|].
  unfold norm_start, norm_end in *.
  destruct (i1 <? 0) eqn:E1; destruct (i2 <? 0) eqn:E2;
    try apply Z.ltb_lt in E1; try apply Z.ltb_ge in E1;
    try apply Z.ltb_lt in E2; try apply Z.ltb_ge in E2; lia.
Qed.

(** X7.  A call of [SliceSlice] with a positive step, accepted bounds
    [n1 < n2] (after normalization), an allocator that grants the struct and
    the buffer, more fuel than elements to copy and a stride that keeps
    [i += step] inside [int] returns a new slice of capacity [n2 - n1] that
    holds the elements of [s] at [n1], [n1 + step], [n1 + 2 step], ..
    below [n2], in this order, and leaves [s] as it was. *)
Theorem SliceSlice_ascending fuel h s st i1 i2 step :
  wf_slice h s st -> in_int i1 -> in_int i2 -> 0 < step ->
  rejectedb st i1 i2 step = false ->
  answer h = true -> answer (asked h) = true ->
  let n1 := norm_start st i1 in
  let n2 := norm_end st i2 in
  let k := copy_count n1 n2 step in
  n1 + k * step <= int_max -> k < Z.of_nat fuel ->
  exists r h' rst,
    SliceSlice fuel s i1 i2 step h = Ret r h' /\ r <> NULL /\
    wf_slice h' r rst /\ len rst = k /\ cap rst = n2 - n1 /\
    n1 + (k - 1) * step < n2 <= n1 + k * step /\
    (forall j, 0 <= j < k ->
       exists x, elem h s (n1 + j * step) = Some x /\ elem h' r j = Some x) /\
    wf_slice h' s st /\
    (forall j, 0 <= j < len st -> elem h' s j = elem h s j).
Proof.
  intros W H1 H2 Hpos Hacc A1 A2 n1 n2 k Hfit Hfuel.
  destruct (accepted_bounds st i1 i2 step Hacc) as (_ & Hn & Hn2).
  fold n1 n2 in Hn, Hn2.
  destruct (SliceSlice_up_run fuel h s st i1 i2 step W H1 H2 Hpos Hacc A1 A2
              Hfit) as [_ Hrun].
  destruct (Hrun Hfuel) as (h' & Hr & Ws & Hsrc & rst & Wr & Hk & Hc & _ & _ & _ & Hcopied).
  fold n1 n2 k in Hk, Hc, Hcopied.
  set (q := (n2 - 1 - n1) / step).
  assert (Hq : step * q <= n2 - 1 - n1 < step * (q + 1)).
  { unfold q. split; [apply Z.mul_div_le; lia|].
    replace (step * ((n2 - 1 - n1) / step + 1))
      with (step * Z.succ ((n2 - 1 - n1) / step)) by lia.
    apply Z.mul_succ_div_gt; lia. }
  assert (Hq0 : 0 <= q) by (unfold q; apply Z.div_pos; lia).
  assert (Hcc : k = q + 1).
  { unfold k, copy_count, q. now rewrite Z.abs_eq by lia. }
  exists (Ptr (length (objs h)) 0), h', rst.
  split; [exact Hr|]. split; [discriminate|]. split; [exact Wr|].
  split; [exact Hk|]. split; [exact Hc|].
  split; [nia|]. split.
  { intros j Hj.
    destruct (wf_elem h s st (n1 + j * step) W) as [x Hx]; [nia|].
    exists x. split; [exact Hx|]. rewrite Hcopied by lia. exact Hx. }
  split; [exact Ws|]. exact Hsrc.
Qed.

Lemma SliceSlice_ascending_witness :
  exists r h' rst,
    SliceSlice 5 (Ptr 1 0) 0 3 2 ex_heap = Ret r h' /\ r <> NULL /\
    wf_slice h' r rst /\ len rst = copy_count 0 3 2 /\ cap rst = 3 - 0 /\
    0 + (copy_count 0 3 2 - 1) * 2 < 3 <= 0 + copy_count 0 3 2 * 2 /\
    (forall j, 0 <= j < copy_count 0 3 2 ->
       exists x, elem ex_heap (Ptr 1 0) (0 + j * 2) = Some x /\
                 elem h' r j = Some x) /\
    wf_slice h' (Ptr 1 0) ex_slice /\
    (forall j, 0 <= j < len ex_slice ->
       elem h' (Ptr 1 0) j = elem ex_heap (Ptr 1 0) j).
Proof.
  apply (SliceSlice_ascending 5 ex_heap (Ptr 1 0) ex_slice 0 3 2).
  - exact ex_wf.
  - apply in_int_small. lia.
  - apply in_int_small. lia.
  - lia.
  - reflexivity.
  - reflexivity.
  - reflexivity.
  - vm_compute. discriminate.
  - vm_compute. reflexivity.
Defined.

(** X8.  A positive step so large that the first [i += step] leaves the range
    of [int] makes an otherwise accepted [SliceSlice] undefined: the signed
    addition overflows after the first element is copied, although a single
    element is all the call could yield. *)
Theorem SliceSlice_stride_overflow fuel h s st i1 i2 step :
  wf_slice h s st -> in_int i1 -> in_int i2 ->
  rejectedb st i1 i2 step = false ->
  answer h = true -> answer (asked h) = true ->
  0 < step -> int_max < norm_start st i1 + step ->
  SliceSlice (S fuel) s i1 i2 step h = Undefined.
Proof.
  intros W H1 H2 Hacc A1 A2 Hpos Hover.
  destruct (accepted_bounds st i1 i2 step Hacc) as (_ & Hn & Hn2).
  pose proof W as (L & Hlen & Hcap & _).
  rewrite (SliceSlice_eq (S fuel) h s st i1 i2 step L) by (auto; lia).
  rewrite Hacc.
  set (n1 := norm_start st i1) in *. set (n2 := norm_end st i2) in *.
  rewrite (bind_Ret _ _ _ _ _ (NewSlice_ok h (elSize st) (n2 - n1) A1 A2
                                 ltac:(lia))).
  cbn [is_null]. rewrite (proj2 (Z.ltb_lt 0 step)) by lia.
  destruct (copy_step (elem h s) (fun j => n1 + j * step) s
              (Ptr (length (objs h)) 0) st (n2 - n1) 0
              (with_new_slice h (elSize st) (n2 - n1)))
    as (dat & h2 & Hget & Hdat & Happ & Hr & _).
  { apply copying_start; [exact W|lia]. }
  { lia. }
  { lia. }
  replace (n1 + 0 * step) with n1 in Hget by lia.
  cbn [copy_up]. rewrite (proj2 (Z.ltb_lt n1 n2)) by lia.
  rewrite (bind_Ret _ _ _ _ _ Hget), Hdat.
  rewrite (bind_Ret _ _ _ _ _ Happ), Hr.
  unfold int_add, checked, in_intb.
  rewrite (proj2 (Z.leb_gt (n1 + step) int_max)) by lia.
  now rewrite andb_false_r.
Qed.

Lemma SliceSlice_stride_overflow_witness :
  SliceSlice 1 (Ptr 1 0) 1 3 2147483647 ex_heap = Undefined.
Proof.
  apply (SliceSlice_stride_overflow 0 ex_heap (Ptr 1 0) ex_slice 1 3 2147483647).
  - exact ex_wf.
  - apply in_int_small. lia.
  - apply in_int_small. lia.
  - reflexivity.
  - reflexivity.
  - reflexivity.
  - lia.
  - vm_compute. reflexivity.
Defined.

(** ** The combinators on whole slices *)

Lemma store_bytes_live p vs h u h' s st :
  store_bytes p vs h = Ret u h' -> live_slice h s st -> live_slice h' s st.
Proof.
  unfold store_bytes. destruct p as [|b o]; [discriminate|].
  destruct (objs h !! b) as [[| d | |]|] eqn:Eb; try discriminate.
  destruct (in_bounds _ _ _); [|discriminate].
  intros [= _ <-] (sb & -> & Hs). exists sb. split; [reflexivity|].
  cbn [objs]. rewrite list_lookup_insert_ne; [exact Hs|].
  intros ->. congruence.
Qed.

Lemma foreach_loop_visit s st bb f (n : nat) :
  (forall p g u g', f p g = Ret u g' ->
     live_slice g s st -> live_slice g' s st) ->
  head st = Ptr bb 0 -> 0 <= len st <= int_max ->
  forall (fuel : nat) i h,
  live_slice h s st -> 0 <= i -> i + Z.of_nat n = len st -> (n < fuel)%nat ->
  foreach_loop fuel s f i h =
    visit f ((fun j => Ptr bb (offset st j)) <$> seqZ i (Z.of_nat n)) h.
Proof.
  intros Hf Hh Hmax. induction n as [|n IH]; intros fuel i h L Hi Hn Hfuel;
    (destruct fuel as [|fuel]; [lia|]); simpl.
  - rewrite (bind_Ret _ _ _ _ _ (load_Slice_live _ _ _ L)).
    now rewrite (proj2 (Z.ltb_ge i (len st))) by lia.
  - rewrite (bind_Ret _ _ _ _ _ (load_Slice_live _ _ _ L)).
    rewrite (proj2 (Z.ltb_lt i (len st))) by lia.
    rewrite seqZ_cons by lia. rewrite fmap_cons. cbn [visit].
    rewrite (bind_Ret _ _ _ _ _ (SliceGet_at h s st bb i L Hh Hmax
                                   ltac:(lia))).
    apply bind_ext. intros u h2 Hcall.
    unfold int_add.
    rewrite (bind_Ret _ _ _ _ _ (checked_in (i + 1) h2
               ltac:(unfold in_int, int_min, int_max in *; lia))).
    replace (Z.pred (Z.of_nat (S n))) with (Z.of_nat n) by lia.
    replace (Z.succ i) with (i + 1) by lia.
    apply IH; try lia. eapply Hf; eauto.
Qed.

(** X11.  [SliceForEach(s, f)] calls [f] once on each element, in the order of
    the indices [0 .. len-1], with the pointer into the buffer that
    [SliceGet] yields (so [f] works on the elements in place), provided [f]
    leaves the struct of [s] alone and the fuel exceeds [len]; the run is
    that sequence of calls, outcome for outcome. *)
Theorem SliceForEach_visits fuel h s st bb f :
  live_slice h s st -> head st = Ptr bb 0 -> 0 <= len st <= int_max ->
  (forall p g u g', f p g = Ret u g' ->
     live_slice g s st -> live_slice g' s st) ->
  len st < Z.of_nat fuel ->
  SliceForEach fuel s f h =
    visit f ((fun j => Ptr bb (offset st j)) <$> seqZ 0 (len st)) h.
Proof.
  intros L Hh Hmax Hf Hfuel. unfold SliceForEach.
  rewrite <- (Z2Nat.id (len st)) by lia.
  apply (foreach_loop_visit s st bb f (Z.to_nat (len st)) Hf Hh Hmax); auto;
    lia.
Qed.

Lemma SliceForEach_visits_witness :
  SliceForEach 5 (Ptr 1 0) clear_byte ex_heap =
    visit clear_byte
      ((fun j => Ptr 2 (offset ex_slice j)) <$> seqZ 0 (len ex_slice)) ex_heap
  /\ heap_of (SliceForEach 5 (Ptr 1 0) clear_byte ex_heap) =
     Some (mkHeap [Raw bytes789; Struct ex_slice;
                   Raw [MByte x00; MByte x00; MByte x00; Undef]] []).
Proof.
  split; [|reflexivity].
  apply (SliceForEach_visits 5 ex_heap (Ptr 1 0) ex_slice 2 clear_byte).
  - exact ex_live.
  - reflexivity.
  - unfold int_max. simpl. lia.
  - intros p g u g'. apply store_bytes_live.
  - simpl. lia.
Defined.

Lemma filter_loop_run h0 s st vs r rst0 f (phi : list memval -> Z) (n : nat) :
  wf_slice h0 r rst0 -> holds h0 s st vs ->
  s <> r -> head st <> head rst0 -> elSize rst0 = elSize st -> len rst0 = 0 ->
  growth_fits (elSize st) (len st) ->
  (forall g p v, read g p (elSize st) = Some v -> f p g = Ret (phi v) g) ->
  forall (fuel k : nat) h rst,
  holds h r rst (filter (fun v => phi v <> 0) (take k vs)) ->
  grown_from h0 r rst0 h rst -> all_granted h ->
  (k + n)%nat = length vs -> (n < fuel)%nat ->
  exists h' rst',
    filter_loop fuel s r f (Z.of_nat k) h = Ret r h' /\
    holds h' r rst' (filter (fun v => phi v <> 0) vs) /\
    grown_from h0 r rst0 h' rst' /\ all_granted h'.
Proof.
  intros Wr Hs Hne Hbuf HE Hl0 Hfit Hf.
  pose proof Hs as (Ws & Hls & _).
  pose proof Ws as (Ls & Hlens & Hcaps & HEs & _ & bb & d & Hh & Hb & _).
  induction n as [|n IH]; intros fuel k h rst Hh' Hg Hgr Hk Hfuel;
    (destruct fuel as [|fuel]; [lia|]); simpl;
    pose proof (grown_from_other h0 r rst0 h rst s st vs Hg Wr Hs Hne Hbuf)
      as Hs'; pose proof Hs' as (Ws' & _ & _); pose proof Ws' as (Ls' & _).
  - rewrite (bind_Ret _ _ _ _ _ (load_Slice_live _ _ _ Ls')).
    rewrite (proj2 (Z.ltb_ge (Z.of_nat k) (len st))) by lia.
    exists h, rst. split; [reflexivity|]. split; [|auto].
    rewrite take_ge in Hh' by lia. exact Hh'.
  - rewrite (bind_Ret _ _ _ _ _ (load_Slice_live _ _ _ Ls')).
    rewrite (proj2 (Z.ltb_lt (Z.of_nat k) (len st))) by lia.
    destruct (lookup_lt_is_Some_2 vs k ltac:(lia)) as [v Hv].
    destruct (holds_read h0 s st vs bb k v Hs Hh Hv) as [Hkr Hrd0].
    destruct (holds_read h s st vs bb k v Hs' Hh Hv) as [_ Hrd].
    rewrite (bind_Ret _ _ _ _ _ (SliceGet_in_range h s st bb _ Ws' Hh Hkr)).
    rewrite (bind_Ret _ _ _ _ _ (Hf h _ v Hrd)).
    assert (Hnext : forall h1 rst1,
              holds h1 r rst1 (filter (fun v => phi v <> 0) (take (S k) vs)) ->
              grown_from h0 r rst0 h1 rst1 -> all_granted h1 ->
              exists h' rst',
                (let* i' := int_add (Z.of_nat k) 1 in
                 filter_loop fuel s r f i') h1 = Ret r h' /\
                holds h' r rst' (filter (fun v => phi v <> 0) vs) /\
                grown_from h0 r rst0 h' rst' /\ all_granted h').
    { intros h1 rst1 H1 Hg1 Hgr1. unfold int_add.
      rewrite (bind_Ret _ _ _ _ _ (checked_in (Z.of_nat k + 1) h1
                 ltac:(unfold in_int, int_min, int_max in *; lia))).
      replace (Z.of_nat k + 1) with (Z.of_nat (S k)) by lia.
      apply (IH fuel (S k) h1 rst1); auto; lia. }
    rewrite (take_S_r vs k v Hv), filter_app in Hnext.
    destruct (Z.eqb_spec (phi v) 0) as [Hz|Hnz].
    + unfold bind at 1. unfold pure at 1. cbv iota.
      apply (Hnext h rst); auto.
      rewrite filter_cons_False, filter_nil, app_nil_r by tauto. exact Hh'.
    + rewrite filter_cons_True, filter_nil in Hnext by exact Hnz.
      destruct (append_step h0 r rst0 h rst _
                  (Ptr bb (Z.of_nat k * elSize st)) v Hh' Hg Hgr)
        as (h1 & rst1 & Hrun & Hh1 & Hg1 & Hgr1 & _).
      { now rewrite HE. }
      { intros b o [= <- <-]. split; [|congruence].
        destruct Wr as ((rb & -> & Hrs) & _).
        destruct Ls as (sb & -> & Hss). intros [= ->]. congruence. }
      { intros Hfull. rewrite HE.
        apply (growth_fits_full _ (len st)); auto; [lia|].
        destruct Hh' as ((_ & ? & _) & Hl & _).
        rewrite <- Hfull, Hl. split; [lia|].
        pose proof (length_filter (fun v => phi v <> 0) (take k vs)) as Hle.
        rewrite length_take in Hle. lia. }
      unfold bind at 1. unfold bind at 1. rewrite Hrun.
      destruct Wr as ((rb & -> & Hrs) & Wr'). cbn [is_null].
      unfold pure at 1. cbv iota.
      apply (Hnext h1 rst1); auto.
Qed.

(** X10.  With an allocator that grants every request, sizes for which the
    growth arithmetic does not overflow, more fuel than elements and a
    callback [f] that only computes a value [phi] from the bytes of the
    element it is given, [SliceFilter(s, f)] returns a new slice that holds
    exactly the elements of [s] on which [f] is not [0], in their order, and
    leaves [s] and its elements as they were. *)
Theorem SliceFilter_selects fuel h s st vs f (phi : list memval -> Z) :
  holds h s st vs -> all_granted h ->
  growth_fits (elSize st) (len st) ->
  (forall g p v, read g p (elSize st) = Some v -> f p g = Ret (phi v) g) ->
  (length vs < fuel)%nat ->
  exists r h' rst,
    SliceFilter fuel s f h = Ret r h' /\ r <> NULL /\ r <> s /\
    holds h' r rst (filter (fun v => phi v <> 0) vs) /\
    elSize rst = elSize st /\ head rst <> head st /\
    holds h' s st vs.
Proof.
  intros Hs Hgr Hfit Hf Hfuel.
  pose proof Hs as (Ws & Hls & Hel).
  pose proof Ws as (Ls & Hlens & Hcaps & HEs & _).
  assert (A1 : answer h = true) by now apply all_granted_answer.
  assert (A2 : answer (asked h) = true).
  { apply all_granted_answer. apply all_granted_tl. exact Hgr. }
  set (r := Ptr (length (objs h)) 0).
  set (h1 := with_new_slice h (elSize st) 0).
  destruct (copying_start h s st 0 (fun j => j) Ws ltac:(lia))
    as (Ws1 & Hsrc & rst0 & Wr & Hl0 & Hc0 & HE0 & Hne & Hbuf & _).
  fold r h1 in Ws1, Hsrc, Wr, Hne.
  assert (Hs1 : holds h1 s st vs).
  { split; [exact Ws1|]. split; [exact Hls|]. intros j v Hj.
    rewrite Hsrc by (apply lookup_lt_Some in Hj; lia). now apply Hel. }
  assert (Hgr1 : all_granted h1).
  { unfold h1, with_new_slice.
    apply (all_granted_tl (mkHeap (objs h) (tl (oracle h)))).
    now apply all_granted_tl. }
  destruct (filter_loop_run h1 s st vs r rst0 f phi (length vs) Wr Hs1
              ltac:(congruence) ltac:(congruence) HE0 Hl0 Hfit Hf fuel 0%nat
              h1 rst0)
    as (h' & rst' & Hrun & Hr' & Hg' & _); auto.
  { rewrite take_0, filter_nil. split; [exact Wr|]. split; [exact Hl0|].
    intros j v Hj. now rewrite lookup_nil in Hj. }
  { apply grown_from_refl. }
  exists r, h', rst'. split.
  { unfold SliceFilter.
    rewrite (bind_Ret _ _ _ _ _ (load_Slice_live _ _ _ Ls)).
    rewrite (bind_Ret _ _ _ _ _ (NewSlice_ok h (elSize st) 0 A1 A2
                                   ltac:(unfold int_max; lia))).
    exact Hrun. }
  split; [discriminate|]. split; [exact Hne|]. split; [exact Hr'|].
  pose proof Hg' as (HE' & _ & Hhead & _).
  split; [congruence|]. split.
  { destruct Ws as (_ & _ & _ & _ & _ & bb & d & Hh & Hb & _).
    destruct Hr' as ((_ & _ & _ & _ & _ & b' & d' & Hh' & _) & _).
    rewrite Hh', Hh. intros [= ->].
    destruct (Hhead _ Hh') as [Heq|Hge]; [congruence|].
    apply lookup_lt_Some in Hb. unfold h1, with_new_slice in Hge.
    cbn [objs] in Hge. rewrite length_app in Hge. lia. }
  apply (grown_from_other h1 r rst0 h' rst' s st vs Hg' Wr Hs1);
    congruence.
Qed.

Lemma skip_eight_reads g p v :
  read g p (elSize ex_slice) = Some v -> skip_eight p g = Ret (not_eight v) g.
Proof.
  intros Hr. unfold skip_eight. unfold bind.
  change (elSize ex_slice) with 1 in Hr. now rewrite load_bytes_read, Hr.
Qed.

Lemma SliceFilter_selects_witness :
  exists r h' rst,
    SliceFilter 5 (Ptr 1 0) skip_eight ex_heap = Ret r h' /\ r <> NULL /\
    r <> Ptr 1 0 /\
    holds h' r rst
      (filter (fun v => not_eight v <> 0)
              [[MByte x07]; [MByte x08]; [MByte x09]]) /\
    elSize rst = elSize ex_slice /\ head rst <> head ex_slice /\
    holds h' (Ptr 1 0) ex_slice [[MByte x07]; [MByte x08]; [MByte x09]].
Proof.
  apply (SliceFilter_selects 5 ex_heap (Ptr 1 0) ex_slice _ skip_eight
           not_eight ex_holds).
  - apply Forall_nil_2.
  - apply growth_fits_small; simpl; lia.
  - exact skip_eight_reads.
  - simpl. lia.
Defined.

Lemma map_loop_run h0 s st vs bb r rst0 f (pi : pointer -> pointer) ws
    (n : nat) :
  wf_slice h0 r rst0 -> holds h0 s st vs -> head st = Ptr bb 0 ->
  s <> r -> head st <> head rst0 -> len rst0 = 0 -> cap rst0 = len st ->
  (forall p g, f p g = Ret (pi p) g) -> length ws = length vs ->
  (forall j w, ws !! j = Some w ->
     read h0 (pi (Ptr bb (Z.of_nat j * elSize st))) (elSize rst0) = Some w /\
     forall b o, pi (Ptr bb (Z.of_nat j * elSize st)) = Ptr b o ->
                 r <> Ptr b 0 /\ head rst0 <> Ptr b 0) ->
  forall (fuel k : nat) h rst,
  holds h r rst (take k ws) -> grown_from h0 r rst0 h rst ->
  cap rst = len st -> all_granted h ->
  (k + n)%nat = length vs -> (n < fuel)%nat ->
  exists h' rst',
    map_loop fuel s r f (Z.of_nat k) h = Ret r h' /\
    holds h' r rst' ws /\ grown_from h0 r rst0 h' rst' /\
    cap rst' = len st.
Proof.
  intros Wr Hs Hh Hne Hbuf Hl0 Hc0 Hf Hlw Hws.
  pose proof Hs as (Ws & Hls & _).
  pose proof Ws as (Ls & Hlens & Hcaps & HEs & _).
  induction n as [|n IH]; intros fuel k h rst Hh' Hg Hcap Hgr Hk Hfuel;
    (destruct fuel as [|fuel]; [lia|]); simpl;
    pose proof (grown_from_other h0 r rst0 h rst s st vs Hg Wr Hs Hne Hbuf)
      as Hs'; pose proof Hs' as (Ws' & _ & _); pose proof Ws' as (Ls' & _).
  - rewrite (bind_Ret _ _ _ _ _ (load_Slice_live _ _ _ Ls')).
    rewrite (proj2 (Z.ltb_ge (Z.of_nat k) (len st))) by lia.
    exists h, rst. split; [reflexivity|]. split; [|auto].
    rewrite take_ge in Hh' by lia. exact Hh'.
  - rewrite (bind_Ret _ _ _ _ _ (load_Slice_live _ _ _ Ls')).
    rewrite (proj2 (Z.ltb_lt (Z.of_nat k) (len st))) by lia.
    destruct (lookup_lt_is_Some_2 ws k ltac:(lia)) as [w Hw].
    destruct (Hws k w Hw) as [Hrd Hout].
    rewrite (bind_Ret _ _ _ _ _ (SliceGet_in_range h s st bb (Z.of_nat k) Ws'
                                   Hh ltac:(lia))).
    rewrite (bind_Ret _ _ _ _ _ (Hf _ h)).
    destruct (append_step h0 r rst0 h rst (take k ws)
                (pi (Ptr bb (Z.of_nat k * elSize st))) w Hh' Hg Hgr Hrd)
      as (h1 & rst1 & Hrun & Hh1 & Hg1 & Hgr1 & Hbump).
    { intros b o Hp. now apply (Hout b o). }
    { intros Hfull. exfalso.
      destruct Hh' as (_ & Hl & _). rewrite length_take in Hl. lia. }
    rewrite (bind_Ret _ _ _ _ _ Hrun).
    destruct Wr as ((rb & -> & Hrs) & Wr'). cbn [is_null].
    unfold int_add.
    rewrite (bind_Ret _ _ _ _ _ (checked_in (Z.of_nat k + 1) h1
               ltac:(unfold in_int, int_min, int_max in *; lia))).
    replace (Z.of_nat k + 1) with (Z.of_nat (S k)) by lia.
    apply (IH fuel (S k) h1 rst1); auto; try lia.
    + rewrite (take_S_r ws k w Hw). exact Hh1.
    + rewrite Hbump; [exact Hcap|].
      destruct Hh' as (_ & Hl & _). rewrite length_take in Hl. lia.
Qed.

(** X9.  With an allocator that grants every request, more fuel than
    elements and a callback [f] that computes its result pointer [pi p]
    without touching the heap, [SliceMap(s, elSize, f)] returns a new slice
    whose element [j] is the [elSize] bytes found behind [f] of the pointer
    to element [j] of [s]; its capacity is the length of [s], so no append
    has to grow it, and [s] is left as it was. *)
Theorem SliceMap_maps fuel h s st vs bb E f (pi : pointer -> pointer) ws :
  holds h s st vs -> head st = Ptr bb 0 -> all_granted h ->
  0 <= E <= uint_max -> len st * E <= uint_max ->
  (forall p g, f p g = Ret (pi p) g) -> length ws = length vs ->
  (forall j w, ws !! j = Some w ->
     read h (pi (Ptr bb (Z.of_nat j * elSize st))) E = Some w) ->
  (length vs < fuel)%nat ->
  exists r h' rst,
    SliceMap fuel s E f h = Ret r h' /\ r <> NULL /\ r <> s /\
    holds h' r rst ws /\ cap rst = len st /\ elSize rst = E /\
    holds h' s st vs.
Proof.
  intros Hs Hh Hgr HE Hsz Hf Hlw Hws Hfuel.
  pose proof Hs as (Ws & Hls & Hel).
  pose proof Ws as (Ls & Hlens & Hcaps & HEs & Hoff & bb' & d & Hh' & Hb & Hd).
  rewrite Hh in Hh'. injection Hh' as <-.
  assert (A1 : answer h = true) by now apply all_granted_answer.
  assert (A2 : answer (asked h) = true).
  { apply all_granted_answer. apply all_granted_tl. exact Hgr. }
  destruct (with_new_slice_wf h E (len st) ltac:(lia) HE Hsz)
    as (Wr & _ & Hfr).
  set (r := Ptr (length (objs h)) 0) in *.
  set (rst0 := mkSlice (Ptr (S (length (objs h))) 0) 0 (len st) E) in *.
  set (h1 := with_new_slice h E (len st)) in *.
  assert (Hl0 : len rst0 = 0) by reflexivity.
  assert (Hc0 : cap rst0 = len st) by reflexivity.
  assert (HE0 : elSize rst0 = E) by reflexivity.
  assert (Hhr : head rst0 = Ptr (S (length (objs h))) 0) by reflexivity.
  assert (Hbb : (bb < length (objs h))%nat) by (eapply lookup_lt_Some; eauto).
  destruct Ls as (sb & -> & Hss).
  assert (Hsb : (sb < length (objs h))%nat) by (eapply lookup_lt_Some; eauto).
  assert (Ws1 : wf_slice h1 (Ptr sb 0) st).
  { split; [exists sb; split; [reflexivity|now rewrite Hfr]|].
    repeat (split; [lia|]). exists bb, d. split; [exact Hh|].
    split; [now rewrite Hfr|exact Hd]. }
  assert (Hs1 : holds h1 (Ptr sb 0) st vs).
  { split; [exact Ws1|]. split; [exact Hls|]. intros j v Hj.
    rewrite <- (Hel j v Hj).
    apply (elem_frame h h1 (Ptr sb 0) st bb).
    - exists sb. auto.
    - exists sb. split; [reflexivity|now rewrite Hfr].
    - exact Hh.
    - now apply Hfr. }
  assert (Hne : Ptr sb 0 <> r) by (intros [= ?]; lia).
  assert (Hbuf : head st <> head rst0)
    by (rewrite Hh, Hhr; intros [= ?]; lia).
  assert (Hws1 : forall j w, ws !! j = Some w ->
            read h1 (pi (Ptr bb (Z.of_nat j * elSize st))) (elSize rst0)
              = Some w /\
            forall b o, pi (Ptr bb (Z.of_nat j * elSize st)) = Ptr b o ->
                        r <> Ptr b 0 /\ head rst0 <> Ptr b 0).
  { intros j w Hw. specialize (Hws j w Hw). rewrite HE0.
    destruct (pi (Ptr bb (Z.of_nat j * elSize st))) as [|b o] eqn:Ep;
      [discriminate|].
    assert (Hlt : (b < length (objs h))%nat).
    { rewrite read_Ptr in Hws.
      destruct (objs h !! b) eqn:Eb; [|discriminate].
      eapply lookup_lt_Some; eauto. }
    split.
    - rewrite <- Hws. apply read_frame. now apply Hfr.
    - intros b' o' [= <- <-]. rewrite Hhr.
      split; intros [= ?]; lia. }
  assert (H0 : holds h1 r rst0 (take 0 ws)).
  { rewrite take_0. split; [exact Wr|]. split; [exact Hl0|].
    intros j v Hj. now rewrite lookup_nil in Hj. }
  assert (Hgr1 : all_granted h1).
  { unfold h1, with_new_slice.
    apply (all_granted_tl (mkHeap (objs h) (tl (oracle h)))).
    now apply all_granted_tl. }
  destruct (map_loop_run h1 (Ptr sb 0) st vs bb r rst0 f pi ws (length vs)
              Wr Hs1 Hh Hne Hbuf Hl0 Hc0 Hf Hlw Hws1 fuel 0%nat h1 rst0 H0
              (grown_from_refl h1 r rst0) Hc0 Hgr1 eq_refl Hfuel)
    as (h' & rst' & Hrun & Hr' & Hg' & Hc').
  exists r, h', rst'. split.
  { unfold SliceMap.
    rewrite (bind_Ret _ _ h st h) by (apply load_Slice_live; exists sb; auto).
    rewrite (bind_Ret _ _ _ _ _ (NewSlice_ok h E (len st) A1 A2
                                   ltac:(lia))).
    exact Hrun. }
  split; [discriminate|]. split; [intros [= ?]; lia|].
  split; [exact Hr'|]. split; [exact Hc'|].
  pose proof Hg' as (HE' & _).
  split; [congruence|].
  apply (grown_from_other h1 r rst0 h' rst' (Ptr sb 0) st vs Hg' Wr Hs1);
    assumption.
Qed.

Lemma SliceMap_maps_witness :
  exists r h' rst,
    SliceMap 5 (Ptr 1 0) 1 pure ex_heap = Ret r h' /\ r <> NULL /\
    r <> Ptr 1 0 /\
    holds h' r rst [[MByte x07]; [MByte x08]; [MByte x09]] /\
    cap rst = len ex_slice /\ elSize rst = 1 /\
    holds h' (Ptr 1 0) ex_slice [[MByte x07]; [MByte x08]; [MByte x09]].
Proof.
  apply (SliceMap_maps 5 ex_heap (Ptr 1 0) ex_slice _ 2 1 pure (fun p => p)
           _ ex_holds).
  - reflexivity.
  - apply Forall_nil_2.
  - unfold uint_max. lia.
  - unfold uint_max. simpl. lia.
  - reflexivity.
  - reflexivity.
  - intros [|[|[|j]]] w [= <-]; reflexivity.
  - simpl. lia.
Defined.
